(** * Shape and state contracts of the two model definitions

    The repository holds two model-construction units:

    - [research/action_recognition/models/lrcnn.py]: the function
      [LRMobileNetV2], a Keras [Sequential] model (MobileNetV2 per frame,
      then LSTM/GRU layers, then a softmax classifier);
    - [research/ssd_pytorch/models/model.py]: the PyTorch classes
      [SSDMobileNetV2FeatureExtractor] and [SSD300].

    Both are compositions of framework layers.  The development embeds the
    code as it is written (constructors run in a state-and-exception monad,
    parameters live in a store so that aliasing is visible) on top of a
    model of the framework operations the code calls: the shape rules of the
    layers, the checks they perform, and parameter allocation.  Tensor
    contents are floating point and are not modelled; a parameter carries its
    shape and a symbolic description of its contents. *)

From Stdlib Require Import ZArith QArith List String Lia Bool.
From stdpp Require Import base option list strings gmap.

Local Open Scope Z_scope.

(** ** Exceptions and the state-and-exception monad *)

(** The Python exceptions the modelled framework calls can raise. *)
Inductive exn : Type :=
| ValueError (msg : string)
| RuntimeError (msg : string)
| TypeError (msg : string)
| AttributeError (msg : string)
| OSError (msg : string)
| ChannelMismatch (expected got : Z)   (* RuntimeError of a convolution or
                                           batch norm fed a wrong channel count *)
| KeyError (msg : string)
| ZeroDivisionError (msg : string).

Inductive result (A : Type) : Type :=
| Ok (a : A)
| Raise (e : exn).
Arguments Ok {A} a.
Arguments Raise {A} e.

(** A computation over a state [S]: the state survives an exception, as the
    effects of a Python statement do. *)
Definition M (S A : Type) : Type := S -> result A * S.

Definition ret {S A} (a : A) : M S A := fun s => (Ok a, s).

Definition bind {S A B} (c : M S A) (k : A -> M S B) : M S B :=
  fun s =>
    match c s with
    | (Ok a, s') => k a s'
    | (Raise e, s') => (Raise e, s')
    end.

Definition raise {S A} (e : exn) : M S A := fun s => (Raise e, s).

Definition get {S} : M S S := fun s => (Ok s, s).
Definition put {S} (s : S) : M S unit := fun _ => (Ok tt, s).
Definition modify {S} (f : S -> S) : M S unit := fun s => (Ok tt, f s).

Definition lift_result {S A} (r : result A) : M S A := fun s => (r, s).

Declare Scope py_scope.
Delimit Scope py_scope with py.
Notation "x <- c ;; k" := (bind c (fun x => k))
  (at level 100, c at next level, right associativity) : py_scope.
Notation "c ;;; k" := (bind c (fun _ => k))
  (at level 100, right associativity) : py_scope.

(** The pure exception monad, for code that reads but does not write. *)
Definition rbind {A B} (r : result A) (k : A -> result B) : result B :=
  match r with
  | Ok a => k a
  | Raise e => Raise e
  end.

Notation "x <~ c ;; k" := (rbind c (fun x => k))
  (at level 100, c at next level, right associativity) : py_scope.

Local Open Scope py_scope.

Section Loops.
Context {S A B : Type}.

(** A [for] loop that threads an accumulator, stopping at the first
    exception. *)
Section FoldM.
Variable f : B -> A -> M S B.
Fixpoint foldM (l : list A) (b : B) : M S B :=
  match l with
  | [] => ret b
  | a :: l' => b' <- f b a ;; foldM l' b'
  end.
End FoldM.

Section Rfold.
Variable f : B -> A -> result B.
Fixpoint rfold (l : list A) (b : B) : result B :=
  match l with
  | [] => Ok b
  | a :: l' => b' <~ f b a ;; rfold l' b'
  end.
End Rfold.

(** A list comprehension whose body can raise. *)
Section Rmap.
Variable f : A -> result B.
Fixpoint rmap (l : list A) : result (list B) :=
  match l with
  | [] => Ok []
  | a :: l' => b <~ f a ;; bs <~ rmap l' ;; Ok (b :: bs)
  end.
End Rmap.

End Loops.

(** Python's [zip] of three iterables stops at the shortest. *)
Fixpoint zip3 {A B C} (la : list A) (lb : list B) (lc : list C)
  : list (A * B * C) :=
  match la, lb, lc with
  | a :: la', b :: lb', c :: lc' => (a, b, c) :: zip3 la' lb' lc'
  | _, _, _ => []
  end.

(** Python's [enumerate]. *)
Fixpoint enumerate_from {A} (i : Z) (l : list A) : list (Z * A) :=
  match l with
  | [] => []
  | a :: l' => (i, a) :: enumerate_from (i + 1) l'
  end.
Definition enumerate {A} (l : list A) : list (Z * A) := enumerate_from 0 l.

(** The product of the entries of a shape. *)
Definition prodZ (l : list Z) : Z := fold_right Z.mul 1 l.

(** * Part I: [lrcnn.py], the long-term recurrent MobileNetV2 *)

Module Keras.

(** A Keras shape: the batch axis of a symbolic tensor is [None]. *)
Definition kshape := list (option Z).

(** The value passed for [weights], as the docstring has it: [None] or a
    string (['imagenet'] or a path).  Other objects, a path object among
    them, are not modelled. *)
Inductive weights_arg : Type :=
| PyNone
| PyStr (s : string).

#[global] Instance weights_arg_eq_dec : EqDecision weights_arg.
Proof. solve_decision. Defined.

(** What the constructor does to the outside world: the files it reads. *)
Inductive event : Type :=
| FetchImagenet                  (* keras.applications loading its ImageNet weights *)
| LoadWeights (w : weights_arg). (* [model.load_weights(w)] *)

(** The world the constructor runs in: which paths hold a weights file that
    fits the model, and the calls made so far. *)
Record world : Type := World {
  fits : string -> bool;
  log : list event
}.

Definition emit (e : event) : M world unit :=
  modify (fun w => World (fits w) (log w ++ [e])).

Inductive pooling : Type := PoolNone | PoolAvg | PoolMax.

(** [keras.applications.mobilenet_v2.MobileNetV2], as a model value: only
    the attributes that decide its input and output shapes are kept. *)
Record application : Type := Application {
  app_input_shape : list Z;
  app_include_top : bool;
  app_pooling : pooling
}.

Inductive layer : Type :=
| TimeDistributed (inner : application) (input_shape : list Z)
| LSTM (units : Z) (return_sequences : bool)
| GRU (units : Z) (return_sequences : bool)
| Dropout (rate : Q)
| Dense (units : Z) (activation : string) (name : string).

(** A [keras.Sequential]: its layers, and the symbolic output of the last
    one once the model has an input. *)
Record sequential : Type := Sequential {
  layers : list layer;
  outputs : option kshape
}.

(** *** The framework calls of [lrcnn.py] *)

(** [MobileNetV2(input_shape, include_top=..., pooling=...)] with the
    defaults [alpha=1.0], [weights='imagenet'], [classes=1000].  With the
    ImageNet weights and no top, the input must be three integers, the last
    one 3, the first two at least 32.  (A frame shape is a tuple of
    integers here; undefined sizes are not modelled.) *)
Definition MobileNetV2 (input_shape : list Z) (include_top : bool)
    (pool : pooling) : M world application :=
  match input_shape with
  | [h; w; c] =>
      if include_top && negb (bool_decide (input_shape = [224; 224; 3]))
      then raise (ValueError "input_shape must be the default one with the top")
      else if negb (c =? 3)
      then raise (ValueError "The input must have 3 channels")
      else if (h <? 32) || (w <? 32)
      then raise (ValueError "Input size must be at least 32x32")
      else emit FetchImagenet ;;;
           ret (Application input_shape include_top pool)
  | _ => raise (ValueError "input_shape must be a tuple of three integers")
  end.

(** Output shape of the application on one batch of frames. *)
Definition application_out (a : application) (x : kshape) : result kshape :=
  match x with
  | b :: frame =>
      if bool_decide (frame = map Some (app_input_shape a)) then
        match app_include_top a, app_pooling a, app_input_shape a with
        | true, _, _ => Ok [b; Some 1000]
        | false, PoolNone, [h; w; _] =>
            Ok [b; Some ((h + 31) / 32); Some ((w + 31) / 32); Some 1280]
        | false, _, _ => Ok [b; Some 1280]
        end
      else Raise (ValueError "input is incompatible with the layer")
  | [] => Raise (ValueError "input is incompatible with the layer")
  end.

Definition rnn_out (units : Z) (return_sequences : bool) (x : kshape)
  : result kshape :=
  match x with
  | [b; t; _] => Ok (if return_sequences then [b; t; Some units]
                     else [b; Some units])
  | _ => Raise (ValueError "expected ndim=3")
  end.

(** The shape a layer returns on a symbolic or concrete input. *)
Definition layer_out (l : layer) (x : kshape) : result kshape :=
  match l with
  | TimeDistributed inner _ =>
      match x with
      | b :: t :: frame =>
          match frame with
          | [] => Raise (ValueError "TimeDistributed needs at least 3 dimensions")
          | _ =>
              y <~ application_out inner (None :: frame) ;;
              Ok (b :: t :: tail y)
          end
      | _ => Raise (ValueError "TimeDistributed needs at least 3 dimensions")
      end
  | LSTM units rs => rnn_out units rs x
  | GRU units rs => rnn_out units rs x
  | Dropout _ => Ok x
  | Dense units _ _ =>
      match rev x with
      | Some _ :: (_ :: _) as front => Ok (rev (Some units :: front))
      | _ => Raise (ValueError "the last dimension of the input to Dense should be defined")
      end
  end.

(** The checks made when a layer is created and added.  The sequence
    length that [TimeDistributed] declares for the input must be positive
    for the input of the model to be created ([tf.keras] 2; a later Keras
    lets 0 through and refuses a negative length as well). *)
Definition layer_check (l : layer) : result unit :=
  match l with
  | TimeDistributed _ input_shape =>
      match input_shape with
      | timesteps :: _ =>
          if timesteps <=? 0
          then Raise (ValueError "the declared sequence length must be positive")
          else Ok tt
      | [] => Ok tt
      end
  | LSTM units _ | GRU units _ | Dense units _ _ =>
      if units <? 0 then Raise (ValueError "units must be a positive integer")
      else Ok tt
  | Dropout rate =>
      if Qle_bool 0 rate && Qle_bool rate 1 then Ok tt
      else Raise (ValueError "rate must be between 0 and 1")
  end.

Definition layer_input_shape (l : layer) : option (list Z) :=
  match l with
  | TimeDistributed _ s => Some s
  | _ => None
  end.

(** [model.add(layer)]: the layer is appended; once the model has an input
    (the first layer declares one) the layer is called on the current
    output, so an incompatible layer raises here. *)
Definition add (m : sequential) (l : layer) : M world sequential :=
  _ <- lift_result (layer_check l) ;;
  match layers m, outputs m with
  | [], _ =>
      match layer_input_shape l with
      | Some s =>
          y <- lift_result (layer_out l (None :: map Some s)) ;;
          ret (Sequential [l] (Some y))
      | None => ret (Sequential [l] None)
      end
  | _ :: _, Some x =>
      y <- lift_result (layer_out l x) ;;
      ret (Sequential (layers m ++ [l]) (Some y))
  | _ :: _, None => ret (Sequential (layers m ++ [l]) None)
  end.

(** [model.load_weights(w)]. *)
Definition load_weights (m : sequential) (w : weights_arg) : M world unit :=
  emit (LoadWeights w) ;;;
  match w with
  | PyNone => raise (AttributeError "'NoneType' object has no attribute 'endswith'")
  | PyStr path =>
      wd <- get ;;
      if fits wd path then ret tt
      else raise (OSError "unable to open or to match the weights file")
  end.

(** The per-sample input shape the model declares, if it does. *)
Definition declared_input (m : sequential) : option (list Z) :=
  match layers m with
  | l :: _ => layer_input_shape l
  | [] => None
  end.

(** A shape without its last axis, when that axis has size 1. *)
Definition drop_unit_axis (x : list Z) : list Z :=
  if List.last x 0 =? 1 then removelast x else x.

(** The check of an input against the declared input shape ([tf.keras] 2,
    [assert_input_compatibility] with [allow_last_axis_squeeze]): a last
    axis of size 1 is left out on both sides, the batch axis is free, and
    the other axes are compared pairwise as far as both shapes go. *)
Definition compatible (declared x : list Z) : bool :=
  forallb (fun '(spec_dim, dim) =>
             match spec_dim with
             | Some d => d =? dim
             | None => true
             end)
          (zip (None :: map Some (drop_unit_axis declared))
               (drop_unit_axis x)).

(** The input brought to the rank of the declared one: a last axis of size
    1 too many is squeezed, one that is missing is added. *)
Definition conform (declared x : list Z) : list Z :=
  let ref_rank := S (length declared) in
  if (length x =? S ref_rank)%nat && (List.last x 0 =? 1) then removelast x
  else if (S (length x) =? ref_rank)%nat && (List.last declared 0 =? 1)
  then x ++ [1]
  else x.

(** Calling a model on a concrete batch: the shape of what it returns.  The
    statements below call a model on batches of the declared shape only;
    on other shapes this is [tf.keras] 2 (a later Keras does not compare
    the sequence length). *)
Definition call (m : sequential) (x : list Z) : result (list Z) :=
  x <~ match declared_input m with
       | Some s =>
           if compatible s x then Ok (conform s x)
           else Raise (ValueError "input is incompatible with the model")
       | None => Ok x
       end ;;
  y <~ rfold (fun s l => layer_out l s) (layers m) (map Some x) ;;
  match mapM id y with
  | Some s => Ok s
  | None => Raise (ValueError "undefined dimension")
  end.

(** *** The source function *)

Definition imagenet : weights_arg := PyStr "imagenet".

Definition LRMobileNetV2 (seq_length : Z) (frame_shape : list Z)
    (classes : Z) (weights : weights_arg) (dropout : Q)
  : M world sequential :=
  let model := Sequential [] None in
  base <- MobileNetV2 frame_shape false PoolAvg ;;
  model <- add model (TimeDistributed base (seq_length :: frame_shape)) ;;
  model <- add model (LSTM 1024 true) ;;
  model <- add model (Dropout dropout) ;;
  model <- add model (GRU 512 true) ;;
  model <- add model (Dropout dropout) ;;
  model <- add model (GRU 256 true) ;;
  model <- add model (Dropout dropout) ;;
  model <- add model (GRU 128 false) ;;
  model <- add model (Dropout dropout) ;;
  model <- add model (Dense classes "softmax" "predictions") ;;
  (* Load weights *)
  (if bool_decide (weights <> imagenet)
   then load_weights model weights
   else ret tt) ;;;
  ret model.

End Keras.

(** * Part II: [model.py], the SSD300 detector *)

Module Torch.

(** ** The framework: parameters, modules, constructors *)

Definition shape := list Z.

(** Parameters are objects: a module refers to its parameters by address,
    so that two modules holding the same parameter see each other's
    updates. *)
Definition addr := nat.

(** The contents of a parameter, symbolically: how it was last written.
    Random initialisers are told apart by the number of the draw. *)
Inductive data : Type :=
| KaimingUniform (draw : nat)   (* default weight of a convolution *)
| BiasUniform (draw : nat)      (* default bias of a convolution *)
| Ones                          (* default weight of a batch norm *)
| Zeros                         (* default bias of a batch norm *)
| Checkpoint (index : nat)      (* read from the pretrained checkpoint *)
| XavierUniform (draw : nat)    (* [nn.init.xavier_uniform_] *)
| Assigned (tag : nat).         (* written by anything else, e.g. an optimizer *)

Record parameter : Type := Param {
  p_shape : shape;
  p_data : data
}.

(** [param.dim()] *)
Definition dim (p : parameter) : Z := Z.of_nat (length (p_shape p)).

(** The parameter store: the parameters allocated so far, the next free
    address and the number of random draws made. *)
Record pstore : Type := PStore {
  params : gmap addr parameter;
  next : addr;
  draws : nat
}.

(** [nn.Module] values.  A module keeps its configuration and the addresses
    of its parameters.  [InvertedResidual] is torchvision's block. *)
#[warnings="-register-all"]
Inductive module : Type :=
| Conv2d (in_channels out_channels kernel_size stride padding groups : Z)
         (weight : addr) (bias : option addr)
| BatchNorm2d (num_features : Z) (weight bias : addr)
| ReLU (inplace : bool)
| ReLU6 (inplace : bool)
| Sequential (children : list module)
| InvertedResidual (use_res_connect : bool) (conv : module).

(** [module.parameters()], in registration order. *)
Fixpoint parameters (m : module) : list addr :=
  match m with
  | Conv2d _ _ _ _ _ _ w b => w :: match b with Some b => [b] | None => [] end
  | BatchNorm2d _ w b => [w; b]
  | ReLU _ | ReLU6 _ => []
  | Sequential ms => flat_map parameters ms
  | InvertedResidual _ c => parameters c
  end.

(** [list(module.children())] *)
Definition children (m : module) : list module :=
  match m with
  | Sequential ms => ms
  | InvertedResidual _ c => [c]
  | _ => []
  end.

(** The store after a parameter is allocated at the next free address. *)
Definition push (s : shape) (d : data) (st : pstore) : pstore :=
  PStore (<[next st := Param s d]> (params st)) (S (next st)) (draws st).

(** The store after one random draw. *)
Definition tick (st : pstore) : pstore :=
  PStore (params st) (next st) (S (draws st)).

Definition alloc (s : shape) (d : data) : M pstore addr :=
  fun st => (Ok (next st), push s d st).

Definition draw : M pstore nat :=
  fun st => (Ok (draws st), tick st).

Definition get_param (a : addr) : M pstore parameter :=
  fun st =>
    match params st !! a with
    | Some p => (Ok p, st)
    | None => (Raise (KeyError "no such parameter"), st)
    end.

(** Overwrite the contents of a parameter in place; its shape stays. *)
Definition write (a : addr) (p : parameter) (st : pstore) : pstore :=
  PStore (<[a := p]> (params st)) (next st) (draws st).

Definition set_data (a : addr) (d : data) : M pstore unit :=
  p <- get_param a ;;
  modify (write a (Param (p_shape p) d)).

(** A tensor cannot be created with a negative dimension. *)
Definition new_parameter (s : shape) (d : data) : M pstore addr :=
  if forallb (fun n => 0 <=? n) s then alloc s d
  else raise (RuntimeError "Trying to create tensor with negative dimension").

Module nn.

(** [nn.Conv2d(in_channels, out_channels, kernel_size, stride, padding,
    groups=groups, bias=bias)]; the source leaves [dilation] at 1.  The
    weight has shape (out, in / groups, k, k), the bias (out). *)
Definition Conv2d (in_channels out_channels kernel_size stride padding
    groups : Z) (bias : bool) : M pstore module :=
  if groups <=? 0 then raise (ValueError "groups must be a positive integer")
  else if negb (in_channels mod groups =? 0)
  then raise (ValueError "in_channels must be divisible by groups")
  else if negb (out_channels mod groups =? 0)
  then raise (ValueError "out_channels must be divisible by groups")
  else
    n <- draw ;;
    w <- new_parameter
           [out_channels; in_channels / groups; kernel_size; kernel_size]
           (KaimingUniform n) ;;
    b <- (if bias
          then n <- draw ;;
               b <- new_parameter [out_channels] (BiasUniform n) ;;
               ret (Some b)
          else ret None) ;;
    ret (Torch.Conv2d in_channels out_channels kernel_size stride padding
           groups w b).

(** [nn.BatchNorm2d(num_features)]: the running statistics are buffers,
    not parameters, and are left out. *)
Definition BatchNorm2d (num_features : Z) : M pstore module :=
  w <- new_parameter [num_features] Ones ;;
  b <- new_parameter [num_features] Zeros ;;
  ret (Torch.BatchNorm2d num_features w b).

Definition ReLU (inplace : bool) : M pstore module := ret (Torch.ReLU inplace).
Definition ReLU6 (inplace : bool) : M pstore module := ret (Torch.ReLU6 inplace).

(** Evaluate the argument expressions of a call from left to right. *)
Fixpoint sequence {S A} (cs : list (M S A)) : M S (list A) :=
  match cs with
  | [] => ret []
  | c :: cs' => a <- c ;; l <- sequence cs' ;; ret (a :: l)
  end.

(** [nn.Sequential(m1, ..., mk)], the arguments built in order. *)
Definition Sequential (cs : list (M pstore module)) : M pstore module :=
  ms <- sequence cs ;; ret (Torch.Sequential ms).

End nn.

(** ** torchvision's MobileNetV2, as far as the source uses it *)

Module torchvision.

(** [ConvBNReLU(in_planes, out_planes, kernel_size, stride, groups)] *)
Definition ConvBNReLU (in_planes out_planes kernel_size stride groups : Z)
  : M pstore module :=
  let padding := (kernel_size - 1) / 2 in
  nn.Sequential
    [ nn.Conv2d in_planes out_planes kernel_size stride padding groups false;
      nn.BatchNorm2d out_planes;
      nn.ReLU6 true ].

(** [InvertedResidual(inp, oup, stride, expand_ratio)] *)
Definition InvertedResidual (inp oup stride expand_ratio : Z)
  : M pstore module :=
  let hidden_dim := inp * expand_ratio in
  let use_res_connect := (stride =? 1) && (inp =? oup) in
  conv <- nn.Sequential
    ((if expand_ratio =? 1 then []
      else [ConvBNReLU inp hidden_dim 1 1 1]) ++
     [ ConvBNReLU hidden_dim hidden_dim 3 stride hidden_dim;
       nn.Conv2d hidden_dim oup 1 1 0 1 false;
       nn.BatchNorm2d oup ]) ;;
  ret (Torch.InvertedResidual use_res_connect conv).

(** The rows (t, c, n, s) of the network: expansion, output channels,
    repetitions, stride of the first repetition. *)
Definition inverted_residual_setting : list (Z * Z * Z * Z) :=
  [ (1, 16, 1, 1); (6, 24, 2, 2); (6, 32, 3, 2); (6, 64, 4, 2);
    (6, 96, 3, 1); (6, 160, 3, 2); (6, 320, 1, 1) ].

(** The inner loop [for i in range(n)] of one row. *)
Fixpoint stage (t c s : Z) (n : nat) (first : bool) (input_channel : Z)
  : M pstore (list module) :=
  match n with
  | O => ret []
  | S n' =>
      b <- InvertedResidual input_channel c (if first then s else 1) t ;;
      bs <- stage t c s n' false c ;;
      ret (b :: bs)
  end.

(** The outer loop over the rows; returns the blocks and the channel count
    reached. *)
Fixpoint stages (rows : list (Z * Z * Z * Z)) (input_channel : Z)
  : M pstore (list module * Z) :=
  match rows with
  | [] => ret ([], input_channel)
  | (t, c, n, s) :: rows' =>
      bs <- stage t c s (Z.to_nat n) true input_channel ;;
      r <- stages rows' (if 0 <? n then c else input_channel) ;;
      ret (bs ++ fst r, snd r)
  end.

(** [load_state_dict] of the pretrained checkpoint: every parameter is
    overwritten, in order. *)
Fixpoint load_state_dict (i : nat) (ps : list addr) : M pstore unit :=
  match ps with
  | [] => ret tt
  | a :: ps' => set_data a (Checkpoint i) ;;; load_state_dict (S i) ps'
  end.

(** [mobilenet_v2(pretrained=...)], returning [backbone.features].  The
    classifier head of the network is built by torchvision and never kept
    by the source; it is left out.  The download of the checkpoint is taken
    to succeed. *)
Definition mobilenet_v2 (pretrained : bool) : M pstore module :=
  first <- ConvBNReLU 3 32 3 2 1 ;;
  r <- stages inverted_residual_setting 32 ;;
  last <- ConvBNReLU (snd r) 1280 1 1 1 ;;
  let features := Torch.Sequential ([first] ++ fst r ++ [last]) in
  (if pretrained then load_state_dict 0 (parameters features) else ret tt) ;;;
  ret features.

End torchvision.

(** ** What the framework computes

    The source's [forward] methods are written against four framework
    operations: calling a module, [Tensor.shape], [Tensor.view] and
    [torch.cat] (and [contiguous]).  They are an interface here, so that
    statements about which operations are applied hold for every tensor
    semantics; the shape semantics below is the instance the shape contracts
    are proved for.  A module is called with the parameter store and with
    the [training] flag of the object it belongs to. *)
Class Framework (T : Type) : Type := {
  call : gmap addr parameter -> bool -> module -> T -> result T;
  size : T -> list Z;
  view : T -> list Z -> result T;
  cat : list T -> Z -> result T;
  contiguous : T -> T
}.

(** *** The shape semantics *)

(** One spatial axis of a convolution with dilation 1. *)
Definition conv_out (n k stride padding : Z) : result Z :=
  if stride <=? 0 then Raise (RuntimeError "non-positive stride is not supported")
  else if n + 2 * padding <? k
  then Raise (RuntimeError "Kernel size can't be greater than actual input size")
  else Ok ((n + 2 * padding - k) / stride + 1).

Definition conv2d_shape (cin cout k stride padding : Z) (x : shape)
  : result shape :=
  match x with
  | [n; c; h; w] =>
      if negb (c =? cin) then Raise (ChannelMismatch cin c)
      else
        h' <~ conv_out h k stride padding ;;
        w' <~ conv_out w k stride padding ;;
        Ok [n; cout; h'; w']
  | _ => Raise (RuntimeError "Expected 4D input to conv2d")
  end.

(** Batch norm in training mode needs more than one value per channel; the
    check comes before the channel check. *)
Definition batch_norm2d_shape (training : bool) (num_features : Z) (x : shape)
  : result shape :=
  match x with
  | [n; c; h; w] =>
      if training && (n * (h * w) =? 1)
      then Raise (ValueError "Expected more than 1 value per channel when training")
      else if negb (c =? num_features)
      then Raise (ChannelMismatch num_features c)
      else Ok x
  | _ => Raise (ValueError "expected 4D input")
  end.

(** [x + y] on tensors; the source only adds tensors of one shape
    (broadcasting is not modelled). *)
Definition add_shape (x y : shape) : result shape :=
  if bool_decide (x = y) then Ok x
  else Raise (RuntimeError "The size of tensor a must match the size of tensor b").

Fixpoint shape_call (training : bool) (m : module) (x : shape) : result shape :=
  match m with
  | Conv2d cin cout k stride padding _ _ _ =>
      conv2d_shape cin cout k stride padding x
  | BatchNorm2d c _ _ => batch_norm2d_shape training c x
  | ReLU _ | ReLU6 _ => Ok x
  | Sequential ms => rfold (fun y m' => shape_call training m' y) ms x
  | InvertedResidual use_res_connect conv =>
      y <~ shape_call training conv x ;;
      if use_res_connect then add_shape x y else Ok y
  end.

(** [x.view(s)]: at most one entry of [s] is -1 and is inferred. *)
Definition shape_view (x : shape) (s : list Z) : result shape :=
  let numel := prodZ x in
  let known := prodZ (filter (fun d => d <> -1) s) in
  if existsb (fun d => d <? -1) s
  then Raise (RuntimeError "invalid shape dimension")
  else
    match length (filter (fun d => d = -1) s) with
    | O => if prodZ s =? numel then Ok s
           else Raise (RuntimeError "shape is invalid for input of this size")
    | 1%nat =>
        if known =? 0
        then Raise (RuntimeError "the unspecified dimension cannot be inferred")
        else if numel mod known =? 0
        then Ok (map (fun d => if d =? -1 then numel / known else d) s)
        else Raise (RuntimeError "shape is invalid for input of this size")
    | _ => Raise (RuntimeError "only one dimension can be inferred")
    end.

(** [torch.cat(xs, d)]: the shapes agree except along [d], where they add
    up. *)
Definition shape_cat (xs : list shape) (d : Z) : result shape :=
  match xs with
  | [] => Raise (RuntimeError "torch.cat(): expected a non-empty list of Tensors")
  | x :: _ =>
      let rank := Z.of_nat (length x) in
      let d' := if d <? 0 then d + rank else d in
      if (d' <? 0) || (rank <=? d')
      then Raise (RuntimeError "Dimension out of range")
      else
        let i := Z.to_nat d' in
        if forallb (fun y => bool_decide (<[i := 0]> y = <[i := 0]> x)) xs
        then Ok (<[i := fold_right Z.add 0 (map (fun y => nth i y 0) xs)]> x)
        else Raise (RuntimeError "Sizes of tensors must match except in the cat dimension")
  end.

#[global] Instance ShapeSemantics : Framework shape := {
  call := fun _ training m x => shape_call training m x;
  size := fun x => x;
  view := shape_view;
  cat := shape_cat;
  contiguous := fun x => x
}.

(** *** The traced semantics

    A tensor that remembers how it was computed: the shape semantics, with
    the expression that produced the tensor kept beside its shape.  It
    tells apart what shapes alone cannot, such as the order of the tensors
    that [torch.cat] joins. *)
#[warnings="-register-all"]
Inductive expr : Type :=
| Input (k : nat)
| Apply (m : module) (x : expr)
| View (x : expr) (s : list Z)
| Cat (xs : list expr) (d : Z)
| Contiguous (x : expr).

Record traced : Type := Traced { origin : expr; shape_of : shape }.

#[global] Instance TracedSemantics : Framework traced := {
  call := fun _ training m x =>
    y <~ shape_call training m (shape_of x) ;;
    Ok (Traced (Apply m (origin x)) y);
  size := shape_of;
  view := fun x s =>
    y <~ shape_view (shape_of x) s ;;
    Ok (Traced (View (origin x) s) y);
  cat := fun xs d =>
    y <~ shape_cat (map shape_of xs) d ;;
    Ok (Traced (Cat (map origin xs) d) y);
  contiguous := fun x => Traced (Contiguous (origin x)) (shape_of x)
}.

(** A call argument that may be left out. *)
Inductive arg (A : Type) : Type :=
| Default
| Given (a : A).
Arguments Default {A}.
Arguments Given {A} a.

Definition arg_or {A} (a : arg A) (d : A) : A :=
  match a with Default => d | Given x => x end.

(** ** class SSDMobileNetV2FeatureExtractor *)

Module SSDMobileNetV2FeatureExtractor.

(** The attributes of an instance; [training] is the flag every
    [nn.Module] has (set by [nn.Module.__init__]). *)
Record t : Type := Make {
  training : bool;
  is_training : bool;
  num_layers : Z;
  feature_extractor : module;
  out_channels : list Z
}.

Definition __init__ (is_training : arg bool) (num_layers : arg Z)
  : M pstore t :=
  let is_training := arg_or is_training false in
  let num_layers := arg_or num_layers 6 in
  backbone <- torchvision.mobilenet_v2 true ;;
  (* The output of feature_extractor should have shape of (N, x, 38, 38) *)
  let feature_extractor := Sequential (take 7 (children backbone)) in
  ret (Make true is_training num_layers feature_extractor
         [32; 512; 512; 256; 256; 256]).

Definition forward {T} `{Framework T} (theta : gmap addr parameter)
    (self : t) (x : T) : result T :=
  call theta (training self) (feature_extractor self) x.

End SSDMobileNetV2FeatureExtractor.

(** ** The heap: the parameter store and the feature-extractor objects

    Feature extractors are objects with an identity, since one extractor
    can be the backbone of several detectors. *)
Record heap : Type := Heap {
  store : pstore;
  objs : gmap addr SSDMobileNetV2FeatureExtractor.t;
  next_obj : addr
}.

(** Run a computation on the parameter store inside the heap. *)
Definition on_store {A} (c : M pstore A) : M heap A :=
  fun h =>
    let (r, st) := c (store h) in
    (r, Heap st (objs h) (next_obj h)).

Definition new_object (e : SSDMobileNetV2FeatureExtractor.t) : M heap addr :=
  fun h =>
    (Ok (next_obj h),
     Heap (store h) (<[next_obj h := e]> (objs h)) (S (next_obj h))).

Definition get_object (a : addr) : M heap SSDMobileNetV2FeatureExtractor.t :=
  fun h =>
    match objs h !! a with
    | Some e => (Ok e, h)
    | None => (Raise (KeyError "no such object"), h)
    end.

Definition read_object (h : heap) (a : addr)
  : result SSDMobileNetV2FeatureExtractor.t :=
  match objs h !! a with
  | Some e => Ok e
  | None => Raise (KeyError "no such object")
  end.

(** The expression [SSDMobileNetV2FeatureExtractor(...)]: a new object,
    initialised. *)
Definition new_SSDMobileNetV2FeatureExtractor (is_training : arg bool)
    (num_layers : arg Z) : M heap addr :=
  e <- on_store (SSDMobileNetV2FeatureExtractor.__init__ is_training num_layers) ;;
  new_object e.

Definition set_object (a : addr) (e : SSDMobileNetV2FeatureExtractor.t)
  : M heap unit :=
  modify (fun h => Heap (store h) (<[a := e]> (objs h)) (next_obj h)).

(** ** class SSD300 *)

Module SSD300.

Record t : Type := Make {
  training : bool;
  input_shape : list Z;
  num_classes : Z;
  feature_extractor : addr;
  feature_blocks : list module;
  num_defaults : list Z;
  loc : list module;
  conf : list module
}.

(** The class object.  The default value of [backbone] is an expression in
    the signature of [__init__]: Python evaluates it when the [def] is
    executed, once, and keeps the object. *)
Record class : Type := Class {
  default_backbone : addr
}.

Definition class_def : M heap class :=
  backbone <- new_SSDMobileNetV2FeatureExtractor Default Default ;;
  ret (Class backbone).

(** One extra feature block of [_build_feature_layers]. *)
Definition feature_block (i input_size output_size channels : Z)
  : M pstore module :=
  if i <? 3 then
    nn.Sequential
      [ nn.Conv2d input_size channels 1 1 0 1 false;
        nn.BatchNorm2d channels;
        nn.ReLU true;
        nn.Conv2d channels output_size 3 2 1 1 false;
        nn.BatchNorm2d output_size;
        nn.ReLU true ]
  else
    nn.Sequential
      [ nn.Conv2d input_size channels 1 1 0 1 false;
        nn.BatchNorm2d channels;
        nn.ReLU true;
        nn.Conv2d channels output_size 3 1 0 1 false;
        nn.BatchNorm2d output_size;
        nn.ReLU true ].

(** [self._build_feature_layers(input_size)]; the value of
    [self.feature_blocks] is returned. *)
Definition _build_feature_layers (input_size : list Z)
  : M pstore (list module) :=
  foldM
    (fun feature_blocks '(i, (input_size, output_size, channels)) =>
       layer <- feature_block i input_size output_size channels ;;
       ret (feature_blocks ++ [layer]))
    (enumerate (zip3 (removelast input_size) (tail input_size)
                  [256; 256; 128; 128; 128]))
    [].

(** [nn.init._calculate_fan_in_and_fan_out(tensor)], on the shape of the
    tensor. *)
Definition _calculate_fan_in_and_fan_out (s : shape) : result (Z * Z) :=
  match s with
  | num_output_fmaps :: num_input_fmaps :: rest =>
      let receptive_field_size := prodZ rest in
      Ok (num_input_fmaps * receptive_field_size,
          num_output_fmaps * receptive_field_size)
  | _ =>
      Raise (ValueError
               "Fan in and fan out can not be computed for tensor with fewer than 2 dimensions")
  end.

(** [nn.init.xavier_uniform_(param)].  The bound of the draw is
    [sqrt(2.0 / float(fan_in + fan_out))] up to a factor: the division
    fails when the two fans add up to 0. *)
Definition xavier_uniform_ (param : addr) : M pstore unit :=
  p <- get_param param ;;
  fans <- lift_result (_calculate_fan_in_and_fan_out (p_shape p)) ;;
  if fst fans + snd fans =? 0
  then raise (ZeroDivisionError "float division by zero")
  else n <- draw ;; set_data param (XavierUniform n).

Definition _init_weights (self : t) : M pstore unit :=
  let layers := feature_blocks self ++ loc self ++ conf self in
  foldM
    (fun _ layer =>
       foldM
         (fun _ param =>
            p <- get_param param ;;
            if 1 <? dim p then xavier_uniform_ param else ret tt)
         (parameters layer) tt)
    layers tt.

(** The loop that builds the two prediction heads of every scale. *)
Definition build_heads (num_defaults out_channels : list Z) (num_classes : Z)
  : M pstore (list module * list module) :=
  foldM
    (fun '(loc, conf) '(nd, oc) =>
       l <- nn.Conv2d oc (nd * 4) 3 1 1 1 true ;;
       c <- nn.Conv2d oc (nd * num_classes) 3 1 1 1 true ;;
       ret (loc ++ [l], conf ++ [c]))
    (zip num_defaults out_channels)
    ([], []).

(** [SSD300(backbone, num_classes, weights)].  [weights] is accepted and
    never used. *)
Definition __init__ (cls : class) (backbone : arg addr) (num_classes : arg Z)
    (weights : arg (option string)) : M heap t :=
  let backbone := arg_or backbone (default_backbone cls) in
  let num_classes := arg_or num_classes 81 in
  let input_shape := [3; 300; 300] in
  let feature_extractor := backbone in
  fe <- get_object feature_extractor ;;
  feature_blocks <- on_store
    (_build_feature_layers (SSDMobileNetV2FeatureExtractor.out_channels fe)) ;;
  let num_defaults := [4; 6; 6; 6; 4; 4] in
  fe <- get_object feature_extractor ;;
  heads <- on_store
    (build_heads num_defaults
       (SSDMobileNetV2FeatureExtractor.out_channels fe) num_classes) ;;
  let self := Make true input_shape num_classes feature_extractor
                feature_blocks num_defaults (fst heads) (snd heads) in
  on_store (_init_weights self) ;;;
  ret self.

(** [s.shape[0]] *)
Definition shape0 {T} `{Framework T} (s : T) : result Z :=
  match size s with
  | n :: _ => Ok n
  | [] => Raise (RuntimeError "tuple index out of range")
  end.

Definition bbox_view {T} `{Framework T} (theta : gmap addr parameter)
    (self : t) (src : list T) (loc conf : list module) : result (T * T) :=
  ret <~ rmap
    (fun '(s, l, c) =>
       ls <~ call theta (training self) l s ;;
       n <~ shape0 s ;;
       lv <~ view ls [n; 4; -1] ;;
       cs <~ call theta (training self) c s ;;
       n <~ shape0 s ;;
       cv <~ view cs [n; num_classes self; -1] ;;
       Ok (lv, cv))
    (zip3 src loc conf) ;;
  match ret with
  | [] => Raise (ValueError "not enough values to unpack (expected 2, got 0)")
  | _ =>
      locs <~ cat (map fst ret) 2 ;;
      confs <~ cat (map snd ret) 2 ;;
      Ok (contiguous locs, contiguous confs)
  end.

(** The first half of [forward]: the feature maps handed to [bbox_view]. *)
Definition detection_feed {T} `{Framework T} (h : heap) (self : t) (x : T)
  : result (list T) :=
  fe <~ read_object h (feature_extractor self) ;;
  x <~ SSDMobileNetV2FeatureExtractor.forward (params (store h)) fe x ;;
  r <~ rfold
    (fun '(x, detection_feed) layer =>
       x <~ call (params (store h)) (training self) layer x ;;
       Ok (x, detection_feed ++ [x]))
    (feature_blocks self) (x, [x]) ;;
  Ok (snd r).

Definition forward {T} `{Framework T} (h : heap) (self : t) (x : T)
  : result (T * T) :=
  detection_feed <~ detection_feed h self x ;;
  (* Feature Map 38x38x4, 19x19x6, 10x10x6, 5x5x6, 3x3x4, 1x1x4 *)
  bbox_view (params (store h)) self detection_feed (loc self) (conf self).

(** [nn.Module.train(mode)]: the flag of the module and of its children;
    the backbone is a child and is an object of the heap. *)
Definition train (mode : bool) (self : t) : M heap t :=
  fe <- get_object (feature_extractor self) ;;
  set_object (feature_extractor self)
    (SSDMobileNetV2FeatureExtractor.Make mode
       (SSDMobileNetV2FeatureExtractor.is_training fe)
       (SSDMobileNetV2FeatureExtractor.num_layers fe)
       (SSDMobileNetV2FeatureExtractor.feature_extractor fe)
       (SSDMobileNetV2FeatureExtractor.out_channels fe)) ;;;
  ret (Make mode (input_shape self) (num_classes self)
         (feature_extractor self) (feature_blocks self) (num_defaults self)
         (loc self) (conf self)).

(** [model.eval()] *)
Definition eval (self : t) : M heap t := train false self.

End SSD300.

(** The interpreter before the module is imported. *)
Definition empty_store : pstore := PStore ∅ 0%nat 0%nat.
Definition empty_heap : heap := Heap empty_store ∅ 0%nat.

End Torch.

(** * Vocabulary of the statements *)

Section Vocabulary.
Import Torch.

(** The architecture of a module: the module with its parameter addresses
    erased.  Two modules of one architecture differ only in where their
    parameters live. *)
Fixpoint arch (m : module) : module :=
  match m with
  | Conv2d cin cout k s p g _ b =>
      Conv2d cin cout k s p g 0%nat
        (match b with Some _ => Some 0%nat | None => None end)
  | BatchNorm2d c _ _ => BatchNorm2d c 0%nat 0%nat
  | ReLU i => ReLU i
  | ReLU6 i => ReLU6 i
  | Sequential ms => Sequential (map arch ms)
  | InvertedResidual r c => InvertedResidual r (arch c)
  end.

(** The shape each parameter of a module has by the module's
    configuration, in the order of [parameters]. *)
Fixpoint param_shapes (m : module) : list (addr * shape) :=
  match m with
  | Conv2d cin cout k _ _ g w b =>
      (w, [cout; cin / g; k; k]) ::
      match b with Some b => [(b, [cout])] | None => [] end
  | BatchNorm2d c w b => [(w, [c]); (b, [c])]
  | ReLU _ | ReLU6 _ => []
  | Sequential ms => flat_map param_shapes ms
  | InvertedResidual _ c => param_shapes c
  end.

(** [st'] is [st] after more allocations: what was allocated is
    untouched. *)
Definition extends (st st' : pstore) : Prop :=
  (next st <= next st')%nat /\
  forall a, (a < next st)%nat -> params st' !! a = params st !! a.

(** Every parameter of [m] was allocated between [st] and [st']. *)
Definition fresh (st st' : pstore) (m : module) : Prop :=
  Forall (fun a => (next st <= a < next st')%nat) (parameters m).

(** Every parameter of [m] is in the store, with the shape its module
    gives it. *)
Definition stored (st : pstore) (m : module) : Prop :=
  Forall (fun '(a, s) => exists d, params st !! a = Some (Param s d))
         (param_shapes m).

(** What a module constructor achieves: from [st] it returns [m] of
    architecture [spec] and leaves [st'], in which the parameters of [m]
    are new and stored. *)
Definition built (spec : module) (st : pstore) (m : module) (st' : pstore)
  : Prop :=
  arch m = spec /\ extends st st' /\ fresh st st' m /\ stored st' m.

(** A constructor that returns from every store. *)
Definition constructs (c : M pstore module) (spec : module) : Prop :=
  forall st, exists m st', c st = (Ok m, st') /\ built spec st m st'.

(** The same for a computation that returns a list of modules. *)
Definition constructs_list (c : M pstore (list module)) (specs : list module)
  : Prop :=
  forall st, exists ms st',
    c st = (Ok ms, st') /\ built (Sequential specs) st (Sequential ms) st'.

(** The architecture of [mobilenet_v2().features] and of its first seven
    children, which the feature extractor keeps. *)
Definition mobilenet_arch : module :=
  Eval vm_compute in
    match torchvision.mobilenet_v2 true empty_store with
    | (Ok m, _) => arch m
    | (Raise _, _) => Sequential []
    end.

Definition backbone_arch : module :=
  Eval vm_compute in Sequential (take 7 (children mobilenet_arch)).

(** One extra feature block, as the claims describe it: a 1x1 convolution
    to [channels], batch norm, ReLU, then a 3x3 convolution to
    [output_size] (stride 2 and padding 1 for the first three blocks,
    stride 1 and no padding for the others), batch norm, ReLU. *)
Definition block_arch (i input_size output_size channels : Z) : module :=
  Sequential
    [ Conv2d input_size channels 1 1 0 1 0%nat None;
      BatchNorm2d channels 0%nat 0%nat;
      ReLU true;
      Conv2d channels output_size 3
        (if i <? 3 then 2 else 1) (if i <? 3 then 1 else 0) 1 0%nat None;
      BatchNorm2d output_size 0%nat 0%nat;
      ReLU true ].

(** The extra feature blocks for a list of channel counts: block i goes
    from entry i to entry i+1, and there are at most five. *)
Definition blocks_arch (out_channels : list Z) : list module :=
  map (fun '(i, (input_size, output_size, channels)) =>
         block_arch i input_size output_size channels)
      (enumerate (zip3 (removelast out_channels) (tail out_channels)
                    [256; 256; 128; 128; 128])).

(** The prediction heads: one 3x3 convolution with padding 1 per scale,
    with [nd * k] output channels. *)
Definition head_arch (k : Z) (nd_oc : Z * Z) : module :=
  Conv2d (snd nd_oc) (fst nd_oc * k) 3 1 1 1 0%nat (Some 0%nat).

Definition heads_arch (k : Z) (num_defaults out_channels : list Z)
  : list module :=
  map (head_arch k) (zip num_defaults out_channels).

(** The parameters [_init_weights] walks over. *)
Definition touched (self : SSD300.t) : list addr :=
  flat_map parameters
    (SSD300.feature_blocks self ++ SSD300.loc self ++ SSD300.conf self).

(** The effect of Xavier initialisation over the addresses [ps]: a stored
    parameter among [ps] with more than one dimension holds a fresh Xavier
    draw, of its old shape; every other address is as it was. *)
Definition xavier_applied (ps : list addr) (st st' : pstore) : Prop :=
  next st' = next st /\
  forall a,
    match params st !! a with
    | Some p =>
        if bool_decide (a ∈ ps) && (1 <? dim p)
        then exists n, params st' !! a = Some (Param (p_shape p) (XavierUniform n))
        else params st' !! a = Some p
    | None => params st' !! a = None
    end.

(** The sum of the two fans of a shape, which [xavier_uniform_] divides
    by (0 for a shape that has no fans). *)
Definition fan_sum (s : shape) : Z :=
  match SSD300._calculate_fan_in_and_fan_out s with
  | Ok fans => fst fans + snd fans
  | Raise _ => 0
  end.

(** A stored parameter that [_init_weights] can handle: with more than one
    dimension, its fans do not add up to 0. *)
Definition initialisable (st : pstore) (a : addr) : Prop :=
  exists p, params st !! a = Some p /\ (1 < dim p -> fan_sum (p_shape p) <> 0).

(** A module all of whose parameters of more than one dimension have fans
    that do not add up to 0. *)
Definition xavier_ready (m : module) : Prop :=
  Forall (fun s => 1 < Z.of_nat (length s) -> fan_sum s <> 0)
         (map snd (param_shapes m)).

(** A feature-extractor object as the class builds it: the kept part of
    MobileNetV2 and the six channel counts. *)
Definition is_backbone (e : SSDMobileNetV2FeatureExtractor.t) : Prop :=
  arch (SSDMobileNetV2FeatureExtractor.feature_extractor e) = backbone_arch /\
  SSDMobileNetV2FeatureExtractor.out_channels e = [32; 512; 512; 256; 256; 256].

(** The six scales of SSD300: default boxes per location and channels,
    height and width of the feature map. *)
Definition ssd_scales : list (Z * Z * (Z * Z)) :=
  [ ((4, 32), (38, 38)); ((6, 512), (19, 19)); ((6, 512), (10, 10));
    ((6, 256), (5, 5)); ((4, 256), (3, 3)); ((4, 256), (1, 1)) ].

(** The scales of the detector with other spatial sizes. *)
Definition resized (sizes : list (Z * Z)) : list (Z * Z * (Z * Z)) :=
  zip (map fst ssd_scales) sizes.

(** The feature maps of a batch of [n] images at a list of scales. *)
Definition scale_feed (n : Z) (scales : list (Z * Z * (Z * Z))) : list shape :=
  map (fun '((_, oc), (h, w)) => [n; oc; h; w]) scales.

(** The number of default boxes of a list of scales: the sum of
    [nd * H * W]. *)
Definition num_boxes (scales : list (Z * Z * (Z * Z))) : Z :=
  fold_right Z.add 0 (map (fun '((nd, _), (h, w)) => nd * (h * w)) scales).

(** A detector of the standard architecture in a heap: its backbone is a
    standard feature extractor, and its extra blocks and heads have the
    architectures the six channel counts give. *)
Definition ssd_model (h : heap) (self : SSD300.t) : Prop :=
  exists e,
    objs h !! SSD300.feature_extractor self = Some e /\
    is_backbone e /\
    map arch (SSD300.feature_blocks self) =
      blocks_arch [32; 512; 512; 256; 256; 256] /\
    map arch (SSD300.loc self) =
      heads_arch 4 [4; 6; 6; 6; 4; 4] [32; 512; 512; 256; 256; 256] /\
    map arch (SSD300.conf self) =
      heads_arch (SSD300.num_classes self) [4; 6; 6; 6; 4; 4]
        [32; 512; 512; 256; 256; 256].

(** The heap once the module is imported into a fresh interpreter, and the
    class object. *)
Definition imported : result SSD300.class * heap := SSD300.class_def empty_heap.

Definition imported_class : SSD300.class := SSD300.Class 0%nat.
Definition imported_heap : heap := snd imported.

(** The weights of the convolutions of a module, and its one-dimensional
    parameters: the biases of its convolutions and the weights and biases
    of its batch norms. *)
Fixpoint conv_weights (m : module) : list addr :=
  match m with
  | Conv2d _ _ _ _ _ _ w _ => [w]
  | BatchNorm2d _ _ _ | ReLU _ | ReLU6 _ => []
  | Sequential ms => flat_map conv_weights ms
  | InvertedResidual _ c => conv_weights c
  end.

Fixpoint small_params (m : module) : list addr :=
  match m with
  | Conv2d _ _ _ _ _ _ _ b => match b with Some b => [b] | None => [] end
  | BatchNorm2d _ w b => [w; b]
  | ReLU _ | ReLU6 _ => []
  | Sequential ms => flat_map small_params ms
  | InvertedResidual _ c => small_params c
  end.

(** Reading the parameters of the backbone through a detector. *)
Definition backbone_parameters (h : heap) (self : SSD300.t)
  : result (list (option parameter)) :=
  e <~ read_object h (SSD300.feature_extractor self) ;;
  Ok (map (fun a => params (store h) !! a)
          (parameters (SSDMobileNetV2FeatureExtractor.feature_extractor e))).

(** An update of the [i]-th parameter of the backbone, through a detector
    (what an optimizer step on [self.feature_extractor.parameters()]
    does). *)
Definition update_backbone (self : SSD300.t) (i : nat) (d : data)
  : M heap unit :=
  e <- get_object (SSD300.feature_extractor self) ;;
  match parameters (SSDMobileNetV2FeatureExtractor.feature_extractor e) !! i with
  | Some a => on_store (set_data a d)
  | None => raise (RuntimeError "index out of range")
  end.

(** Two feature extractors that differ at most in [is_training] and
    [num_layers]. *)
Definition same_but_flags (e1 e2 : SSDMobileNetV2FeatureExtractor.t) : Prop :=
  SSDMobileNetV2FeatureExtractor.training e1 =
    SSDMobileNetV2FeatureExtractor.training e2 /\
  SSDMobileNetV2FeatureExtractor.feature_extractor e1 =
    SSDMobileNetV2FeatureExtractor.feature_extractor e2 /\
  SSDMobileNetV2FeatureExtractor.out_channels e1 =
    SSDMobileNetV2FeatureExtractor.out_channels e2.

(** Two heaps that differ at most in the [is_training] and [num_layers]
    of their feature extractors. *)
Definition heap_sim (h1 h2 : heap) : Prop :=
  store h1 = store h2 /\
  next_obj h1 = next_obj h2 /\
  forall a,
    match objs h1 !! a, objs h2 !! a with
    | Some e1, Some e2 => same_but_flags e1 e2
    | None, None => True
    | _, _ => False
    end.

(** Two outcomes that agree: the same exception, or related values. *)
Definition result_rel {A} (R : A -> A -> Prop) (r1 r2 : result A) : Prop :=
  match r1, r2 with
  | Ok a1, Ok a2 => R a1 a2
  | Raise e1, Raise e2 => e1 = e2
  | _, _ => False
  end.

(** Two computations that cannot tell such heaps apart. *)
Definition sim {A} (R : A -> A -> Prop) (c1 c2 : M heap A) : Prop :=
  forall h1 h2, heap_sim h1 h2 ->
    result_rel R (fst (c1 h1)) (fst (c2 h2)) /\
    heap_sim (snd (c1 h1)) (snd (c2 h2)).

(** Channel typing: the number of channels a module produces when it is
    handed [c] channels, or [None] when one of its layers expects another
    count. *)
Fixpoint channels (m : module) (c : Z) : option Z :=
  match m with
  | Conv2d cin cout _ _ _ _ _ _ => if c =? cin then Some cout else None
  | BatchNorm2d c' _ _ => if c =? c' then Some c else None
  | ReLU _ | ReLU6 _ => Some c
  | Sequential ms =>
      (fix chain (l : list module) (c : Z) : option Z :=
         match l with
         | [] => Some c
         | m' :: l' =>
             match channels m' c with
             | Some c' => chain l' c'
             | None => None
             end
         end) ms c
  | InvertedResidual r conv =>
      match channels conv c with
      | Some c' => if r then (if c' =? c then Some c' else None) else Some c'
      | None => None
      end
  end.

(** A list of blocks chained along a list of channel counts: block i
    takes count i to count i+1. *)
Fixpoint chain_typed (ocs : list Z) (blocks : list module) : Prop :=
  match blocks, ocs with
  | [], _ => True
  | blk :: blocks', a :: (b :: _) as ocs' =>
      channels blk a = Some b /\ chain_typed ocs' blocks'
  | _ :: _, _ => False
  end.

(** One scale of [bbox_view] whose two heads accept the channel count of
    the feature map. *)
Definition scale_ok (x : shape * module * module) : Prop :=
  let '(s, l, c) := x in
  exists n ch hh ww,
    s = [n; ch; hh; ww] /\ is_Some (channels l ch) /\ is_Some (channels c ch).

(** An outcome that is not a channel mismatch. *)
Definition no_mismatch {A} (r : result A) : Prop :=
  forall a b, r <> Raise (ChannelMismatch a b).

(** The arguments of one extra feature block are channel counts. *)
Definition block_args_ok (x : Z * (Z * Z * Z)) : Prop :=
  let '(_, (a, b, c)) := x in 0 <= a /\ 0 <= b /\ 0 <= c.

(** The rows of the MobileNetV2 table are well formed. *)
Definition row_ok (row : Z * Z * Z * Z) : Prop :=
  let '(t, c, n, s) := row in 0 < t /\ 0 < c.

(** Rounded-up halving: the size a 3x3 convolution of stride 2 and
    padding 1 leaves of a size [s]. *)
Definition half (s : Z) : Z := (s + 1) / 2.

(** The sizes, along one axis, of the six feature maps of the detector on
    an image of size [s] along that axis: the backbone halves three times,
    the first three extra blocks halve once each, the last two take 2
    off. *)
Definition feature_sizes (s : Z) : list Z :=
  let s0 := half (half (half s)) in
  let s3 := half (half (half s0)) in
  [s0; half s0; half (half s0); s3; s3 - 2; s3 - 2 - 2].

(** The six scales of the detector on images of height [h] and width
    [w]. *)
Definition feature_scales (h w : Z) : list (Z * Z * (Z * Z)) :=
  resized (zip (feature_sizes h) (feature_sizes w)).

(** A detector whose own layers and whose backbone are in evaluation
    mode. *)
Definition eval_mode (h : heap) (self : SSD300.t) : Prop :=
  SSD300.training self = false /\
  forall e, objs h !! SSD300.feature_extractor self = Some e ->
            SSDMobileNetV2FeatureExtractor.training e = false.

(** Contents read from the pretrained checkpoint. *)
Definition is_checkpoint (d : data) : bool :=
  match d with Checkpoint _ => true | _ => false end.

(** A parameter that holds checkpoint data. *)
Definition from_checkpoint (st : pstore) (a : addr) : Prop :=
  exists s i, params st !! a = Some (Param s (Checkpoint i)).

(** Between [st] and [st'] no checkpoint was loaded: a parameter of [st']
    is as it was in [st], or holds something else than checkpoint data. *)
Definition no_checkpoint_loaded (st st' : pstore) : Prop :=
  forall a p, params st' !! a = Some p ->
    params st !! a = Some p \/ is_checkpoint (p_data p) = false.

(** A computation all of whose runs, returning or raising, keep a relation
    between a component of the state before and after. *)
Definition preserves {S X A} (proj : S -> X) (R : X -> X -> Prop)
    (c : M S A) : Prop :=
  forall s, R (proj s) (proj (snd (c s))).

(** A computation on the parameter store that loads no checkpoint. *)
Definition loads_nothing {A} (c : M pstore A) : Prop :=
  preserves (fun st => st) no_checkpoint_loaded c.

(** A heap that holds one hand-made backbone, at address 0: no layers, and
    the given channel counts. *)
Definition custom_backbone_heap (out_channels : list Z) : heap :=
  Heap empty_store
    (<[0%nat := SSDMobileNetV2FeatureExtractor.Make true false 6
                  (Sequential []) out_channels]> ∅)
    1%nat.

End Vocabulary.

(** * Reasoning about monadic code *)

Section MonadFacts.
Context {S A B : Type}.

Lemma bind_Ok_inv (c : M S A) (k : A -> M S B) (s : S) (b : B) (s' : S) :
  bind c k s = (Ok b, s') ->
  exists a s1, c s = (Ok a, s1) /\ k a s1 = (Ok b, s').
Proof.
  unfold bind. destruct (c s) as [[a | e] s1]; intros H.
  - exists a, s1. split; [reflexivity | exact H].
  - discriminate H.
Qed.

Lemma bind_Ok (c : M S A) (k : A -> M S B) (s s1 : S) (a : A) :
  c s = (Ok a, s1) -> bind c k s = k a s1.
Proof. unfold bind. intros ->. reflexivity. Qed.

Lemma bind_Raise (c : M S A) (k : A -> M S B) (s s1 : S) (e : exn) :
  c s = (Raise e, s1) -> bind c k s = (Raise e, s1).
Proof. unfold bind. intros ->. reflexivity. Qed.

Lemma ret_inv (a b : A) (s s' : S) :
  ret a s = (Ok b, s') -> a = b /\ s = s'.
Proof. unfold ret. intros H. inversion H. auto. Qed.

Lemma lift_result_inv (r : result A) (a : A) (s s' : S) :
  lift_result r s = (Ok a, s') -> r = Ok a /\ s = s'.
Proof. unfold lift_result. intros H. inversion H. auto. Qed.

End MonadFacts.

Lemma rbind_Ok_inv {A B} (r : result A) (k : A -> result B) (b : B) :
  rbind r k = Ok b -> exists a, r = Ok a /\ k a = Ok b.
Proof. destruct r as [a | e]; simpl; intros H; [eauto | discriminate]. Qed.

(** Split a hypothesis [bind c k s = (Ok b, s')] into the run of [c] and the
    run of the continuation. *)
Ltac inv_bind H :=
  let a := fresh "a" in
  let s := fresh "s" in
  let Hc := fresh "Hc" in
  apply bind_Ok_inv in H; destruct H as (a & s & Hc & H).

(** Linear arithmetic with division by constants. *)
Ltac div_lia := Z.div_mod_to_equations; lia.

(** * Part I, proved: the recurrent MobileNetV2 *)

Section KerasFacts.
Import Keras.

Lemma emit_run (e : event) (w : world) :
  emit e w = (Ok tt, World (fits w) (log w ++ [e])).
Proof. reflexivity. Qed.

(** A successful [MobileNetV2] call had a frame shape (h, w, 3) and only
    fetched the ImageNet weights. *)
Lemma MobileNetV2_inv (fs : list Z) (top : bool) (pool : pooling)
    (w w' : world) (a : application) :
  MobileNetV2 fs top pool w = (Ok a, w') ->
  a = Application fs top pool /\
  (exists h wd, fs = [h; wd; 3]) /\
  w' = World (fits w) (log w ++ [FetchImagenet]).
Proof.
  unfold MobileNetV2.
  destruct fs as [| h [| wd [| c [| ? ?]]]]; try discriminate.
  destruct (top && _); [discriminate |].
  destruct (c =? 3) eqn:Hc; simpl; [| discriminate].
  destruct ((h <? 32) || (wd <? 32)); [discriminate |].
  intros H. inv_bind H. rewrite emit_run in Hc0. inversion Hc0; subst.
  apply ret_inv in H as [<- <-].
  apply Z.eqb_eq in Hc. subst c. eauto 6.
Qed.

(** A successful [add] appends the layer and leaves the world alone. *)
Lemma add_inv (m m' : sequential) (l : layer) (w w' : world) :
  add m l w = (Ok m', w') ->
  layers m' = layers m ++ [l] /\ w' = w.
Proof.
  unfold add. intros H. inv_bind H.
  apply lift_result_inv in Hc as [_ <-].
  destruct (layers m) as [| l0 ls] eqn:Hl.
  - destruct (layer_input_shape l).
    + inv_bind H. apply lift_result_inv in Hc as [_ <-].
      apply ret_inv in H as [<- <-]. auto.
    + apply ret_inv in H as [<- <-]. auto.
  - destruct (outputs m).
    + inv_bind H. apply lift_result_inv in Hc as [_ <-].
      apply ret_inv in H as [<- <-]. auto.
    + apply ret_inv in H as [<- <-]. auto.
Qed.

(** What a successful run of the constructor amounts to. *)
Lemma LRMobileNetV2_inv (seq_length : Z) (frame_shape : list Z) (classes : Z)
    (weights : weights_arg) (dropout : Q) (w w' : world) (m : sequential) :
  LRMobileNetV2 seq_length frame_shape classes weights dropout w = (Ok m, w') ->
  (exists h wd, frame_shape = [h; wd; 3]) /\
  layers m =
    [ TimeDistributed (Application frame_shape false PoolAvg)
        (seq_length :: frame_shape);
      LSTM 1024 true; Dropout dropout;
      GRU 512 true; Dropout dropout;
      GRU 256 true; Dropout dropout;
      GRU 128 false; Dropout dropout;
      Dense classes "softmax" "predictions" ].
Proof.
  unfold LRMobileNetV2. intros H.
  inv_bind H. apply MobileNetV2_inv in Hc as (-> & Hfs & ->).
  repeat
    (let Hadd := fresh "Hadd" in
     apply bind_Ok_inv in H; destruct H as (? & ? & Hadd & H);
     apply add_inv in Hadd as [Hadd ->];
     try match goal with
         | Hp : layers ?y = _ |- _ =>
             lazymatch type of Hadd with
             | context [layers y ++ _] => rewrite Hp in Hadd; clear Hp
             end
         end;
     simpl in Hadd).
  inv_bind H. apply ret_inv in H as [<- _].
  split; [exact Hfs | assumption].
Qed.

End KerasFacts.

Section KerasClaims.
Import Keras.

(** The layer list of the model, as a function of the arguments. *)
Definition lrcnn_layers (seq_length : Z) (frame_shape : list Z) (classes : Z)
    (dropout : Q) : list layer :=
  [ TimeDistributed (Application frame_shape false PoolAvg)
      (seq_length :: frame_shape);
    LSTM 1024 true; Dropout dropout;
    GRU 512 true; Dropout dropout;
    GRU 256 true; Dropout dropout;
    GRU 128 false; Dropout dropout;
    Dense classes "softmax" "predictions" ].

(** The shapes the layers produce on a batch whose frames have the declared
    shape. *)
Lemma lrcnn_layers_call (seq_length h wd classes batch : Z) (dropout : Q) :
  call (Sequential (lrcnn_layers seq_length [h; wd; 3] classes dropout) None)
       (batch :: seq_length :: [h; wd; 3])
  = Ok [batch; classes].
Proof.
  unfold call, lrcnn_layers, declared_input.
  cbn [layers layer_input_shape].
  assert (Hcompat : compatible (seq_length :: [h; wd; 3])
                      (batch :: seq_length :: [h; wd; 3]) = true).
  { unfold compatible, drop_unit_axis. cbn [List.last removelast Z.eqb Pos.eqb].
    cbn [map zip zip_with forallb]. rewrite !Z.eqb_refl. reflexivity. }
  rewrite Hcompat. unfold conform.
  cbn [length Nat.eqb andb List.last Z.eqb Pos.eqb]. cbn [rbind].
  cbn [layers rfold rbind layer_out map].
  unfold application_out. cbn [app_input_shape map].
  rewrite bool_decide_eq_true_2 by reflexivity.
  reflexivity.
Qed.

(** With valid arguments and ['imagenet'] the constructor returns. *)
Lemma LRMobileNetV2_returns (seq_length h wd classes : Z) (dropout : Q)
    (w : world) :
  1 <= seq_length ->
  32 <= h -> 32 <= wd -> 0 <= classes ->
  Qle_bool 0 dropout = true -> Qle_bool dropout 1 = true ->
  LRMobileNetV2 seq_length [h; wd; 3] classes imagenet dropout w =
  (Ok (Sequential (lrcnn_layers seq_length [h; wd; 3] classes dropout)
         (Some [None; Some classes])),
   World (fits w) (log w ++ [FetchImagenet])).
Proof.
  intros Hs Hh Hw Hc Hd0 Hd1.
  unfold LRMobileNetV2, MobileNetV2.
  cbn [andb]. rewrite Z.eqb_refl. cbn [negb].
  replace (h <? 32) with false by (symmetry; apply Z.ltb_ge; lia).
  replace (wd <? 32) with false by (symmetry; apply Z.ltb_ge; lia).
  cbn [orb]. unfold bind at 1. unfold bind at 1. rewrite emit_run.
  cbn [ret].
  unfold add, layer_check, lift_result, bind, ret.
  rewrite Hd0, Hd1.
  replace (seq_length <=? 0) with false by (symmetry; apply Z.leb_gt; lia).
  replace (classes <? 0) with false by (symmetry; apply Z.ltb_ge; lia).
  cbn -[bool_decide].
  rewrite bool_decide_eq_true_2 by reflexivity.
  cbn. reflexivity.
Qed.

(** C2. Whatever the sequence length, the frame shape, the number of
    classes, the weights and the dropout rate, the model that
    [LRMobileNetV2] returns maps a batch of shape (batch, seq_length) +
    frame_shape to an output of shape (batch, classes). *)
Theorem LRMobileNetV2_output_shape (seq_length : Z) (frame_shape : list Z)
    (classes : Z) (weights : weights_arg) (dropout : Q) (w w' : world)
    (m : sequential) (batch : Z) :
  LRMobileNetV2 seq_length frame_shape classes weights dropout w = (Ok m, w') ->
  call m (batch :: seq_length :: frame_shape) = Ok [batch; classes].
Proof.
  intros H. apply LRMobileNetV2_inv in H as [(h & wd & ->) Hl].
  destruct m as [ls out]. simpl in Hl. subst ls.
  apply (lrcnn_layers_call seq_length h wd classes batch dropout).
Qed.

Lemma LRMobileNetV2_output_shape_witness :
  exists m w',
    LRMobileNetV2 16 [224; 224; 3] 10 imagenet (1 # 2)
      (World (fun _ => false) []) = (Ok m, w') /\
    call m [8; 16; 224; 224; 3] = Ok [8; 10].
Proof.
  eexists _, _. split.
  - vm_compute. reflexivity.
  - eapply (LRMobileNetV2_output_shape 16 [224; 224; 3] 10 imagenet (1 # 2)
              (World (fun _ => false) [])).
    vm_compute. reflexivity.
Defined.

(** C4. The model that [LRMobileNetV2] returns always has the same ten
    layers in the same order: the time-distributed MobileNetV2 (no top,
    average pooling), LSTM(1024), Dropout, GRU(512), Dropout, GRU(256),
    Dropout, GRU(128), Dropout, Dense(classes, softmax).  The arguments
    only fill in the sequence length, the frame shape, the dropout rate and
    the number of classes; [weights] does not occur. *)
Theorem LRMobileNetV2_layer_sequence (seq_length : Z) (frame_shape : list Z)
    (classes : Z) (weights : weights_arg) (dropout : Q) (w w' : world)
    (m : sequential) :
  LRMobileNetV2 seq_length frame_shape classes weights dropout w = (Ok m, w') ->
  layers m =
    [ TimeDistributed (Application frame_shape false PoolAvg)
        (seq_length :: frame_shape);
      LSTM 1024 true; Dropout dropout;
      GRU 512 true; Dropout dropout;
      GRU 256 true; Dropout dropout;
      GRU 128 false; Dropout dropout;
      Dense classes "softmax" "predictions" ] /\
  length (layers m) = 10%nat.
Proof.
  intros H. apply LRMobileNetV2_inv in H as [_ Hl].
  rewrite Hl. split; reflexivity.
Qed.

Lemma LRMobileNetV2_layer_sequence_witness :
  exists m w',
    LRMobileNetV2 8 [96; 96; 3] 5 imagenet (1 # 4)
      (World (fun _ => false) []) = (Ok m, w') /\
    layers m =
      [ TimeDistributed (Application [96; 96; 3] false PoolAvg) [8; 96; 96; 3];
        LSTM 1024 true; Dropout (1 # 4);
        GRU 512 true; Dropout (1 # 4);
        GRU 256 true; Dropout (1 # 4);
        GRU 128 false; Dropout (1 # 4);
        Dense 5 "softmax" "predictions" ] /\
    length (layers m) = 10%nat.
Proof.
  eexists _, _. split.
  - vm_compute. reflexivity.
  - eapply (LRMobileNetV2_layer_sequence 8 [96; 96; 3] 5 imagenet (1 # 4)
              (World (fun _ => false) [])).
    vm_compute. reflexivity.
Defined.

(** With ['imagenet'] no weights file is loaded. *)
Lemma LRMobileNetV2_imagenet_log (seq_length : Z) (frame_shape : list Z)
    (classes : Z) (dropout : Q) (w w' : world) (m : sequential) :
  LRMobileNetV2 seq_length frame_shape classes imagenet dropout w = (Ok m, w') ->
  log w' = log w ++ [FetchImagenet].
Proof.
  unfold LRMobileNetV2. intros H.
  inv_bind H. apply MobileNetV2_inv in Hc as (-> & _ & ->).
  repeat
    (let Hadd := fresh "Hadd" in
     apply bind_Ok_inv in H; destruct H as (? & ? & Hadd & H);
     apply add_inv in Hadd as [_ ->]).
  inv_bind H. apply ret_inv in H as [_ <-].
  rewrite bool_decide_eq_false_2 in Hc by (intros Hn; apply Hn; reflexivity).
  apply ret_inv in Hc as [_ <-]. reflexivity.
Qed.

(** With a path, that file is loaded, once, after the model is built. *)
Lemma LRMobileNetV2_path_log (seq_length : Z) (frame_shape : list Z)
    (classes : Z) (path : string) (dropout : Q) (w w' : world)
    (m : sequential) :
  path <> "imagenet"%string ->
  LRMobileNetV2 seq_length frame_shape classes (PyStr path) dropout w
    = (Ok m, w') ->
  log w' = log w ++ [FetchImagenet; LoadWeights (PyStr path)] /\
  fits w path = true.
Proof.
  intros Hp. unfold LRMobileNetV2. intros H.
  inv_bind H. apply MobileNetV2_inv in Hc as (-> & _ & ->).
  repeat
    (let Hadd := fresh "Hadd" in
     apply bind_Ok_inv in H; destruct H as (? & ? & Hadd & H);
     apply add_inv in Hadd as [_ ->]).
  inv_bind H. apply ret_inv in H as [_ <-].
  rewrite bool_decide_eq_true_2 in Hc
    by (unfold imagenet; intros Heq; inversion Heq; contradiction).
  unfold load_weights in Hc. inv_bind Hc. rewrite emit_run in Hc0.
  inversion Hc0; subst. clear Hc0.
  inv_bind Hc. unfold get in Hc0. inversion Hc0; subst. clear Hc0.
  cbn [fits] in Hc.
  destruct (fits w path) eqn:Hf; [| discriminate].
  apply ret_inv in Hc as [_ <-]. cbn [log].
  rewrite <- app_assoc. auto.
Qed.

(** C3 (the code departs from its docstring).  The docstring documents
    [weights=None] as random initialisation.  The guard of the source is
    [weights != 'imagenet'], which [None] passes: [load_weights(None)] is
    called and raises, so that no model is returned for [None], whatever the
    other arguments; with the default arguments the run ends in that
    exception after the ImageNet weights were fetched.  (Which exception
    [load_weights(None)] raises depends on the Keras version; that it
    raises does not.) *)
Theorem LRMobileNetV2_weights_None (seq_length : Z) (frame_shape : list Z)
    (classes : Z) (dropout : Q) (w : world) :
  (forall m w',
     LRMobileNetV2 seq_length frame_shape classes PyNone dropout w
     <> (Ok m, w')) /\
  LRMobileNetV2 16 [224; 224; 3] 1000 PyNone (1 # 2) w =
  (Raise (AttributeError "'NoneType' object has no attribute 'endswith'"),
   World (fits w) (log w ++ [FetchImagenet; LoadWeights PyNone])).
Proof.
  split.
  - intros m w' H. unfold LRMobileNetV2 in H.
    inv_bind H.
    repeat
      (let Hadd := fresh "Hadd" in
       apply bind_Ok_inv in H; destruct H as (? & ? & Hadd & H);
       apply add_inv in Hadd as [_ ->]).
    inv_bind H.
    rewrite bool_decide_eq_true_2 in Hc0 by (unfold imagenet; discriminate).
    unfold load_weights in Hc0. inv_bind Hc0. discriminate Hc0.
  - destruct w as [f l]. cbn [fits log].
    replace (l ++ [FetchImagenet; LoadWeights PyNone])
      with ((l ++ [FetchImagenet]) ++ [LoadWeights PyNone])
      by (rewrite <- app_assoc; reflexivity).
    vm_compute. reflexivity.
Qed.

End KerasClaims.

(** * Part II, proved: the SSD300 detector *)

(** ** Induction on modules *)

Section ModuleInduction.
Import Torch.
Variable P : module -> Prop.
Hypothesis HConv : forall cin cout k s p g w b, P (Conv2d cin cout k s p g w b).
Hypothesis HBN : forall c w b, P (BatchNorm2d c w b).
Hypothesis HReLU : forall i, P (ReLU i).
Hypothesis HReLU6 : forall i, P (ReLU6 i).
Hypothesis HSeq : forall ms, Forall P ms -> P (Sequential ms).
Hypothesis HIR : forall r c, P c -> P (InvertedResidual r c).

Fixpoint module_induction (m : module) : P m :=
  match m with
  | Conv2d cin cout k s p g w b => HConv cin cout k s p g w b
  | BatchNorm2d c w b => HBN c w b
  | ReLU i => HReLU i
  | ReLU6 i => HReLU6 i
  | Sequential ms =>
      HSeq ms
        ((fix all (l : list module) : Forall P l :=
            match l with
            | [] => @List.Forall_nil module P
            | m' :: l' =>
                @List.Forall_cons module P m' l' (module_induction m') (all l')
            end) ms)
  | InvertedResidual r c => HIR r c (module_induction c)
  end.

End ModuleInduction.

Section ArchFacts.
Import Torch.

(** The shape semantics does not look at addresses. *)
Lemma shape_call_arch (training : bool) (m : module) :
  forall x, shape_call training (arch m) x = shape_call training m x.
Proof.
  induction m using module_induction; intros x; try reflexivity.
  - cbn [arch shape_call]. revert x.
    induction H as [| m ms Hm _ IH]; intros x; [reflexivity |].
    cbn [map rfold]. rewrite Hm. destruct (shape_call training m x); simpl; auto.
  - cbn [arch shape_call]. rewrite IHm. reflexivity.
Qed.

Lemma parameters_param_shapes (m : module) :
  map fst (param_shapes m) = parameters m.
Proof.
  induction m using module_induction; try reflexivity.
  - cbn. destruct b; reflexivity.
  - cbn [param_shapes parameters].
    induction H as [| m ms Hm _ IH]; [reflexivity |].
    cbn [flat_map]. rewrite map_app, Hm, IH. reflexivity.
  - exact IHm.
Qed.

Lemma arch_idem (m : module) : arch (arch m) = arch m.
Proof.
  induction m using module_induction; try reflexivity.
  - cbn. destruct b; reflexivity.
  - cbn [arch]. f_equal. induction H as [| m ms Hm _ IH]; [reflexivity |].
    cbn [map]. rewrite Hm, IH. reflexivity.
  - cbn [arch]. rewrite IHm. reflexivity.
Qed.

End ArchFacts.

(** ** The store under allocation *)

Section StoreFacts.
Import Torch.

Lemma extends_refl (st : pstore) : extends st st.
Proof. split; [lia | reflexivity]. Qed.

Lemma extends_trans (st1 st2 st3 : pstore) :
  extends st1 st2 -> extends st2 st3 -> extends st1 st3.
Proof.
  intros [H1 F1] [H2 F2]. split; [lia |].
  intros a Ha. rewrite F2 by lia. apply F1, Ha.
Qed.

Lemma extends_push (s : shape) (d : data) (st : pstore) :
  extends st (push s d st).
Proof.
  split; cbn; [lia |]. intros a Ha. apply lookup_insert_ne. lia.
Qed.

Lemma extends_tick (st : pstore) : extends st (tick st).
Proof. split; cbn; [lia | reflexivity]. Qed.

Lemma extends_next (st st' : pstore) :
  extends st st' -> (next st <= next st')%nat.
Proof. intros [H _]. exact H. Qed.

Lemma fresh_weaken (st0 st1 st2 st3 : pstore) (m : module) :
  (next st0 <= next st1)%nat -> (next st2 <= next st3)%nat ->
  fresh st1 st2 m -> fresh st0 st3 m.
Proof.
  intros H01 H23 H. unfold fresh in *.
  eapply Forall_impl; [exact H |]. cbn. intros a Ha. lia.
Qed.

(** Parameters below the allocation pointer stay stored when the store is
    extended. *)
Lemma stored_extends (st st' : pstore) (m : module) :
  extends st st' ->
  Forall (fun a => (a < next st)%nat) (parameters m) ->
  stored st m -> stored st' m.
Proof.
  intros [_ Hf]. unfold stored. rewrite <- parameters_param_shapes.
  induction (param_shapes m) as [| [a s] l IH]; intros Hlt Hst.
  - constructor.
  - inversion Hlt; subst. inversion Hst; subst. constructor.
    + destruct H3 as [d Hd]. exists d. rewrite Hf by assumption. exact Hd.
    + apply IH; assumption.
Qed.

Lemma fresh_lt (st st' : pstore) (m : module) :
  fresh st st' m -> Forall (fun a => (a < next st')%nat) (parameters m).
Proof.
  intros H. unfold fresh in H. eapply Forall_impl; [exact H |].
  cbn. intros a Ha. lia.
Qed.

Lemma built_extends (spec : module) (st m' : pstore) (m : module) :
  built spec st m m' -> extends st m'.
Proof. intros (_ & H & _). exact H. Qed.

(** A built module stays built when the run goes on. *)
Lemma built_later (spec : module) (st0 st1 st2 st3 : pstore) (m : module) :
  extends st0 st1 -> built spec st1 m st2 -> extends st2 st3 ->
  built spec st0 m st3.
Proof.
  intros H01 (Ha & H12 & Hf & Hs) H23.
  split; [exact Ha |]. split; [eauto using extends_trans |]. split.
  - apply (fresh_weaken st0 st1 st2 st3);
      [apply extends_next, H01 | apply extends_next, H23 | exact Hf].
  - apply (stored_extends st2 st3); [exact H23 | | exact Hs].
    apply (fresh_lt st1), Hf.
Qed.

Lemma alloc_run (s : shape) (d : data) (st : pstore) :
  alloc s d st = (Ok (next st), push s d st).
Proof. reflexivity. Qed.

Lemma new_parameter_run (s : shape) (d : data) (st : pstore) :
  Forall (fun n => 0 <= n) s ->
  new_parameter s d st = (Ok (next st), push s d st).
Proof.
  intros H. unfold new_parameter.
  replace (forallb (fun n => 0 <=? n) s) with true; [reflexivity |].
  symmetry. apply forallb_forall. intros n Hn.
  rewrite Forall_forall in H. apply Z.leb_le, H.
  apply list_elem_of_In, Hn.
Qed.

Lemma lookup_push_new (s : shape) (d : data) (st : pstore) :
  params (push s d st) !! next st = Some (Param s d).
Proof. cbn. apply lookup_insert_eq. Qed.

Lemma lookup_push_old (s : shape) (d : data) (st : pstore) (a : addr) :
  a <> next st -> params (push s d st) !! a = params st !! a.
Proof. intros H. cbn. apply lookup_insert_ne. congruence. Qed.

End StoreFacts.

(** ** What the constructors build *)

Section ConstructorFacts.
Import Torch.

Lemma built_stable (spec : module) (st0 st st' : pstore) (m : module) :
  built spec st0 m st -> extends st st' -> built spec st0 m st'.
Proof.
  intros B E. apply (built_later spec st0 st0 st st'); auto using extends_refl.
Qed.

Lemma built_nil (st0 st : pstore) :
  extends st0 st -> built (Sequential []) st0 (Sequential []) st.
Proof.
  intros E. split; [reflexivity |]. split; [exact E |].
  split; constructor.
Qed.

Lemma built_cons (spec : module) (specs : list module) (st0 st : pstore)
    (m : module) (ms : list module) :
  built spec st0 m st ->
  built (Sequential specs) st0 (Sequential ms) st ->
  built (Sequential (spec :: specs)) st0 (Sequential (m :: ms)) st.
Proof.
  intros (Ha & E & Hf & Hs) (Ha' & _ & Hf' & Hs').
  split; [| split; [exact E | split]].
  - cbn [arch map] in *. injection Ha' as Ha'. rewrite Ha, Ha'. reflexivity.
  - unfold fresh in *. cbn [parameters flat_map] in *.
    apply Forall_app. auto.
  - unfold stored in *. cbn [param_shapes flat_map] in *.
    apply Forall_app. auto.
Qed.

Lemma built_app (specs1 specs2 : list module) (st0 st : pstore)
    (ms1 ms2 : list module) :
  built (Sequential specs1) st0 (Sequential ms1) st ->
  built (Sequential specs2) st0 (Sequential ms2) st ->
  built (Sequential (specs1 ++ specs2)) st0 (Sequential (ms1 ++ ms2)) st.
Proof.
  intros (Ha & E & Hf & Hs) (Ha' & _ & Hf' & Hs').
  split; [| split; [exact E | split]].
  - cbn [arch] in *. injection Ha as Ha. injection Ha' as Ha'.
    rewrite map_app, Ha, Ha'. reflexivity.
  - unfold fresh in *. cbn [parameters] in *. rewrite flat_map_app.
    apply Forall_app. auto.
  - unfold stored in *. cbn [param_shapes] in *. rewrite flat_map_app.
    apply Forall_app. auto.
Qed.

Lemma built_InvertedResidual (spec : module) (r : bool) (st0 st : pstore)
    (m : module) :
  built spec st0 m st ->
  built (InvertedResidual r spec) st0 (InvertedResidual r m) st.
Proof.
  intros (Ha & E & Hf & Hs). split; [| auto].
  cbn [arch]. rewrite Ha. reflexivity.
Qed.

(** A sub-list of the children of a built [Sequential] is built. *)
Lemma built_take (n : nat) (specs : list module) (st0 st : pstore)
    (ms : list module) :
  built (Sequential specs) st0 (Sequential ms) st ->
  built (Sequential (take n specs)) st0 (Sequential (take n ms)) st.
Proof.
  intros (Ha & E & Hf & Hs).
  split; [| split; [exact E | split]].
  - cbn [arch] in *. injection Ha as Ha. rewrite <- Ha.
    f_equal. apply fmap_take.
  - unfold fresh in *. cbn [parameters] in *.
    rewrite <- (take_drop n ms), flat_map_app in Hf.
    apply Forall_app in Hf. tauto.
  - unfold stored in *. cbn [param_shapes] in *.
    rewrite <- (take_drop n ms), flat_map_app in Hs.
    apply Forall_app in Hs. tauto.
Qed.

(** Running a constructor first, then the rest. *)
Lemma step_constructs {A} (c : M pstore module) (spec : module)
    (k : module -> M pstore A) (st0 st : pstore)
    (Q : A -> pstore -> Prop) :
  constructs c spec ->
  extends st0 st ->
  (forall m st1,
     built spec st0 m st1 -> extends st st1 ->
     exists a st', k m st1 = (Ok a, st') /\ Q a st') ->
  exists a st', bind c k st = (Ok a, st') /\ Q a st'.
Proof.
  intros Hc E Hk. destruct (Hc st) as (m & st1 & Hrun & B).
  rewrite (bind_Ok _ _ _ _ _ Hrun).
  apply Hk.
  - apply (built_later spec st0 st st1 st1); auto using extends_refl.
  - apply (built_extends spec st st1 m), B.
Qed.

Lemma step_constructs_list {A} (c : M pstore (list module))
    (specs : list module) (k : list module -> M pstore A) (st0 st : pstore)
    (Q : A -> pstore -> Prop) :
  constructs_list c specs ->
  extends st0 st ->
  (forall ms st1,
     built (Sequential specs) st0 (Sequential ms) st1 -> extends st st1 ->
     exists a st', k ms st1 = (Ok a, st') /\ Q a st') ->
  exists a st', bind c k st = (Ok a, st') /\ Q a st'.
Proof.
  intros Hc E Hk. destruct (Hc st) as (m & st1 & Hrun & B).
  rewrite (bind_Ok _ _ _ _ _ Hrun).
  apply Hk.
  - apply (built_later _ st0 st st1 st1); auto using extends_refl.
  - eapply built_extends, B.
Qed.

Lemma constructs_Conv2d (cin cout k s p g : Z) (bias : bool) :
  0 < g -> cin mod g = 0 -> cout mod g = 0 ->
  0 <= cin -> 0 <= cout -> 0 <= k ->
  constructs (nn.Conv2d cin cout k s p g bias)
    (Conv2d cin cout k s p g 0%nat (if bias then Some 0%nat else None)).
Proof.
  intros Hg Hcin Hcout Hi Ho Hk st.
  assert (Hdiv : 0 <= cin / g) by (apply Z.div_pos; lia).
  unfold nn.Conv2d.
  replace (g <=? 0) with false by (symmetry; apply Z.leb_gt; lia).
  rewrite Hcin, Hcout. cbn [Z.eqb negb].
  unfold bind at 1, draw.
  unfold bind at 1. rewrite new_parameter_run by (repeat constructor; lia).
  destruct bias.
  - unfold bind at 1, bind at 1, draw. unfold bind at 1.
    rewrite new_parameter_run by (repeat constructor; lia).
    cbn [ret]. eexists _, _. split; [reflexivity |].
    split; [reflexivity |]. split; [| split].
    + eauto 6 using extends_trans, extends_tick, extends_push.
    + unfold fresh. cbn. repeat constructor; lia.
    + unfold stored. cbn. repeat constructor.
      * eexists. rewrite lookup_insert_ne by lia. apply lookup_insert_eq.
      * eexists. apply lookup_insert_eq.
  - unfold bind at 1. cbn [ret]. eexists _, _. split; [reflexivity |].
    split; [reflexivity |]. split; [| split].
    + eauto using extends_trans, extends_tick, extends_push.
    + unfold fresh. cbn. repeat constructor; lia.
    + unfold stored. cbn. repeat constructor.
      eexists. apply lookup_insert_eq.
Qed.

Lemma constructs_BatchNorm2d (c : Z) :
  0 <= c -> constructs (nn.BatchNorm2d c) (BatchNorm2d c 0%nat 0%nat).
Proof.
  intros Hc st. unfold nn.BatchNorm2d.
  unfold bind at 1. rewrite new_parameter_run by (repeat constructor; lia).
  unfold bind at 1. rewrite new_parameter_run by (repeat constructor; lia).
  cbn [ret]. eexists _, _. split; [reflexivity |].
  split; [reflexivity |]. split; [| split].
  - eauto using extends_trans, extends_push.
  - unfold fresh. cbn. repeat constructor; lia.
  - unfold stored. cbn. repeat constructor.
    + eexists. rewrite lookup_insert_ne by lia. apply lookup_insert_eq.
    + eexists. apply lookup_insert_eq.
Qed.

Lemma built_leaf (m : module) (st0 st : pstore) :
  parameters m = [] -> param_shapes m = [] -> extends st0 st ->
  built (arch m) st0 m st.
Proof.
  intros Hp Hs E. split; [reflexivity |]. split; [exact E |].
  unfold fresh, stored. rewrite Hp, Hs. split; constructor.
Qed.

Lemma constructs_ReLU (i : bool) : constructs (nn.ReLU i) (ReLU i).
Proof.
  intros st. eexists _, _. split; [reflexivity |].
  apply (built_leaf (ReLU i)); auto using extends_refl.
Qed.

Lemma constructs_ReLU6 (i : bool) : constructs (nn.ReLU6 i) (ReLU6 i).
Proof.
  intros st. eexists _, _. split; [reflexivity |].
  apply (built_leaf (ReLU6 i)); auto using extends_refl.
Qed.

(** The arguments of a call are built one after the other. *)
Lemma sequence_from (cs : list (M pstore module)) (specs : list module) :
  Forall2 constructs cs specs ->
  forall st0 st, extends st0 st ->
  exists ms st',
    nn.sequence cs st = (Ok ms, st') /\
    built (Sequential specs) st0 (Sequential ms) st'.
Proof.
  induction 1 as [| c spec cs specs Hc _ IH]; intros st0 st E.
  - eexists _, _. split; [reflexivity |]. apply built_nil, E.
  - cbn [nn.sequence]. apply (step_constructs c spec _ st0 st); auto.
    intros m st1 B E1.
    destruct (IH st0 st1 (built_extends _ _ _ _ B)) as (ms & st2 & Hrun & Bs).
    rewrite (bind_Ok _ _ _ _ _ Hrun). cbn [ret].
    eexists _, _. split; [reflexivity |].
    apply built_cons; [| exact Bs].
    apply (built_stable spec st0 st1 st2 m B).
    destruct (IH st1 st1 (extends_refl st1)) as (ms' & st2' & Hrun' & Bs').
    rewrite Hrun in Hrun'. inversion Hrun'; subst.
    apply (built_extends _ _ _ _ Bs').
Qed.

Lemma constructs_Sequential (cs : list (M pstore module))
    (specs : list module) :
  Forall2 constructs cs specs ->
  constructs (nn.Sequential cs) (Sequential specs).
Proof.
  intros H st. unfold nn.Sequential.
  destruct (sequence_from cs specs H st st (extends_refl st))
    as (ms & st' & Hrun & B).
  rewrite (bind_Ok _ _ _ _ _ Hrun). cbn [ret].
  eexists _, _. split; [reflexivity | exact B].
Qed.

End ConstructorFacts.

Section TorchvisionFacts.
Import Torch.

Lemma constructs_ConvBNReLU (a b k s g : Z) :
  0 < g -> a mod g = 0 -> b mod g = 0 -> 0 <= a -> 0 <= b -> 0 <= k ->
  constructs (torchvision.ConvBNReLU a b k s g)
    (Sequential [ Conv2d a b k s ((k - 1) / 2) g 0%nat None;
                  BatchNorm2d b 0%nat 0%nat; ReLU6 true ]).
Proof.
  intros. unfold torchvision.ConvBNReLU. apply constructs_Sequential.
  repeat constructor.
  - apply (constructs_Conv2d a b k s ((k - 1) / 2) g false); assumption.
  - apply constructs_BatchNorm2d; assumption.
  - apply constructs_ReLU6.
Qed.

Lemma constructs_InvertedResidual (inp oup stride t : Z) :
  0 < inp -> 0 <= oup -> 0 < t ->
  exists spec, constructs (torchvision.InvertedResidual inp oup stride t) spec.
Proof.
  intros Hi Ho Ht. unfold torchvision.InvertedResidual.
  assert (Hh : 0 < inp * t) by lia.
  assert (Hconv : exists specs,
    constructs
      (nn.Sequential
         ((if t =? 1 then []
           else [torchvision.ConvBNReLU inp (inp * t) 1 1 1]) ++
          [ torchvision.ConvBNReLU (inp * t) (inp * t) 3 stride (inp * t);
            nn.Conv2d (inp * t) oup 1 1 0 1 false;
            nn.BatchNorm2d oup ])) (Sequential specs)).
  { assert (H1 : constructs
              (torchvision.ConvBNReLU inp (inp * t) 1 1 1)
              (Sequential [ Conv2d inp (inp * t) 1 1 ((1 - 1) / 2) 1 0%nat None;
                            BatchNorm2d (inp * t) 0%nat 0%nat; ReLU6 true ]))
      by (apply constructs_ConvBNReLU; rewrite ?Z.mod_1_r; lia).
    assert (H2 : constructs
              (torchvision.ConvBNReLU (inp * t) (inp * t) 3 stride (inp * t))
              (Sequential [ Conv2d (inp * t) (inp * t) 3 stride ((3 - 1) / 2)
                              (inp * t) 0%nat None;
                            BatchNorm2d (inp * t) 0%nat 0%nat; ReLU6 true ]))
      by (apply constructs_ConvBNReLU; rewrite ?Z_mod_same_full; lia).
    assert (H3 : constructs (nn.Conv2d (inp * t) oup 1 1 0 1 false)
                   (Conv2d (inp * t) oup 1 1 0 1 0%nat None))
      by (apply (constructs_Conv2d _ _ _ _ _ _ false);
          rewrite ?Z.mod_1_r; lia).
    assert (H4 : constructs (nn.BatchNorm2d oup) (BatchNorm2d oup 0%nat 0%nat))
      by (apply constructs_BatchNorm2d; lia).
    destruct (t =? 1); eexists; apply constructs_Sequential; cbn [app].
    - repeat (first [apply List.Forall2_nil | apply List.Forall2_cons]);
        eassumption.
    - repeat (first [apply List.Forall2_nil | apply List.Forall2_cons]);
        eassumption. }
  destruct Hconv as [specs Hconv].
  eexists. intros st.
  apply (step_constructs _ _ _ st st _ Hconv (extends_refl st)).
  intros m st1 B _. cbn [ret]. eexists _, _. split; [reflexivity |].
  apply built_InvertedResidual, B.
Qed.

Lemma constructs_stage (t c s : Z) (n : nat) :
  0 < c -> 0 < t ->
  forall first input_channel, 0 < input_channel ->
  exists specs,
    constructs_list (torchvision.stage t c s n first input_channel) specs.
Proof.
  intros Hc Ht. induction n as [| n IH]; intros first input Hin.
  - exists []. intros st. eexists _, _. split; [reflexivity |].
    apply built_nil, extends_refl.
  - destruct (constructs_InvertedResidual input c (if first then s else 1) t)
      as [spec Hspec]; try lia.
    destruct (IH false c Hc) as [specs Hspecs].
    exists (spec :: specs). intros st. cbn [torchvision.stage].
    apply (step_constructs _ _ _ st st _ Hspec (extends_refl st)).
    intros m st1 B E1.
    apply (step_constructs_list _ _ _ st st1 _ Hspecs E1).
    intros ms st2 Bs E2. cbn [ret]. eexists _, _. split; [reflexivity |].
    apply built_cons; [| exact Bs]. apply (built_stable _ _ _ _ _ B E2).
Qed.

Lemma constructs_stages (rows : list (Z * Z * Z * Z)) :
  Forall row_ok rows ->
  forall input_channel, 0 < input_channel ->
  exists specs out,
    0 < out /\
    forall st, exists ms st',
      torchvision.stages rows input_channel st = (Ok (ms, out), st') /\
      built (Sequential specs) st (Sequential ms) st'.
Proof.
  induction 1 as [| [[[t c] n] s] rows [Ht Hc] _ IH]; intros input Hin.
  - exists [], input. split; [exact Hin |]. intros st.
    eexists _, _. split; [reflexivity |]. apply built_nil, extends_refl.
  - destruct (constructs_stage t c s (Z.to_nat n) Hc Ht true input Hin)
      as [specs1 H1].
    destruct (IH (if 0 <? n then c else input)) as (specs2 & out & Hout & H2).
    { destruct (0 <? n); assumption. }
    exists (specs1 ++ specs2), out. split; [exact Hout |].
    intros st. cbn [torchvision.stages].
    destruct (H1 st) as (bs & st1 & Hrun1 & B1).
    rewrite (bind_Ok _ _ _ _ _ Hrun1).
    destruct (H2 st1) as (ms & st2 & Hrun & B2).
    rewrite (bind_Ok _ _ _ _ _ Hrun). cbn [ret fst snd].
    eexists _, _. split; [reflexivity |].
    apply built_app.
    + apply (built_stable _ _ _ _ _ B1), (built_extends _ _ _ _ B2).
    + apply (built_later _ st st1 st2 st2);
        [apply (built_extends _ _ _ _ B1) | exact B2 | apply extends_refl].
Qed.

(** Overwriting the contents of stored parameters keeps a module built. *)
Lemma built_rewritten (spec : module) (st0 st st' : pstore) (m : module) :
  built spec st0 m st ->
  next st' = next st ->
  (forall a, (a < next st0)%nat -> params st' !! a = params st !! a) ->
  (forall a s d, params st !! a = Some (Param s d) ->
                 exists d', params st' !! a = Some (Param s d')) ->
  built spec st0 m st'.
Proof.
  intros (Ha & [En Ef] & Hf & Hs) Hn Hframe Hshape.
  split; [exact Ha |]. split; [| split].
  - split; [lia |]. intros a Hlt. rewrite Hframe by exact Hlt. auto.
  - unfold fresh in *. rewrite Hn. exact Hf.
  - unfold stored in *. eapply Forall_impl; [exact Hs |].
    intros [a s] [d Hd]. apply (Hshape a s d Hd).
Qed.

Lemma set_data_run (a : addr) (d : data) (st : pstore) (p : parameter) :
  params st !! a = Some p ->
  set_data a d st = (Ok tt, write a (Param (p_shape p) d) st).
Proof.
  intros H. unfold set_data, bind, get_param. rewrite H. reflexivity.
Qed.

Lemma write_lookup_shape (a b : addr) (p : parameter) (d : data)
    (st : pstore) (s : shape) (d0 : data) :
  params st !! a = Some p ->
  params st !! b = Some (Param s d0) ->
  exists d', params (write a (Param (p_shape p) d) st) !! b = Some (Param s d').
Proof.
  intros Ha Hb. cbn. destruct (decide (a = b)) as [-> | Hne].
  - rewrite lookup_insert_eq. rewrite Ha in Hb. inversion Hb; subst. eauto.
  - rewrite lookup_insert_ne by exact Hne. eauto.
Qed.

Lemma load_state_dict_run (ps : list addr) :
  forall i st,
  Forall (fun a => is_Some (params st !! a)) ps ->
  exists st',
    torchvision.load_state_dict i ps st = (Ok tt, st') /\
    next st' = next st /\
    (forall a, a ∉ ps -> params st' !! a = params st !! a) /\
    (forall a s d, params st !! a = Some (Param s d) ->
                   exists d', params st' !! a = Some (Param s d')).
Proof.
  induction ps as [| a ps IH]; intros i st Hall.
  - exists st. cbn. eauto.
  - inversion Hall as [| ? ? Hp Hall']; subst. destruct Hp as [p Hp].
    cbn [torchvision.load_state_dict].
    rewrite (bind_Ok _ _ _ _ _ (set_data_run a (Checkpoint i) st p Hp)).
    destruct (IH (S i) (write a (Param (p_shape p) (Checkpoint i)) st))
      as (st' & Hrun & Hn & Hframe & Hshape).
    { eapply Forall_impl; [exact Hall' |]. cbn. intros b [[s d] Hb].
      destruct (write_lookup_shape a b p (Checkpoint i) st s d Hp Hb)
        as [d' Hd']. cbn in Hd'. rewrite Hd'. eauto. }
    exists st'. split; [exact Hrun |]. split; [exact Hn |]. split.
    + intros b Hb. rewrite Hframe by set_solver.
      cbn. apply lookup_insert_ne. set_solver.
    + intros b s d Hb.
      destruct (write_lookup_shape a b p (Checkpoint i) st s d Hp Hb)
        as [d' Hd'].
      apply (Hshape b s d' Hd').
Qed.

Lemma stored_is_Some (st : pstore) (m : module) :
  stored st m -> Forall (fun a => is_Some (params st !! a)) (parameters m).
Proof.
  unfold stored. rewrite <- parameters_param_shapes.
  induction (param_shapes m) as [| [a s] l IH]; intros H; cbn.
  - constructor.
  - inversion H as [| ? ? Hd Hl]; subst. cbn in Hd. destruct Hd as [d Hd].
    constructor; [eauto | auto].
Qed.

Lemma fresh_not_below (st0 st : pstore) (m : module) (a : addr) :
  fresh st0 st m -> (a < next st0)%nat -> a ∉ parameters m.
Proof.
  unfold fresh. rewrite Forall_forall. intros H Hlt Hin.
  specialize (H a Hin). lia.
Qed.

Lemma constructs_mobilenet_v2_ex (pretrained : bool) :
  exists spec, constructs (torchvision.mobilenet_v2 pretrained) spec.
Proof.
  destruct (constructs_stages torchvision.inverted_residual_setting)
    with (input_channel := 32) as (specs & out & Hout & Hst).
  { unfold torchvision.inverted_residual_setting.
    repeat constructor; lia. }
  { lia. }
  exists (Sequential
            ([Sequential [Conv2d 3 32 3 2 ((3 - 1) / 2) 1 0%nat None;
                          BatchNorm2d 32 0%nat 0%nat; ReLU6 true]] ++
             specs ++
             [Sequential [Conv2d out 1280 1 1 ((1 - 1) / 2) 1 0%nat None;
                          BatchNorm2d 1280 0%nat 0%nat; ReLU6 true]])).
  intros st. unfold torchvision.mobilenet_v2.
  eapply (step_constructs _ _ _ st st).
  { apply (constructs_ConvBNReLU 3 32 3 2 1); try lia; reflexivity. }
  { apply extends_refl. }
  intros first st1 B1 E1.
  destruct (Hst st1) as (ms & st2 & Hrun & B2).
  rewrite (bind_Ok _ _ _ _ _ Hrun). cbn [fst snd].
  eapply (step_constructs _ _ _ st st2).
  { apply (constructs_ConvBNReLU out 1280 1 1 1); rewrite ?Z.mod_1_r; lia. }
  { apply (extends_trans _ st1); [exact E1 | apply (built_extends _ _ _ _ B2)]. }
  intros last st3 B3 E3.
  assert (B : built
                (Sequential
                   ([Sequential [Conv2d 3 32 3 2 ((3 - 1) / 2) 1 0%nat None;
                                 BatchNorm2d 32 0%nat 0%nat; ReLU6 true]] ++
                    specs ++
                    [Sequential [Conv2d out 1280 1 1 ((1 - 1) / 2) 1 0%nat None;
                                 BatchNorm2d 1280 0%nat 0%nat; ReLU6 true]]))
                st (Sequential ([first] ++ ms ++ [last])) st3).
  { apply built_app; [| apply built_app].
    - apply built_cons; [| apply built_nil].
      + apply (built_stable _ _ _ _ _ B1).
        apply (extends_trans _ st2); [apply (built_extends _ _ _ _ B2) | exact E3].
      + apply (built_extends _ _ _ _ B3).
    - apply (built_later _ st st1 st2 st3); auto.
    - apply built_cons; [exact B3 | apply built_nil].
      apply (built_extends _ _ _ _ B3). }
  destruct pretrained.
  - destruct (load_state_dict_run
                (parameters (Sequential ([first] ++ ms ++ [last]))) 0%nat st3)
      as (st4 & Hload & Hn & Hframe & Hshape).
    { apply stored_is_Some. destruct B as (_ & _ & _ & Hs). exact Hs. }
    rewrite (bind_Ok _ _ _ _ _ Hload). cbn [ret].
    eexists _, _. split; [reflexivity |].
    apply (built_rewritten _ st st3 st4 _ B Hn); [| exact Hshape].
    intros a Ha. apply Hframe.
    destruct B as (_ & _ & Hf & _). apply (fresh_not_below st st3 _ a Hf Ha).
  - unfold bind at 1. cbn [ret]. eexists _, _. split; [reflexivity | exact B].
Qed.

(** What a constructor builds is what it builds from the empty store. *)
Lemma constructs_arch (c : M pstore module) (spec : module) (st st' : pstore)
    (m : module) :
  constructs c spec -> c st = (Ok m, st') -> arch m = spec.
Proof.
  intros Hc Hrun. destruct (Hc st) as (m' & st'' & Hrun' & Ha & _).
  rewrite Hrun in Hrun'. injection Hrun' as -> _. exact Ha.
Qed.

End TorchvisionFacts.

Section ExtractorFacts.
Import Torch.

Lemma constructs_mobilenet_v2 :
  constructs (torchvision.mobilenet_v2 true) mobilenet_arch.
Proof.
  destruct (constructs_mobilenet_v2_ex true) as [spec H].
  assert (Hs : spec = mobilenet_arch); [| rewrite <- Hs; exact H].
  destruct (H empty_store) as (m & st' & Hrun & Ha & _).
  rewrite <- Ha. vm_compute in Hrun. injection Hrun as <- _.
  vm_compute. reflexivity.
Qed.

(** The feature extractor that [__init__] sets up, from any store. *)
Lemma extractor_init_run (is_training : arg bool) (num_layers : arg Z)
    (st : pstore) :
  exists fe st',
    SSDMobileNetV2FeatureExtractor.__init__ is_training num_layers st =
    (Ok (SSDMobileNetV2FeatureExtractor.Make true (arg_or is_training false)
           (arg_or num_layers 6) fe [32; 512; 512; 256; 256; 256]), st') /\
    built backbone_arch st fe st'.
Proof.
  unfold SSDMobileNetV2FeatureExtractor.__init__.
  destruct (constructs_mobilenet_v2 st) as (m & st' & Hrun & B).
  rewrite (bind_Ok _ _ _ _ _ Hrun). cbn [ret].
  eexists _, _. split; [reflexivity |].
  unfold mobilenet_arch in B.
  destruct m as [| | | | ms |]; try (destruct B as [Ha _]; discriminate Ha).
  apply (built_take 7) in B. exact B.
Qed.

Lemma new_extractor_run (is_training : arg bool) (num_layers : arg Z)
    (h : heap) :
  exists fe st',
    new_SSDMobileNetV2FeatureExtractor is_training num_layers h =
    (Ok (next_obj h),
     Heap st'
       (<[next_obj h :=
            SSDMobileNetV2FeatureExtractor.Make true (arg_or is_training false)
              (arg_or num_layers 6) fe [32; 512; 512; 256; 256; 256]]>
          (objs h))
       (S (next_obj h))) /\
    built backbone_arch (store h) fe st'.
Proof.
  destruct (extractor_init_run is_training num_layers (store h))
    as (fe & st' & Hrun & B).
  exists fe, st'. split; [| exact B].
  unfold new_SSDMobileNetV2FeatureExtractor, bind, on_store.
  rewrite Hrun. reflexivity.
Qed.

(** Executing the class definition creates the default backbone. *)
Lemma class_def_run (h : heap) :
  exists fe st',
    SSD300.class_def h =
    (Ok (SSD300.Class (next_obj h)),
     Heap st'
       (<[next_obj h :=
            SSDMobileNetV2FeatureExtractor.Make true false 6 fe
              [32; 512; 512; 256; 256; 256]]> (objs h))
       (S (next_obj h))) /\
    built backbone_arch (store h) fe st'.
Proof.
  destruct (new_extractor_run Default Default h) as (fe & st' & Hrun & B).
  exists fe, st'. split; [| exact B].
  unfold SSD300.class_def. rewrite (bind_Ok _ _ _ _ _ Hrun). reflexivity.
Qed.

End ExtractorFacts.

Lemma bind_assoc {S A B C} (c : M S A) (k1 : A -> M S B) (k2 : B -> M S C)
    (s : S) :
  bind (bind c k1) k2 s = bind c (fun a => bind (k1 a) k2) s.
Proof. unfold bind. destruct (c s) as [[a | e] s1]; reflexivity. Qed.

Lemma bind_ext {S A B} (c : M S A) (k k' : A -> M S B) (s : S) :
  (forall a s1, k a s1 = k' a s1) -> bind c k s = bind c k' s.
Proof.
  intros H. unfold bind. destruct (c s) as [[a | e] s1]; [apply H | reflexivity].
Qed.

Section LoopFacts.
Context {S A B : Type}.

Lemma foldM_app (f : B -> A -> M S B) (l1 l2 : list A) (b : B) (s : S) :
  foldM f (l1 ++ l2) b s = bind (foldM f l1 b) (foldM f l2) s.
Proof.
  revert b s. induction l1 as [| a l1 IH]; intros b s.
  - reflexivity.
  - cbn [app foldM]. rewrite bind_assoc. apply bind_ext. intros b' s1.
    apply IH.
Qed.

End LoopFacts.

Section ListFacts.

Lemma Forall_removelast {A} (P : A -> Prop) (l : list A) :
  Forall P l -> Forall P (removelast l).
Proof.
  induction 1 as [| a l Ha Hl IH]; [constructor |].
  cbn. destruct l; [constructor | constructor; assumption].
Qed.

Lemma Forall_tail {A} (P : A -> Prop) (l : list A) :
  Forall P l -> Forall P (tail l).
Proof. destruct 1; [constructor | assumption]. Qed.

Lemma Forall_zip3 {A B C} (P : A -> Prop) (Q : B -> Prop) (R : C -> Prop)
    (la : list A) (lb : list B) (lc : list C) :
  Forall P la -> Forall Q lb -> Forall R lc ->
  Forall (fun '(a, b, c) => P a /\ Q b /\ R c) (zip3 la lb lc).
Proof.
  intros Ha. revert lb lc.
  induction Ha as [| a la Pa _ IH]; intros lb lc Hb Hc; [constructor |].
  destruct Hb as [| b lb Qb Hb]; [constructor |].
  destruct Hc as [| c lc Rc Hc]; [constructor |].
  cbn. constructor; auto.
Qed.

Lemma Forall_enumerate_from {A} (P : A -> Prop) (l : list A) :
  Forall P l -> forall i, Forall (fun '(_, a) => P a) (enumerate_from i l).
Proof.
  induction 1 as [| a l Ha _ IH]; intros i; cbn; constructor; auto.
Qed.

Lemma Forall_zip_pair {A B} (P : A -> Prop) (Q : B -> Prop)
    (la : list A) (lb : list B) :
  Forall P la -> Forall Q lb ->
  Forall (fun '(a, b) => P a /\ Q b) (zip la lb).
Proof.
  intros Ha. revert lb.
  induction Ha as [| a la Pa _ IH]; intros lb Hb; [constructor |].
  destruct Hb as [| b lb Qb Hb]; [constructor |].
  cbn. constructor; auto.
Qed.

End ListFacts.

(** ** What [SSD300.__init__] builds *)

Section SSD300Facts.
Import Torch.

Lemma constructs_feature_block (i a b c : Z) :
  0 <= a -> 0 <= b -> 0 <= c ->
  constructs (SSD300.feature_block i a b c) (block_arch i a b c).
Proof.
  intros Ha Hb Hc. unfold SSD300.feature_block, block_arch.
  assert (H1 : constructs (nn.Conv2d a c 1 1 0 1 false)
                 (Conv2d a c 1 1 0 1 0%nat None))
    by (apply (constructs_Conv2d _ _ _ _ _ _ false); rewrite ?Z.mod_1_r; lia).
  assert (H2 : constructs (nn.BatchNorm2d c) (BatchNorm2d c 0%nat 0%nat))
    by (apply constructs_BatchNorm2d; lia).
  assert (H3 : forall s p, constructs (nn.Conv2d c b 3 s p 1 false)
                 (Conv2d c b 3 s p 1 0%nat None))
    by (intros; apply (constructs_Conv2d _ _ _ _ _ _ false);
        rewrite ?Z.mod_1_r; lia).
  assert (H4 : constructs (nn.BatchNorm2d b) (BatchNorm2d b 0%nat 0%nat))
    by (apply constructs_BatchNorm2d; lia).
  pose proof (constructs_ReLU true) as H5.
  destruct (i <? 3); apply constructs_Sequential;
    repeat (first [apply List.Forall2_nil | apply List.Forall2_cons]);
    first [exact H1 | exact H2 | apply H3 | exact H4 | exact H5].
Qed.

(** The loop of [_build_feature_layers], from any accumulator. *)
Lemma build_feature_layers_from (l : list (Z * (Z * Z * Z))) :
  Forall block_args_ok l ->
  forall acc specs st0 st,
  built (Sequential specs) st0 (Sequential acc) st ->
  exists ms st',
    foldM
      (fun feature_blocks '(i, (input_size, output_size, channels)) =>
         layer <- SSD300.feature_block i input_size output_size channels ;;
         ret (feature_blocks ++ [layer]))
      l acc st = (Ok ms, st') /\
    built
      (Sequential
         (specs ++ map (fun '(i, (a, b, c)) => block_arch i a b c) l))
      st0 (Sequential ms) st'.
Proof.
  induction 1 as [| [i [[a b] c]] l (Ha & Hb & Hc) _ IH];
    intros acc specs st0 st Bacc.
  - exists acc, st. split; [reflexivity |]. cbn [map]. rewrite app_nil_r.
    exact Bacc.
  - cbn [foldM map]. rewrite bind_assoc.
    apply (step_constructs _ _ _ st0 st _
             (constructs_feature_block i a b c Ha Hb Hc)
             (built_extends _ _ _ _ Bacc)).
    intros m st1 Bm E1. cbn [ret]. unfold bind at 1.
    destruct (IH (acc ++ [m]) (specs ++ [block_arch i a b c]) st0 st1)
      as (ms & st' & Hrun & B).
    { apply built_app; [apply (built_stable _ _ _ _ _ Bacc E1) |].
      apply built_cons; [exact Bm |].
      apply built_nil, (built_extends _ _ _ _ Bm). }
    exists ms, st'. split; [exact Hrun |].
    rewrite <- app_assoc in B. exact B.
Qed.

Lemma constructs_build_feature_layers (out_channels : list Z) :
  Forall (fun n => 0 <= n) out_channels ->
  constructs_list (SSD300._build_feature_layers out_channels)
    (blocks_arch out_channels).
Proof.
  intros H st. unfold SSD300._build_feature_layers, blocks_arch.
  apply (build_feature_layers_from _) with (specs := []) (st0 := st).
  - unfold enumerate.
    assert (Hz : Forall (fun '(a, b, c) => 0 <= a /\ 0 <= b /\ 0 <= c)
                   (zip3 (removelast out_channels) (tail out_channels)
                      [256; 256; 128; 128; 128])).
    { apply Forall_zip3;
        [apply Forall_removelast, H | apply Forall_tail, H |].
      repeat constructor; lia. }
    eapply Forall_impl; [apply (Forall_enumerate_from _ _ Hz 0) |].
    intros [i [[a b] c]]. cbn. auto.
  - apply built_nil, extends_refl.
Qed.

End SSD300Facts.

Section HeadFacts.
Import Torch.

Lemma constructs_head (k nd oc : Z) :
  0 <= nd -> 0 <= oc -> 0 <= k ->
  constructs (nn.Conv2d oc (nd * k) 3 1 1 1 true) (head_arch k (nd, oc)).
Proof.
  intros Hnd Hoc Hk. unfold head_arch. cbn [fst snd].
  apply (constructs_Conv2d _ _ _ _ _ _ true); rewrite ?Z.mod_1_r; lia.
Qed.

(** The loop of [__init__] over the scales, from any accumulators. *)
Lemma build_heads_from (num_classes : Z) (l : list (Z * Z)) :
  0 <= num_classes ->
  Forall (fun '(nd, oc) => 0 <= nd /\ 0 <= oc) l ->
  forall loc conf lspecs cspecs st0 st,
  built (Sequential lspecs) st0 (Sequential loc) st ->
  built (Sequential cspecs) st0 (Sequential conf) st ->
  exists loc' conf' st',
    foldM
      (fun '(loc, conf) '(nd, oc) =>
         l <- nn.Conv2d oc (nd * 4) 3 1 1 1 true ;;
         c <- nn.Conv2d oc (nd * num_classes) 3 1 1 1 true ;;
         ret (loc ++ [l], conf ++ [c]))
      l (loc, conf) st = (Ok (loc', conf'), st') /\
    built (Sequential (lspecs ++ map (head_arch 4) l)) st0 (Sequential loc') st' /\
    built (Sequential (cspecs ++ map (head_arch num_classes) l)) st0
      (Sequential conf') st'.
Proof.
  intros Hnc. induction 1 as [| [nd oc] l [Hnd Hoc] _ IH];
    intros loc conf lspecs cspecs st0 st Bl Bc.
  - exists loc, conf, st. cbn [map]. rewrite !app_nil_r. auto.
  - cbn [foldM map]. rewrite bind_assoc.
    destruct (constructs_head 4 nd oc Hnd Hoc ltac:(lia) st)
      as (m1 & st1 & Hrun1 & B1).
    rewrite (bind_Ok _ _ _ _ _ Hrun1). rewrite bind_assoc.
    destruct (constructs_head num_classes nd oc Hnd Hoc Hnc st1)
      as (m2 & st2 & Hrun2 & B2).
    rewrite (bind_Ok _ _ _ _ _ Hrun2). cbn [ret]. unfold bind at 1.
    pose proof (built_extends _ _ _ _ B1) as E1.
    pose proof (built_extends _ _ _ _ B2) as E2.
    pose proof (built_extends _ _ _ _ Bl) as E0.
    destruct (IH (loc ++ [m1]) (conf ++ [m2])
                (lspecs ++ [head_arch 4 (nd, oc)])
                (cspecs ++ [head_arch num_classes (nd, oc)]) st0 st2)
      as (loc' & conf' & st' & Hrun & Bl' & Bc').
    { apply built_app.
      - apply (built_stable _ _ _ _ _ Bl), (extends_trans _ st1); assumption.
      - apply built_cons.
        + apply (built_later _ st0 st st1 st2); assumption.
        + apply built_nil. eauto using extends_trans. }
    { apply built_app.
      - apply (built_stable _ _ _ _ _ Bc), (extends_trans _ st1); assumption.
      - apply built_cons.
        + apply (built_later _ st0 st1 st2 st2);
            eauto using extends_trans, extends_refl.
        + apply built_nil. eauto using extends_trans. }
    exists loc', conf', st'. split; [exact Hrun |].
    rewrite <- !app_assoc in Bl', Bc'. auto.
Qed.

Lemma build_heads_run (num_defaults out_channels : list Z) (num_classes : Z)
    (st : pstore) :
  0 <= num_classes ->
  Forall (fun n => 0 <= n) num_defaults ->
  Forall (fun n => 0 <= n) out_channels ->
  exists loc conf st',
    SSD300.build_heads num_defaults out_channels num_classes st =
    (Ok (loc, conf), st') /\
    built (Sequential (heads_arch 4 num_defaults out_channels)) st
      (Sequential loc) st' /\
    built (Sequential (heads_arch num_classes num_defaults out_channels)) st
      (Sequential conf) st'.
Proof.
  intros Hnc Hnd Hoc. unfold SSD300.build_heads, heads_arch.
  apply (build_heads_from num_classes _ Hnc) with (lspecs := []) (cspecs := []).
  - apply Forall_zip_pair; assumption.
  - apply built_nil, extends_refl.
  - apply built_nil, extends_refl.
Qed.

End HeadFacts.

Section InitWeightsFacts.
Import Torch.

(** The body of the inner loop of [_init_weights]. *)
Let init_param : unit -> addr -> M pstore unit :=
  fun _ param =>
    p <- get_param param ;;
    if 1 <? dim p then SSD300.xavier_uniform_ param else ret tt.

Lemma xavier_uniform_run (a : addr) (st : pstore) (p : parameter) :
  params st !! a = Some p ->
  1 < dim p ->
  fan_sum (p_shape p) <> 0 ->
  SSD300.xavier_uniform_ a st =
  (Ok tt, write a (Param (p_shape p) (XavierUniform (draws st))) (tick st)).
Proof.
  intros H Hd Hf. unfold SSD300.xavier_uniform_, bind at 1, get_param.
  rewrite H. unfold fan_sum in Hf. unfold dim in Hd.
  destruct (p_shape p) as [| o [| i rest]] eqn:Hs; cbn [length] in Hd; try lia.
  cbn [SSD300._calculate_fan_in_and_fan_out] in Hf |- *.
  unfold bind at 1, lift_result.
  apply Z.eqb_neq in Hf. rewrite Hf.
  unfold bind at 1, draw.
  rewrite (set_data_run a _ (tick st) p) by exact H. rewrite Hs. reflexivity.
Qed.

(** One step of the loop: only [a] can change, and only when it has more
    than one dimension. *)
Lemma init_param_run (a : addr) (st : pstore) (p : parameter) :
  params st !! a = Some p ->
  (1 < dim p -> fan_sum (p_shape p) <> 0) ->
  exists st1,
    init_param tt a st = (Ok tt, st1) /\
    next st1 = next st /\
    (forall x, x <> a -> params st1 !! x = params st !! x) /\
    (if 1 <? dim p
     then exists n, params st1 !! a = Some (Param (p_shape p) (XavierUniform n))
     else params st1 !! a = Some p).
Proof.
  intros H Hf. unfold init_param, bind at 1, get_param. rewrite H.
  destruct (1 <? dim p) eqn:Hd.
  - apply Z.ltb_lt in Hd.
    rewrite (xavier_uniform_run a st p H Hd (Hf Hd)).
    eexists. split; [reflexivity |].
    split; [reflexivity |]. split.
    + intros x Hx. cbn. apply lookup_insert_ne. congruence.
    + eexists. cbn. apply lookup_insert_eq.
  - exists st. auto.
Qed.

Lemma init_params_run (ps : list addr) :
  forall st,
  Forall (initialisable st) ps ->
  exists st',
    foldM init_param ps tt st = (Ok tt, st') /\ xavier_applied ps st st'.
Proof.
  induction ps as [| a ps IH]; intros st Hall.
  - exists st. split; [reflexivity |]. split; [reflexivity |].
    intros a. destruct (params st !! a); reflexivity.
  - inversion Hall as [| ? ? Hp Hall']; subst. destruct Hp as (p & Hp & Hf).
    destruct (init_param_run a st p Hp Hf)
      as (st1 & Hrun1 & Hn1 & Hother & Hself).
    cbn [foldM]. rewrite (bind_Ok _ _ _ _ _ Hrun1).
    destruct (IH st1) as (st' & Hrun & Hn & Hrel).
    { eapply Forall_impl; [exact Hall' |]. cbn. intros x (q & Hq & Hfq).
      destruct (decide (x = a)) as [-> | Hne].
      - rewrite Hp in Hq. injection Hq as <-. unfold initialisable.
        destruct (1 <? dim p); [destruct Hself as [n Hself] |];
          rewrite Hself; eexists; (split; [reflexivity | exact Hf]).
      - exists q. rewrite Hother by exact Hne. auto. }
    exists st'. split; [exact Hrun |]. split; [congruence |].
    intros x. specialize (Hrel x).
    destruct (decide (x = a)) as [-> | Hne].
    + rewrite Hp. rewrite bool_decide_eq_true_2 by set_solver. cbn [andb].
      destruct (1 <? dim p) eqn:Hd.
      * destruct Hself as [n Hself]. rewrite Hself in Hrel.
        cbn [p_shape] in Hrel.
        destruct (bool_decide (a ∈ ps) && (1 <? dim (Param (p_shape p) (XavierUniform n))));
          eauto.
      * rewrite Hself in Hrel. rewrite Hd, andb_false_r in Hrel. exact Hrel.
    + rewrite Hother in Hrel by exact Hne.
      destruct (params st !! x) as [q |]; [| exact Hrel].
      replace (bool_decide (x ∈ a :: ps)) with (bool_decide (x ∈ ps));
        [exact Hrel |].
      apply bool_decide_ext. rewrite elem_of_cons. intuition congruence.
Qed.

(** The two nested loops walk over the parameters of the layers in
    order. *)
Lemma init_weights_flat (layers : list module) (st : pstore) :
  foldM (fun _ layer => foldM init_param (parameters layer) tt) layers tt st =
  foldM init_param (flat_map parameters layers) tt st.
Proof.
  revert st. induction layers as [| l ls IH]; intros st; [reflexivity |].
  cbn [foldM flat_map]. rewrite foldM_app. apply bind_ext.
  intros [] s1. apply IH.
Qed.

Lemma init_weights_run (self : SSD300.t) (st : pstore) :
  Forall (initialisable st) (touched self) ->
  exists st',
    SSD300._init_weights self st = (Ok tt, st') /\
    xavier_applied (touched self) st st'.
Proof.
  intros H. unfold SSD300._init_weights.
  change (foldM _ ?l tt st) with
    (foldM (fun _ layer => foldM init_param (parameters layer) tt) l tt st).
  rewrite init_weights_flat. apply init_params_run, H.
Qed.

(** Whatever the outcome, [_init_weights] writes nowhere else. *)
Lemma xavier_applied_shape (ps : list addr) (st st' : pstore) :
  xavier_applied ps st st' ->
  forall a s d, params st !! a = Some (Param s d) ->
                exists d', params st' !! a = Some (Param s d').
Proof.
  intros [_ H] a s d Ha. specialize (H a). rewrite Ha in H.
  cbn [p_shape] in H.
  destruct (bool_decide (a ∈ ps) && _); [destruct H as [n H] |]; eauto.
Qed.

Lemma xavier_applied_frame (ps : list addr) (st st' : pstore) (a : addr) :
  xavier_applied ps st st' -> a ∉ ps -> params st' !! a = params st !! a.
Proof.
  intros [_ H] Ha. specialize (H a).
  destruct (params st !! a) as [p |]; [| exact H].
  rewrite bool_decide_eq_false_2 in H by exact Ha. exact H.
Qed.

End InitWeightsFacts.

Section FanFacts.
Import Torch.

Lemma param_shapes_arch (m : module) :
  map snd (param_shapes (arch m)) = map snd (param_shapes m).
Proof.
  induction m using module_induction; try reflexivity.
  - cbn. destruct b; reflexivity.
  - cbn [arch param_shapes]. induction H as [| m ms Hm _ IH]; [reflexivity |].
    cbn [map flat_map]. rewrite !map_app, Hm, IH. reflexivity.
  - exact IHm.
Qed.

Lemma xavier_ready_arch (m : module) : xavier_ready (arch m) -> xavier_ready m.
Proof. unfold xavier_ready. rewrite param_shapes_arch. auto. Qed.

Lemma xavier_ready_Sequential (ms : list module) :
  Forall xavier_ready ms -> xavier_ready (Sequential ms).
Proof.
  unfold xavier_ready. cbn [param_shapes].
  induction 1 as [| m ms Hm _ IH]; cbn [flat_map map]; [constructor |].
  rewrite map_app, Forall_app. auto.
Qed.

(** Stored parameters of a module that is ready can all be initialised. *)
Lemma stored_initialisable (st : pstore) (m : module) :
  stored st m -> xavier_ready m -> Forall (initialisable st) (parameters m).
Proof.
  unfold stored, xavier_ready. rewrite <- parameters_param_shapes.
  induction (param_shapes m) as [| [a sh] l IH]; cbn [map fst snd];
    intros Hs Hr; [constructor |].
  inversion Hs as [| ? ? Hd Hs']; subst.
  inversion Hr as [| ? ? Hf Hr']; subst.
  constructor; [| auto].
  cbn in Hd. destruct Hd as [d Hd]. exists (Param sh d).
  split; [exact Hd | exact Hf].
Qed.

(** The convolutions of an extra block have a positive number of middle
    channels, so their fans are never both 0. *)
Lemma xavier_ready_block_arch (i a b c : Z) :
  0 <= a -> 0 <= b -> 0 < c -> xavier_ready (block_arch i a b c).
Proof.
  intros Ha Hb Hc. unfold xavier_ready, block_arch.
  cbn [param_shapes flat_map app map snd].
  repeat constructor; unfold fan_sum; cbn; rewrite ?Z.div_1_r; lia.
Qed.

(** The fans of a head are both 0 only for no input channel and no
    class. *)
Lemma xavier_ready_head_arch (k nd oc : Z) :
  0 < nd -> 0 <= oc -> 0 <= k -> 0 < k \/ 0 < oc ->
  xavier_ready (head_arch k (nd, oc)).
Proof.
  intros Hnd Hoc Hk Hpos. unfold xavier_ready, head_arch.
  cbn [param_shapes map fst snd].
  repeat constructor; unfold fan_sum; cbn; rewrite ?Z.div_1_r;
    intros Hdim; try lia; nia.
Qed.

Lemma xavier_ready_blocks (ocs : list Z) :
  Forall (fun n => 0 <= n) ocs ->
  xavier_ready (Sequential (blocks_arch ocs)).
Proof.
  intros H. apply xavier_ready_Sequential. unfold blocks_arch, enumerate.
  assert (Hz : Forall (fun '(a, b, c) => 0 <= a /\ 0 <= b /\ 0 < c)
                 (zip3 (removelast ocs) (tail ocs) [256; 256; 128; 128; 128])).
  { apply Forall_zip3;
      [apply Forall_removelast, H | apply Forall_tail, H |].
    repeat constructor; lia. }
  generalize 0 at 1.
  induction Hz as [| [[a b] c] l (Ha & Hb & Hc) _ IH]; intros i;
    cbn [enumerate_from map]; constructor; [| apply IH].
  apply xavier_ready_block_arch; assumption.
Qed.

Lemma xavier_ready_heads (k : Z) (ocs : list Z) :
  0 <= k ->
  Forall (fun n => 0 <= n) ocs ->
  0 < k \/ Forall (fun n => 0 < n) ocs ->
  xavier_ready (Sequential (heads_arch k [4; 6; 6; 6; 4; 4] ocs)).
Proof.
  intros Hk Hoc Hpos. apply xavier_ready_Sequential. unfold heads_arch.
  assert (Hq : Forall (fun oc => 0 <= oc /\ (0 < k \/ 0 < oc)) ocs).
  { destruct Hpos as [Hpos | Hpos].
    - eapply Forall_impl; [exact Hoc |]. cbn. auto.
    - eapply Forall_impl; [exact Hpos |]. cbn. intros oc Hlt. split; [lia | auto]. }
  assert (Hz : Forall (fun '(nd, oc) =>
                         0 < nd /\ (0 <= oc /\ (0 < k \/ 0 < oc)))
                 (zip [4; 6; 6; 6; 4; 4] ocs)).
  { apply Forall_zip_pair; [repeat constructor; lia | exact Hq]. }
  induction Hz as [| [nd oc] l (Hnd & Ho & Hp) _ IH]; cbn [map];
    constructor; [| exact IH].
  apply xavier_ready_head_arch; assumption.
Qed.

End FanFacts.

Section InitFacts.
Import Torch.

Lemma on_store_run {A} (c : M pstore A) (h : heap) (r : result A)
    (st' : pstore) :
  c (store h) = (r, st') ->
  on_store c h = (r, Heap st' (objs h) (next_obj h)).
Proof. intros H. unfold on_store. rewrite H. reflexivity. Qed.

Lemma get_object_run (a : addr) (h : heap)
    (e : SSDMobileNetV2FeatureExtractor.t) :
  objs h !! a = Some e -> get_object a h = (Ok e, h).
Proof. intros H. unfold get_object. rewrite H. reflexivity. Qed.

(** A run of [SSD300.__init__] on a backbone with non-negative channel
    counts, when no head has both no input channel and no class (its
    weight could not be initialised): it returns, the extra blocks and the
    heads are new modules of
    the architectures the channel counts give, and the store it leaves is
    the store after construction with Xavier initialisation applied over
    the blocks and the heads.  The objects of the heap are untouched. *)
Lemma ssd300_init_run (cls : SSD300.class) (backbone : arg addr)
    (num_classes : arg Z) (weights : arg (option string)) (h : heap)
    (e : SSDMobileNetV2FeatureExtractor.t) :
  objs h !! arg_or backbone (SSD300.default_backbone cls) = Some e ->
  Forall (fun n => 0 <= n) (SSDMobileNetV2FeatureExtractor.out_channels e) ->
  0 <= arg_or num_classes 81 ->
  0 < arg_or num_classes 81 \/
    Forall (fun n => 0 < n) (SSDMobileNetV2FeatureExtractor.out_channels e) ->
  exists blocks loc conf st1 st',
    let self :=
      SSD300.Make true [3; 300; 300] (arg_or num_classes 81)
        (arg_or backbone (SSD300.default_backbone cls))
        blocks [4; 6; 6; 6; 4; 4] loc conf in
    SSD300.__init__ cls backbone num_classes weights h =
      (Ok self, Heap st' (objs h) (next_obj h)) /\
    built
      (Sequential (blocks_arch (SSDMobileNetV2FeatureExtractor.out_channels e)))
      (store h) (Sequential blocks) st1 /\
    built
      (Sequential
         (heads_arch 4 [4; 6; 6; 6; 4; 4]
            (SSDMobileNetV2FeatureExtractor.out_channels e)))
      (store h) (Sequential loc) st1 /\
    built
      (Sequential
         (heads_arch (arg_or num_classes 81) [4; 6; 6; 6; 4; 4]
            (SSDMobileNetV2FeatureExtractor.out_channels e)))
      (store h) (Sequential conf) st1 /\
    xavier_applied (touched self) st1 st' /\
    SSD300._init_weights self st1 = (Ok tt, st').
Proof.
  intros He Hoc Hnc Hfan.
  set (ocs := SSDMobileNetV2FeatureExtractor.out_channels e) in *.
  destruct (constructs_build_feature_layers ocs Hoc (store h))
    as (blocks & sta & Hrun1 & B1).
  destruct (build_heads_run [4; 6; 6; 6; 4; 4] ocs (arg_or num_classes 81) sta
              Hnc ltac:(repeat constructor; lia) Hoc)
    as (loc & conf & st1 & Hrun2 & B2 & B3).
  pose proof (built_extends _ _ _ _ B1) as E1.
  pose proof (built_extends _ _ _ _ B2) as E2.
  set (self := SSD300.Make true [3; 300; 300] (arg_or num_classes 81)
                 (arg_or backbone (SSD300.default_backbone cls))
                 blocks [4; 6; 6; 6; 4; 4] loc conf).
  assert (B1' : built (Sequential (blocks_arch ocs)) (store h)
                  (Sequential blocks) st1)
    by (apply (built_stable _ _ _ _ _ B1 E2)).
  assert (B2' : built (Sequential (heads_arch 4 [4; 6; 6; 6; 4; 4] ocs))
                  (store h) (Sequential loc) st1)
    by (apply (built_later _ (store h) sta st1 st1);
        auto using extends_refl).
  assert (B3' : built
                  (Sequential
                     (heads_arch (arg_or num_classes 81) [4; 6; 6; 6; 4; 4] ocs))
                  (store h) (Sequential conf) st1)
    by (apply (built_later _ (store h) sta st1 st1);
        auto using extends_refl).
  destruct (init_weights_run self st1) as (st' & Hrun3 & Hx).
  { unfold touched. cbn [SSD300.feature_blocks SSD300.loc SSD300.conf self].
    rewrite !flat_map_app, !Forall_app.
    destruct B1' as (A1 & _ & _ & S1).
    destruct B2' as (A2 & _ & _ & S2).
    destruct B3' as (A3 & _ & _ & S3).
    repeat split.
    - apply (stored_initialisable st1 (Sequential blocks) S1).
      apply xavier_ready_arch. rewrite A1. apply xavier_ready_blocks, Hoc.
    - apply (stored_initialisable st1 (Sequential loc) S2).
      apply xavier_ready_arch. rewrite A2.
      apply xavier_ready_heads; [lia | exact Hoc | left; lia].
    - apply (stored_initialisable st1 (Sequential conf) S3).
      apply xavier_ready_arch. rewrite A3.
      apply xavier_ready_heads; assumption. }
  exists blocks, loc, conf, st1, st'. cbn zeta. fold self.
  split; [| auto].
  unfold SSD300.__init__. cbv zeta.
  rewrite (bind_Ok _ _ _ _ _ (get_object_run _ h e He)).
  rewrite (bind_Ok _ _ _ _ _ (on_store_run _ h _ _ Hrun1)).
  rewrite (bind_Ok _ _ _ _ _
             (get_object_run _ (Heap sta (objs h) (next_obj h)) e He)).
  rewrite (bind_Ok _ _ _ _ _
             (on_store_run _ (Heap sta (objs h) (next_obj h)) _ _ Hrun2)).
  cbn [fst snd]. fold self.
  rewrite (bind_Ok _ _ _ _ _
             (on_store_run _ (Heap st1 (objs h) (next_obj h)) _ _ Hrun3)).
  reflexivity.
Qed.

End InitFacts.

(** ** The shape semantics of the layers *)

Section ShapeFacts.
Import Torch.

Lemma conv_out_run (n k s p : Z) :
  0 < s -> k <= n + 2 * p ->
  conv_out n k s p = Ok ((n + 2 * p - k) / s + 1).
Proof.
  intros Hs Hk. unfold conv_out.
  replace (s <=? 0) with false by (symmetry; apply Z.leb_gt; lia).
  replace (n + 2 * p <? k) with false by (symmetry; apply Z.ltb_ge; lia).
  reflexivity.
Qed.

Lemma conv2d_shape_run (cin cout k s p n h w : Z) :
  0 < s -> k <= h + 2 * p -> k <= w + 2 * p ->
  conv2d_shape cin cout k s p [n; cin; h; w] =
  Ok [n; cout; (h + 2 * p - k) / s + 1; (w + 2 * p - k) / s + 1].
Proof.
  intros Hs Hh Hw. unfold conv2d_shape. rewrite Z.eqb_refl. cbn [negb].
  rewrite !conv_out_run by assumption. reflexivity.
Qed.

(** A 1x1 convolution keeps the spatial size. *)
Lemma conv1x1_shape (cin cout n h w : Z) :
  1 <= h -> 1 <= w ->
  conv2d_shape cin cout 1 1 0 [n; cin; h; w] = Ok [n; cout; h; w].
Proof.
  intros Hh Hw. rewrite conv2d_shape_run by lia.
  rewrite !Z.div_1_r. repeat f_equal; lia.
Qed.

(** A 3x3 convolution with padding 1 and stride 1 keeps the spatial size. *)
Lemma conv3x3_same_shape (cin cout n h w : Z) :
  1 <= h -> 1 <= w ->
  conv2d_shape cin cout 3 1 1 [n; cin; h; w] = Ok [n; cout; h; w].
Proof.
  intros Hh Hw. rewrite conv2d_shape_run by lia.
  rewrite !Z.div_1_r. repeat f_equal; lia.
Qed.

(** A 3x3 convolution with padding 1 and stride 2 halves the spatial size,
    rounding up. *)
Lemma conv3x3_half_shape (cin cout n h w : Z) :
  1 <= h -> 1 <= w ->
  conv2d_shape cin cout 3 2 1 [n; cin; h; w] =
  Ok [n; cout; (h + 1) / 2; (w + 1) / 2].
Proof.
  intros Hh Hw. rewrite conv2d_shape_run by lia.
  replace (h + 2 * 1 - 3) with (h + 1 + (-1) * 2) by lia.
  replace (w + 2 * 1 - 3) with (w + 1 + (-1) * 2) by lia.
  rewrite !Z.div_add by lia. repeat f_equal; lia.
Qed.

(** A 3x3 convolution without padding, stride 1, takes 2 off the spatial
    size. *)
Lemma conv3x3_valid_shape (cin cout n h w : Z) :
  3 <= h -> 3 <= w ->
  conv2d_shape cin cout 3 1 0 [n; cin; h; w] = Ok [n; cout; h - 2; w - 2].
Proof.
  intros Hh Hw. rewrite conv2d_shape_run by lia.
  rewrite !Z.div_1_r. repeat f_equal; lia.
Qed.

Lemma batch_norm2d_shape_run (training : bool) (c n h w : Z) :
  training = false \/ n * (h * w) <> 1 ->
  batch_norm2d_shape training c [n; c; h; w] = Ok [n; c; h; w].
Proof.
  intros H. unfold batch_norm2d_shape.
  replace (training && (n * (h * w) =? 1)) with false.
  - rewrite Z.eqb_refl. reflexivity.
  - symmetry. destruct H as [-> | H]; [reflexivity |].
    apply andb_false_iff. right. apply Z.eqb_neq, H.
Qed.

(** With two samples or more, batch norm in training mode is never short of
    values. *)
Lemma batch_ok (training : bool) (n h w : Z) :
  training = false \/ 2 <= n ->
  training = false \/ n * (h * w) <> 1.
Proof.
  intros [H | H]; [left; exact H | right].
  generalize (h * w). intros k Hk.
  assert (Hc : k <= 0 \/ 1 <= k) by lia. destruct Hc; nia.
Qed.

(** The extra feature block [i] on a feature map: blocks 0 to 2 halve the
    spatial size rounding up, blocks 3 and 4 take 2 off. *)
Lemma block_arch_shape (training : bool) (i a b c n h w : Z) :
  training = false \/ 2 <= n ->
  1 <= h -> 1 <= w ->
  (i < 3 \/ (3 <= h /\ 3 <= w)) ->
  shape_call training (block_arch i a b c) [n; a; h; w] =
  Ok (if i <? 3 then [n; b; (h + 1) / 2; (w + 1) / 2]
      else [n; b; h - 2; w - 2]).
Proof.
  intros Hn Hh Hw Hi. unfold block_arch.
  cbn [shape_call rfold]. rewrite conv1x1_shape by assumption.
  cbn [rbind]. rewrite batch_norm2d_shape_run by (apply batch_ok, Hn).
  cbn [rbind]. destruct (i <? 3) eqn:Hlt.
  - rewrite conv3x3_half_shape by assumption. cbn [rbind].
    rewrite batch_norm2d_shape_run by (apply batch_ok, Hn). reflexivity.
  - apply Z.ltb_ge in Hlt. destruct Hi as [Hi | [Hh3 Hw3]]; [lia |].
    rewrite conv3x3_valid_shape by assumption. cbn [rbind].
    rewrite batch_norm2d_shape_run by (apply batch_ok, Hn). reflexivity.
Qed.

(** A prediction head keeps the spatial size and has [nd * k] output
    channels. *)
Lemma head_arch_shape (training : bool) (k nd oc n h w : Z) :
  1 <= h -> 1 <= w ->
  shape_call training (head_arch k (nd, oc)) [n; oc; h; w] =
  Ok [n; nd * k; h; w].
Proof.
  intros Hh Hw. unfold head_arch. cbn [shape_call fst snd].
  apply conv3x3_same_shape; assumption.
Qed.

(** [view(n, k, -1)] of a feature map with [nd * k] channels. *)
Lemma shape_view_infer (n k nd h w : Z) :
  1 <= n -> 1 <= k ->
  shape_view [n; nd * k; h; w] [n; k; -1] = Ok [n; k; nd * (h * w)].
Proof.
  intros Hn Hk. unfold shape_view.
  assert (Hn1 : n <> -1) by lia. assert (Hk1 : k <> -1) by lia.
  cbn [existsb orb].
  replace (n <? -1) with false by (symmetry; apply Z.ltb_ge; lia).
  replace (k <? -1) with false by (symmetry; apply Z.ltb_ge; lia).
  cbn [orb Z.ltb Z.compare].
  rewrite !filter_cons.
  rewrite (decide_True (P := n <> -1)) by exact Hn1.
  rewrite (decide_True (P := k <> -1)) by exact Hk1.
  rewrite (decide_False (P := n = -1)) by exact Hn1.
  rewrite (decide_False (P := k = -1)) by exact Hk1.
  rewrite (decide_False (P := -1 <> -1)) by (intros H; apply H; reflexivity).
  rewrite (decide_True (P := -1 = -1)) by reflexivity.
  rewrite !filter_nil. cbn [length prodZ fold_right map].
  replace (n * (nd * k * (h * (w * 1)))) with (nd * (h * w) * (n * (k * 1)))
    by ring.
  replace (n * (k * 1) =? 0) with false by (symmetry; apply Z.eqb_neq; nia).
  rewrite Z.mod_mul by nia. cbn [Z.eqb].
  rewrite Z.div_mul by nia.
  replace (n =? -1) with false by (symmetry; apply Z.eqb_neq; lia).
  replace (k =? -1) with false by (symmetry; apply Z.eqb_neq; lia).
  reflexivity.
Qed.

(** [torch.cat] along axis 2 of tensors that agree on axes 0 and 1. *)
Lemma shape_cat_axis2 (n k m : Z) (ms : list Z) :
  shape_cat (map (fun x => [n; k; x]) (m :: ms)) 2 =
  Ok [n; k; fold_right Z.add 0 (m :: ms)].
Proof.
  unfold shape_cat. cbn [map length Z.of_nat Z.ltb Z.compare].
  change (Z.of_nat 3) with 3. cbn [Z.leb Z.compare orb Z.ltb Z.to_nat].
  change (Z.to_nat 2) with 2%nat.
  change (3 <=? 2) with false. cbv iota.
  match goal with
  | |- context [forallb ?f ?l] => assert (Hall : forallb f l = true)
  end.
  { apply forallb_forall. intros y Hy. apply bool_decide_eq_true_2.
    destruct Hy as [<- | Hy]; [reflexivity |].
    apply in_map_iff in Hy as (x & <- & _). reflexivity. }
  rewrite Hall. f_equal. cbn [list_insert insert]. f_equal. f_equal. f_equal.
  rewrite map_map. cbn [nth fold_right]. f_equal. clear Hall.
  induction ms as [| x l IH]; [reflexivity |].
  cbn [map fold_right]. rewrite IH. reflexivity.
Qed.

End ShapeFacts.

Section BatchFacts.
Import Torch.

(** In evaluation mode a module treats the batch axis uniformly: it keeps
    it, and the rest of the output shape does not depend on it. *)
Lemma shape_call_batch (m : module) :
  forall n sh y,
  shape_call false m (n :: sh) = Ok y ->
  exists sh', y = n :: sh' /\
              forall n', shape_call false m (n' :: sh) = Ok (n' :: sh').
Proof.
  induction m using module_induction; intros n sh y.
  - cbn [shape_call]. unfold conv2d_shape.
    destruct sh as [| c [| h [| wd [| ? ?]]]]; try discriminate.
    destruct (negb (c =? cin)); [discriminate |].
    destruct (conv_out h k s p) as [h' |]; [| discriminate].
    destruct (conv_out wd k s p) as [w' |]; [| discriminate].
    cbn [rbind]. intros [= <-]. eexists. split; reflexivity.
  - cbn [shape_call]. unfold batch_norm2d_shape.
    destruct sh as [| c' [| h [| wd [| ? ?]]]]; try discriminate.
    cbn [andb]. destruct (negb (c' =? c)); [discriminate |].
    intros [= <-]. eexists. split; reflexivity.
  - cbn [shape_call]. intros [= <-]. eexists. split; reflexivity.
  - cbn [shape_call]. intros [= <-]. eexists. split; reflexivity.
  - cbn [shape_call]. revert n sh y.
    induction H as [| m ms Hm _ IH]; intros n sh y.
    + cbn [rfold]. intros [= <-]. eexists. split; reflexivity.
    + cbn [rfold]. destruct (shape_call false m (n :: sh)) as [y1 |] eqn:E;
        [| discriminate].
      cbn [rbind]. apply Hm in E as (s1 & -> & Hn1). intros Hrest.
      apply IH in Hrest as (s' & -> & Hn').
      exists s'. split; [reflexivity |]. intros n'.
      rewrite Hn1. cbn [rbind]. apply Hn'.
  - cbn [shape_call].
    destruct (shape_call false m (n :: sh)) as [y1 |] eqn:E; [| discriminate].
    apply IHm in E as (s1 & -> & Hn1). cbn [rbind].
    destruct r.
    + unfold add_shape. case_bool_decide as Heq; [| discriminate].
      intros [= <-]. injection Heq as <-.
      exists sh. split; [reflexivity |]. intros n'. rewrite Hn1. cbn [rbind].
      rewrite bool_decide_eq_true_2 by reflexivity. reflexivity.
    + intros [= <-]. exists s1. split; [reflexivity |]. intros n'.
      rewrite Hn1. reflexivity.
Qed.

(** With two samples or more, training mode and evaluation mode give the
    same shapes. *)
Lemma shape_call_train (n : Z) (m : module) :
  2 <= n ->
  forall s, shape_call true m (n :: s) = shape_call false m (n :: s).
Proof.
  intros Hn. induction m using module_induction; intros s0;
    try reflexivity.
  - cbn [shape_call]. unfold batch_norm2d_shape.
    destruct s0 as [| c' [| h [| wd [| ? ?]]]]; try reflexivity.
    destruct (batch_ok true n h wd (or_intror Hn)) as [Hf | Hne];
      [discriminate |].
    apply Z.eqb_neq in Hne. rewrite Hne. reflexivity.
  - cbn [shape_call]. revert s0.
    induction H as [| m ms Hm _ IH]; intros s0; [reflexivity |].
    cbn [rfold]. rewrite Hm.
    destruct (shape_call false m (n :: s0)) as [y1 |] eqn:E; [| reflexivity].
    apply shape_call_batch in E as (s1 & -> & _). cbn [rbind]. apply IH.
  - cbn [shape_call]. rewrite IHm. reflexivity.
Qed.

(** The kept part of MobileNetV2 turns 300x300 images into 38x38 maps of 32
    channels, in either mode. *)
Lemma backbone_arch_shape (training : bool) (n : Z) :
  training = false \/ 1 <= n ->
  shape_call training backbone_arch [n; 3; 300; 300] = Ok [n; 32; 38; 38].
Proof.
  intros Hn.
  assert (E : shape_call false backbone_arch (1 :: [3; 300; 300])
              = Ok [1; 32; 38; 38]) by (vm_compute; reflexivity).
  apply shape_call_batch in E as (s' & Hs & Huni). injection Hs as <-.
  destruct training; [| apply Huni].
  destruct Hn as [Hn | Hn]; [discriminate |].
  destruct (Z.eq_dec n 1) as [-> | Hne].
  - vm_compute. reflexivity.
  - rewrite shape_call_train by lia. apply Huni.
Qed.

End BatchFacts.

(** ** The forward pass on shapes *)

Section ForwardFacts.
Import Torch.

(** The loop of [forward] over the extra blocks only sees architectures. *)
Lemma feed_loop_arch (theta : gmap addr parameter) (training : bool)
    (blocks : list module) :
  forall acc : shape * list shape,
  rfold
    (fun '(x, detection_feed) layer =>
       x <~ call theta training layer x ;;
       Ok (x, detection_feed ++ [x]))
    blocks acc =
  rfold
    (fun '(x, detection_feed) layer =>
       x <~ call theta training layer x ;;
       Ok (x, detection_feed ++ [x]))
    (map arch blocks) acc.
Proof.
  induction blocks as [| m ms IH]; intros [x feed]; [reflexivity |].
  cbn [map rfold call ShapeSemantics]. rewrite shape_call_arch.
  destruct (shape_call training m x); cbn [rbind]; [apply IH | reflexivity].
Qed.

(** The same for the comprehension of [bbox_view]. *)
Lemma bbox_rmap_arch (theta : gmap addr parameter) (training : bool)
    (k : Z) (src : list shape) :
  forall loc conf,
  rmap
    (fun '(s, l, c) =>
       ls <~ call theta training l s ;;
       n <~ SSD300.shape0 s ;;
       lv <~ view ls [n; 4; -1] ;;
       cs <~ call theta training c s ;;
       n <~ SSD300.shape0 s ;;
       cv <~ view cs [n; k; -1] ;;
       Ok (lv, cv))
    (zip3 src loc conf) =
  rmap
    (fun '(s, l, c) =>
       ls <~ call theta training l s ;;
       n <~ SSD300.shape0 s ;;
       lv <~ view ls [n; 4; -1] ;;
       cs <~ call theta training c s ;;
       n <~ SSD300.shape0 s ;;
       cv <~ view cs [n; k; -1] ;;
       Ok (lv, cv))
    (zip3 src (map arch loc) (map arch conf)).
Proof.
  induction src as [| s src IH]; intros loc conf; [reflexivity |].
  destruct loc as [| l loc]; [reflexivity |].
  destruct conf as [| c conf]; [reflexivity |].
  cbn [map zip3 rmap call ShapeSemantics]. rewrite !shape_call_arch.
  rewrite IH. reflexivity.
Qed.

(** One scale of [bbox_view]: the two heads, reshaped. *)
Lemma bbox_scale (training : bool) (k n nd oc h w : Z) :
  1 <= n -> 1 <= k -> 1 <= h -> 1 <= w ->
  (ls <~ shape_call training (head_arch 4 (nd, oc)) [n; oc; h; w] ;;
   n0 <~ SSD300.shape0 [n; oc; h; w] ;;
   lv <~ shape_view ls [n0; 4; -1] ;;
   cs <~ shape_call training (head_arch k (nd, oc)) [n; oc; h; w] ;;
   n1 <~ SSD300.shape0 [n; oc; h; w] ;;
   cv <~ shape_view cs [n1; k; -1] ;;
   Ok (lv, cv)) =
  Ok ([n; 4; nd * (h * w)], [n; k; nd * (h * w)]).
Proof.
  intros Hn Hk Hh Hw.
  rewrite !head_arch_shape by assumption.
  cbn [rbind SSD300.shape0 size ShapeSemantics].
  rewrite !shape_view_infer by lia. reflexivity.
Qed.

(** All scales: the comprehension of [bbox_view] on feature maps whose
    channel counts are those of the heads. *)
Lemma bbox_rmap_shapes (theta : gmap addr parameter) (training : bool)
    (k n : Z) (scales : list (Z * Z * (Z * Z))) :
  1 <= n -> 1 <= k ->
  Forall (fun '(_, (h, w)) => 1 <= h /\ 1 <= w) scales ->
  rmap
    (fun '(s, l, c) =>
       ls <~ call theta training l s ;;
       n <~ SSD300.shape0 s ;;
       lv <~ view ls [n; 4; -1] ;;
       cs <~ call theta training c s ;;
       n <~ SSD300.shape0 s ;;
       cv <~ view cs [n; k; -1] ;;
       Ok (lv, cv))
    (zip3 (map (fun '((_, oc), (h, w)) => [n; oc; h; w]) scales)
          (map (fun '(nd_oc, _) => head_arch 4 nd_oc) scales)
          (map (fun '(nd_oc, _) => head_arch k nd_oc) scales)) =
  Ok (map (fun '((nd, _), (h, w)) =>
             ([n; 4; nd * (h * w)], [n; k; nd * (h * w)])) scales).
Proof.
  intros Hn Hk. induction 1 as [| [[nd oc] [h w]] scales [Hh Hw] _ IH].
  - reflexivity.
  - cbn [map zip3 rmap]. cbn [call view ShapeSemantics].
    cbn [call view ShapeSemantics] in IH. rewrite IH.
    pose proof (bbox_scale training k n nd oc h w Hn Hk Hh Hw) as E.
    destruct (shape_call training (head_arch 4 (nd, oc)) [n; oc; h; w])
      as [ls |]; [| discriminate E].
    cbn [rbind] in E |- *.
    destruct (SSD300.shape0 [n; oc; h; w]) as [n0 |]; [| discriminate E].
    cbn [rbind] in E |- *.
    destruct (shape_view ls [n0; 4; -1]) as [lv |]; [| discriminate E].
    cbn [rbind] in E |- *.
    destruct (shape_call training (head_arch k (nd, oc)) [n; oc; h; w])
      as [cs |]; [| discriminate E].
    cbn [rbind] in E |- *.
    destruct (shape_view cs [n0; k; -1]) as [cv |]; [| discriminate E].
    cbn [rbind] in E |- *. injection E as -> ->. reflexivity.
Qed.

End ForwardFacts.

Section BboxFacts.
Import Torch.

Example num_boxes_ssd : num_boxes ssd_scales = 8732.
Proof. reflexivity. Qed.

(** [bbox_view] on the feature maps of a non-empty list of scales, for
    heads of the matching architectures. *)
Lemma bbox_view_scales (theta : gmap addr parameter) (self : SSD300.t)
    (n : Z) (scales : list (Z * Z * (Z * Z))) :
  1 <= n -> 1 <= SSD300.num_classes self ->
  scales <> [] ->
  Forall (fun '(_, (h, w)) => 1 <= h /\ 1 <= w) scales ->
  map arch (SSD300.loc self) =
    map (fun '(nd_oc, _) => head_arch 4 nd_oc) scales ->
  map arch (SSD300.conf self) =
    map (fun '(nd_oc, _) => head_arch (SSD300.num_classes self) nd_oc) scales ->
  SSD300.bbox_view theta self (scale_feed n scales)
    (SSD300.loc self) (SSD300.conf self) =
  Ok ([n; 4; num_boxes scales],
      [n; SSD300.num_classes self; num_boxes scales]).
Proof.
  intros Hn Hk Hne Hsc Hloc Hconf. unfold SSD300.bbox_view, scale_feed.
  rewrite bbox_rmap_arch, Hloc, Hconf.
  rewrite bbox_rmap_shapes by assumption. cbn [rbind].
  remember (map (fun '((nd, _), (h, w)) =>
                   ([n; 4; nd * (h * w)],
                    [n; SSD300.num_classes self; nd * (h * w)])) scales)
    as ret eqn:Hret.
  destruct ret as [| r0 ret'].
  { destruct scales; [contradiction | discriminate Hret]. }
  rewrite Hret. clear Hret r0 ret'.
  assert (Hl : forall c : Z,
            map fst (map (fun '((nd, _), (h, w)) =>
                            ([n; 4; nd * (h * w)], [n; c; nd * (h * w)]))
                         scales) =
            map (fun x => [n; 4; x])
                (map (fun '((nd, _), (h, w)) => nd * (h * w)) scales)).
  { intros c. rewrite !map_map. apply map_ext.
    intros [[? ?] [? ?]]. reflexivity. }
  assert (Hc : forall c : Z,
            map snd (map (fun '((nd, _), (h, w)) =>
                            ([n; 4; nd * (h * w)], [n; c; nd * (h * w)]))
                         scales) =
            map (fun x => [n; c; x])
                (map (fun '((nd, _), (h, w)) => nd * (h * w)) scales)).
  { intros c. rewrite !map_map. apply map_ext.
    intros [[? ?] [? ?]]. reflexivity. }
  cbn [cat contiguous ShapeSemantics]. rewrite Hl, Hc. unfold num_boxes.
  set (boxes := map (fun '((nd, _), (h, w)) => nd * (h * w)) scales).
  assert (Hb : exists m ms, boxes = m :: ms).
  { unfold boxes. destruct scales as [| sc scales]; [contradiction |].
    cbn [map]. eauto. }
  destruct Hb as (m & ms & ->).
  rewrite !shape_cat_axis2. reflexivity.
Qed.

End BboxFacts.

Section ModelFacts.
Import Torch.

Lemma built_list_arch (specs ms : list module) (st st' : pstore) :
  built (Sequential specs) st (Sequential ms) st' -> map arch ms = specs.
Proof. intros [Ha _]. cbn [arch] in Ha. injection Ha as Ha. exact Ha. Qed.

Lemma call_shape (theta : gmap addr parameter) (training : bool)
    (m : module) (x : shape) :
  call theta training m x = shape_call training m x.
Proof. reflexivity. Qed.

(** The feature maps of a standard detector on 300x300 images. *)
Lemma detection_feed_shapes (h : heap) (self : SSD300.t) (n : Z) :
  ssd_model h self ->
  1 <= n ->
  SSD300.training self = false \/ 2 <= n ->
  SSD300.detection_feed h self [n; 3; 300; 300] = Ok (scale_feed n ssd_scales).
Proof.
  intros (e & He & [Harch _] & Hblocks & _) Hn Htr.
  unfold SSD300.detection_feed, read_object. rewrite He. cbn [rbind].
  unfold SSDMobileNetV2FeatureExtractor.forward. rewrite call_shape.
  rewrite <- shape_call_arch, Harch.
  rewrite backbone_arch_shape by (right; exact Hn). cbn [rbind].
  rewrite feed_loop_arch, Hblocks. unfold blocks_arch.
  cbn [removelast tail zip3 enumerate enumerate_from map rfold].
  cbn [call ShapeSemantics].
  rewrite (block_arch_shape _ 0 32 512 256 n 38 38) by (auto; lia).
  cbn [rbind]. change ((38 + 1) / 2) with 19. cbn [Z.ltb Z.compare app].
  rewrite (block_arch_shape _ (0 + 1) 512 512 256 n 19 19) by (auto; lia).
  cbn [rbind]. change ((19 + 1) / 2) with 10. cbn [Z.ltb Z.compare Z.add app].
  rewrite (block_arch_shape _ (0 + 1 + 1) 512 256 128 n 10 10) by (auto; lia).
  cbn [rbind]. change ((10 + 1) / 2) with 5.
  change (0 + 1 + 1 <? 3) with true. cbn [app].
  rewrite (block_arch_shape _ (0 + 1 + 1 + 1) 256 256 128 n 5 5)
    by (auto; lia).
  cbn [rbind]. change (0 + 1 + 1 + 1 <? 3) with false.
  change (5 - 2) with 3. cbn [app].
  rewrite (block_arch_shape _ (0 + 1 + 1 + 1 + 1) 256 256 128 n 3 3)
    by (auto; lia).
  cbn [rbind]. change (0 + 1 + 1 + 1 + 1 <? 3) with false.
  change (3 - 2) with 1. reflexivity.
Qed.

(** The forward pass of a standard detector on 300x300 images. *)
Lemma forward_shapes (h : heap) (self : SSD300.t) (n : Z) :
  ssd_model h self ->
  1 <= SSD300.num_classes self ->
  1 <= n ->
  SSD300.training self = false \/ 2 <= n ->
  SSD300.forward h self [n; 3; 300; 300] =
  Ok ([n; 4; 8732], [n; SSD300.num_classes self; 8732]).
Proof.
  intros Hm Hk Hn Htr. unfold SSD300.forward.
  rewrite (detection_feed_shapes h self n Hm Hn Htr). cbn [rbind].
  destruct Hm as (e & _ & _ & _ & Hloc & Hconf).
  rewrite (bbox_view_scales _ self n ssd_scales); try assumption.
  - reflexivity.
  - discriminate.
  - unfold ssd_scales. repeat constructor; lia.
Qed.

(** [__init__] on a standard backbone returns a standard detector, in
    training mode. *)
Lemma ssd300_init_model (cls : SSD300.class) (backbone : arg addr)
    (num_classes : arg Z) (weights : arg (option string)) (h : heap)
    (e : SSDMobileNetV2FeatureExtractor.t) :
  objs h !! arg_or backbone (SSD300.default_backbone cls) = Some e ->
  is_backbone e ->
  0 <= arg_or num_classes 81 ->
  exists self h',
    SSD300.__init__ cls backbone num_classes weights h = (Ok self, h') /\
    ssd_model h' self /\
    objs h' = objs h /\
    SSD300.training self = true /\
    SSD300.num_classes self = arg_or num_classes 81 /\
    SSD300.feature_extractor self =
      arg_or backbone (SSD300.default_backbone cls).
Proof.
  intros He Hb Hnc. pose proof Hb as [_ Hoc].
  destruct (ssd300_init_run cls backbone num_classes weights h e He)
    as (blocks & loc & conf & st1 & st' & Hrun & B1 & B2 & B3 & _ & _);
    [rewrite Hoc; repeat constructor; lia | exact Hnc
    | right; rewrite Hoc; repeat constructor; lia |].
  cbv zeta in Hrun. rewrite Hoc in B1, B2, B3.
  eexists _, _. split; [exact Hrun |].
  split; [| cbn; auto].
  exists e. cbn. split; [exact He |]. split; [exact Hb |].
  split; [exact (built_list_arch _ _ _ _ B1) |].
  split; [exact (built_list_arch _ _ _ _ B2) |
          exact (built_list_arch _ _ _ _ B3)].
Qed.

(** [eval] switches a standard detector, and its backbone, to evaluation
    mode. *)
Lemma ssd300_eval_model (h : heap) (self : SSD300.t) :
  ssd_model h self ->
  exists self' h',
    SSD300.eval self h = (Ok self', h') /\
    ssd_model h' self' /\
    SSD300.training self' = false /\
    SSD300.num_classes self' = SSD300.num_classes self.
Proof.
  intros (e & He & [Harch Hoc] & Hbl & Hloc & Hconf).
  unfold SSD300.eval, SSD300.train.
  rewrite (bind_Ok _ _ _ _ _ (get_object_run _ h e He)).
  unfold bind, set_object, modify, ret.
  eexists _, _. split; [reflexivity |].
  split; [| cbn; auto].
  eexists. cbn. split; [apply lookup_insert_eq |].
  split; [split; assumption | auto].
Qed.

End ModelFacts.

(** * The claims about SSD300 *)

Section SSD300Claims.
Import Torch.

(** Importing the module into a fresh interpreter returns the class and
    leaves the default backbone in the heap. *)
Lemma imported_run : imported = (Ok imported_class, imported_heap).
Proof. vm_compute. reflexivity. Qed.

(** Every feature extractor the class builds is a standard backbone. *)
Lemma new_extractor_is_backbone (is_training : arg bool) (num_layers : arg Z)
    (h : heap) :
  exists a h' e,
    new_SSDMobileNetV2FeatureExtractor is_training num_layers h = (Ok a, h') /\
    objs h' !! a = Some e /\ is_backbone e.
Proof.
  destruct (new_extractor_run is_training num_layers h)
    as (fe & st' & Hrun & Ha & _).
  eexists _, _, _. split; [exact Hrun |]. cbn [objs].
  split; [apply lookup_insert_eq |]. split; [exact Ha | reflexivity].
Qed.

(** C1, as the code has it.  On a standard backbone (the default one
    included) and for every number of classes from 1 on,
    [SSD300(num_classes=...)] returns a detector whose forward pass maps an
    input of shape (N, 3, 300, 300) to locs of shape (N, 4, 8732) and confs
    of shape (N, num_classes, 8732) for every N >= 2; after [eval()] the
    same holds for every N >= 1.  8732 is the number of default boxes of
    the six scales. *)
Theorem SSD300_forward_shape (h : heap) (cls : SSD300.class)
    (backbone : arg addr) (num_classes : Z) (weights : arg (option string))
    (e : SSDMobileNetV2FeatureExtractor.t) :
  objs h !! arg_or backbone (SSD300.default_backbone cls) = Some e ->
  is_backbone e ->
  1 <= num_classes ->
  num_boxes ssd_scales = 8732 /\
  exists self h',
    SSD300.__init__ cls backbone (Given num_classes) weights h = (Ok self, h') /\
    (forall n, 2 <= n ->
       SSD300.forward h' self [n; 3; 300; 300] =
       Ok ([n; 4; 8732], [n; num_classes; 8732])) /\
    exists self' h'',
      SSD300.eval self h' = (Ok self', h'') /\
      forall n, 1 <= n ->
        SSD300.forward h'' self' [n; 3; 300; 300] =
        Ok ([n; 4; 8732], [n; num_classes; 8732]).
Proof.
  intros He Hb Hnc. split; [reflexivity |].
  destruct (ssd300_init_model cls backbone (Given num_classes) weights h e
              He Hb ltac:(cbn; lia))
    as (self & h' & Hrun & Hm & _ & Htr & Hk & _).
  cbn [arg_or] in Hk.
  exists self, h'. split; [exact Hrun |]. split.
  - intros n Hn. rewrite <- Hk. apply forward_shapes; auto; lia.
  - destruct (ssd300_eval_model h' self Hm)
      as (self' & h'' & Heval & Hm' & Htr' & Hk').
    exists self', h''. split; [exact Heval |].
    intros n Hn. rewrite <- Hk, <- Hk'. apply forward_shapes; auto; lia.
Qed.

Lemma SSD300_forward_shape_witness :
  num_boxes ssd_scales = 8732 /\
  exists self h',
    SSD300.__init__ imported_class Default (Given 21) Default imported_heap
      = (Ok self, h') /\
    (forall n, 2 <= n ->
       SSD300.forward h' self [n; 3; 300; 300] =
       Ok ([n; 4; 8732], [n; 21; 8732])) /\
    exists self' h'',
      SSD300.eval self h' = (Ok self', h'') /\
      forall n, 1 <= n ->
        SSD300.forward h'' self' [n; 3; 300; 300] =
        Ok ([n; 4; 8732], [n; 21; 8732]).
Proof.
  eapply (SSD300_forward_shape imported_heap imported_class Default 21 Default).
  - vm_compute. reflexivity.
  - split; vm_compute; reflexivity.
  - lia.
Defined.

(** C1 fails for N = 1: a detector just built is in training mode, its
    last extra block ends in a batch norm over a 1x1 map, and batch norm in
    training mode refuses a single value per channel. *)
Lemma SSD300_forward_batch_one :
  imported = (Ok imported_class, imported_heap) /\
  exists self h',
    SSD300.__init__ imported_class Default (Given 81) Default imported_heap
      = (Ok self, h') /\
    SSD300.forward h' self [1; 3; 300; 300] =
    Raise (ValueError "Expected more than 1 value per channel when training").
Proof.
  split; [vm_compute; reflexivity |].
  eexists _, _. split; [vm_compute; reflexivity |].
  vm_compute. reflexivity.
Qed.

End SSD300Claims.

Section BlockClaims.
Import Torch.

Lemma lookup_map_arch (ms : list module) (i : nat) (m : module) :
  ms !! i = Some m -> map arch ms !! i = Some (arch m).
Proof. intros H. rewrite list_lookup_fmap, H. reflexivity. Qed.

(** C5. On a standard backbone, [_build_feature_layers] gives exactly five
    extra blocks, one fewer than the channel counts.  Block i goes from
    channel count i to channel count i+1; blocks 0 to 2 have a last
    convolution of kernel 3, stride 2 and padding 1 and halve the spatial
    size rounding up; blocks 3 and 4 have a last convolution of kernel 3,
    stride 1 and no padding and take 2 off each spatial size.  After the
    38x38 backbone output the feature maps have sizes 38, 19, 10, 5, 3, 1
    and 32, 512, 512, 256, 256, 256 channels (for every batch the batch
    norms accept: two samples or more in training mode, one or more in
    evaluation mode). *)
Theorem SSD300_feature_blocks (h : heap) (cls : SSD300.class)
    (backbone : arg addr) (num_classes : arg Z)
    (weights : arg (option string)) (e : SSDMobileNetV2FeatureExtractor.t) :
  objs h !! arg_or backbone (SSD300.default_backbone cls) = Some e ->
  is_backbone e ->
  0 <= arg_or num_classes 81 ->
  exists self h',
    SSD300.__init__ cls backbone num_classes weights h = (Ok self, h') /\
    length (SSD300.feature_blocks self) = 5%nat /\
    S (length (SSD300.feature_blocks self)) =
      length (SSDMobileNetV2FeatureExtractor.out_channels e) /\
    map arch (SSD300.feature_blocks self) =
      [ block_arch 0 32 512 256; block_arch 1 512 512 256;
        block_arch 2 512 256 128; block_arch 3 256 256 128;
        block_arch 4 256 256 128 ] /\
    (forall i blk a b training n hh ww,
       SSD300.feature_blocks self !! i = Some blk ->
       SSDMobileNetV2FeatureExtractor.out_channels e !! i = Some a ->
       SSDMobileNetV2FeatureExtractor.out_channels e !! S i = Some b ->
       training = false \/ 2 <= n ->
       ((i < 3)%nat -> 1 <= hh -> 1 <= ww ->
        shape_call training blk [n; a; hh; ww] =
        Ok [n; b; (hh + 1) / 2; (ww + 1) / 2]) /\
       ((3 <= i)%nat -> 3 <= hh -> 3 <= ww ->
        shape_call training blk [n; a; hh; ww] =
        Ok [n; b; hh - 2; ww - 2])) /\
    (forall n, 2 <= n ->
       SSD300.detection_feed h' self [n; 3; 300; 300] =
       Ok [ [n; 32; 38; 38]; [n; 512; 19; 19]; [n; 512; 10; 10];
            [n; 256; 5; 5]; [n; 256; 3; 3]; [n; 256; 1; 1] ]) /\
    (exists self' h'',
       SSD300.eval self h' = (Ok self', h'') /\
       forall n, 1 <= n ->
         SSD300.detection_feed h'' self' [n; 3; 300; 300] =
         Ok [ [n; 32; 38; 38]; [n; 512; 19; 19]; [n; 512; 10; 10];
              [n; 256; 5; 5]; [n; 256; 3; 3]; [n; 256; 1; 1] ]).
Proof.
  intros He Hb Hnc.
  destruct (ssd300_init_model cls backbone num_classes weights h e He Hb Hnc)
    as (self & h' & Hrun & Hm & _ & Htr & _).
  exists self, h'. split; [exact Hrun |].
  pose proof Hm as (e' & _ & _ & Hblocks & _).
  pose proof Hb as [_ Hoc].
  assert (Hlen : length (SSD300.feature_blocks self) = 5%nat).
  { rewrite <- (length_map arch), Hblocks. reflexivity. }
  split; [exact Hlen |]. split; [rewrite Hlen, Hoc; reflexivity |].
  split; [exact Hblocks |]. split.
  - intros i blk a b training n hh ww Hblk Ha Hb' Hn.
    apply lookup_map_arch in Hblk. rewrite Hblocks in Hblk.
    rewrite Hoc in Ha, Hb'. rewrite <- shape_call_arch.
    destruct i as [| [| [| [| [| i]]]]]; try discriminate Hblk;
      injection Hblk as <-; injection Ha as <-; injection Hb' as <-;
      (split; intros Hi Hh Hw; [| try lia]; try lia;
       rewrite block_arch_shape by (auto; lia); reflexivity).
  - split.
    + intros n Hn.
      apply (detection_feed_shapes h' self n Hm); [lia | right; exact Hn].
    + destruct (ssd300_eval_model h' self Hm)
        as (self' & h'' & Heval & Hm' & Htr' & _).
      exists self', h''. split; [exact Heval |]. intros n Hn.
      apply (detection_feed_shapes h'' self' n Hm'); [exact Hn | left; exact Htr'].
Qed.

Lemma SSD300_feature_blocks_witness :
  exists self h',
    SSD300.__init__ imported_class Default Default Default imported_heap
      = (Ok self, h') /\
    length (SSD300.feature_blocks self) = 5%nat /\
    map arch (SSD300.feature_blocks self) =
      [ block_arch 0 32 512 256; block_arch 1 512 512 256;
        block_arch 2 512 256 128; block_arch 3 256 256 128;
        block_arch 4 256 256 128 ] /\
    SSD300.detection_feed h' self [2; 3; 300; 300] =
      Ok [ [2; 32; 38; 38]; [2; 512; 19; 19]; [2; 512; 10; 10];
           [2; 256; 5; 5]; [2; 256; 3; 3]; [2; 256; 1; 1] ].
Proof.
  destruct (SSD300_feature_blocks imported_heap imported_class Default
              Default Default
              (SSDMobileNetV2FeatureExtractor.Make true false 6
                 (match objs imported_heap !! 0%nat with
                  | Some e => SSDMobileNetV2FeatureExtractor.feature_extractor e
                  | None => Sequential []
                  end)
                 [32; 512; 512; 256; 256; 256]))
    as (self & h' & Hrun & Hlen & _ & Harch & _ & Hfeed & _).
  - vm_compute. reflexivity.
  - split; vm_compute; reflexivity.
  - cbn. lia.
  - exists self, h'. repeat split; try assumption. apply Hfeed. lia.
Defined.

End BlockClaims.

(** ** The order of the scales in [bbox_view] *)

Section TracedFacts.
Import Torch.

(** One scale of [bbox_view] in the traced semantics. *)
Lemma bbox_scale_traced (theta : gmap addr parameter) (training : bool)
    (k n nd oc h w : Z) (l c : module) (o : expr) :
  arch l = head_arch 4 (nd, oc) ->
  arch c = head_arch k (nd, oc) ->
  1 <= n -> 1 <= k -> 1 <= h -> 1 <= w ->
  (ls <~ call theta training l (Traced o [n; oc; h; w]) ;;
   n0 <~ SSD300.shape0 (Traced o [n; oc; h; w]) ;;
   lv <~ view ls [n0; 4; -1] ;;
   cs <~ call theta training c (Traced o [n; oc; h; w]) ;;
   n1 <~ SSD300.shape0 (Traced o [n; oc; h; w]) ;;
   cv <~ view cs [n1; k; -1] ;;
   Ok (lv, cv)) =
  Ok (Traced (View (Apply l o) [n; 4; -1]) [n; 4; nd * (h * w)],
      Traced (View (Apply c o) [n; k; -1]) [n; k; nd * (h * w)]).
Proof.
  intros Hl Hc Hn Hk Hh Hw.
  cbn [call view TracedSemantics shape_of origin SSD300.shape0 size].
  rewrite <- (shape_call_arch training l), Hl.
  rewrite <- (shape_call_arch training c), Hc.
  rewrite !head_arch_shape by assumption. cbn [rbind shape_of origin].
  rewrite !shape_view_infer by lia. reflexivity.
Qed.

(** [bbox_view] of a standard detector on six traced feature maps: each
    output is the concatenation, in the order of the scales, of the
    reshaped output of the head of each scale on the map of that scale. *)
Lemma bbox_view_traced (theta : gmap addr parameter) (self : SSD300.t)
    (n : Z) (sizes : list (Z * Z)) (origins : list expr) :
  1 <= n -> 1 <= SSD300.num_classes self ->
  length sizes = 6%nat -> length origins = 6%nat ->
  Forall (fun '(hh, ww) => 1 <= hh /\ 1 <= ww) sizes ->
  map arch (SSD300.loc self) =
    heads_arch 4 [4; 6; 6; 6; 4; 4] [32; 512; 512; 256; 256; 256] ->
  map arch (SSD300.conf self) =
    heads_arch (SSD300.num_classes self) [4; 6; 6; 6; 4; 4]
      [32; 512; 512; 256; 256; 256] ->
  SSD300.bbox_view theta self
    (zip_with Traced origins (scale_feed n (resized sizes)))
    (SSD300.loc self) (SSD300.conf self) =
  Ok (Traced
        (Contiguous
           (Cat (zip_with (fun l o => View (Apply l o) [n; 4; -1])
                          (SSD300.loc self) origins) 2))
        [n; 4; num_boxes (resized sizes)],
      Traced
        (Contiguous
           (Cat (zip_with (fun c o =>
                             View (Apply c o) [n; SSD300.num_classes self; -1])
                          (SSD300.conf self) origins) 2))
        [n; SSD300.num_classes self; num_boxes (resized sizes)]).
Proof.
  intros Hn Hk Hls Hlo Hsz Hloc Hconf.
  destruct sizes as [| [h0 w0] [| [h1 w1] [| [h2 w2] [| [h3 w3] [| [h4 w4]
    [| [h5 w5] [| ? ?]]]]]]]; try discriminate Hls.
  destruct origins as [| o0 [| o1 [| o2 [| o3 [| o4 [| o5 [| ? ?]]]]]]];
    try discriminate Hlo.
  destruct (SSD300.loc self) as [| l0 [| l1 [| l2 [| l3 [| l4 [| l5 [| ? ?]]]]]]];
    try discriminate Hloc.
  destruct (SSD300.conf self) as [| c0 [| c1 [| c2 [| c3 [| c4 [| c5 [| ? ?]]]]]]];
    try discriminate Hconf.
  cbn [map heads_arch zip zip_with] in Hloc, Hconf.
  injection Hloc as L0 L1 L2 L3 L4 L5.
  injection Hconf as C0 C1 C2 C3 C4 C5.
  repeat match goal with
         | H : Forall _ (_ :: _) |- _ => apply Forall_cons in H as [[? ?] H]
         end.
  unfold SSD300.bbox_view, scale_feed, resized.
  cbn [ssd_scales map fst zip zip_with zip3 rmap].
  set (k := SSD300.num_classes self) in *.
  rewrite (bbox_scale_traced theta _ k n 4 32 h0 w0 l0 c0 o0) by assumption.
  cbn [rbind].
  rewrite (bbox_scale_traced theta _ k n 6 512 h1 w1 l1 c1 o1) by assumption.
  cbn [rbind].
  rewrite (bbox_scale_traced theta _ k n 6 512 h2 w2 l2 c2 o2) by assumption.
  cbn [rbind].
  rewrite (bbox_scale_traced theta _ k n 6 256 h3 w3 l3 c3 o3) by assumption.
  cbn [rbind].
  rewrite (bbox_scale_traced theta _ k n 4 256 h4 w4 l4 c4 o4) by assumption.
  cbn [rbind].
  rewrite (bbox_scale_traced theta _ k n 4 256 h5 w5 l5 c5 o5) by assumption.
  cbn [rbind map fst snd cat contiguous TracedSemantics shape_of origin].
  set (boxes := [6 * (h1 * w1); 6 * (h2 * w2); 6 * (h3 * w3);
                 4 * (h4 * w4); 4 * (h5 * w5)]).
  change (shape_cat [[n; 4; 4 * (h0 * w0)]; [n; 4; 6 * (h1 * w1)];
                     [n; 4; 6 * (h2 * w2)]; [n; 4; 6 * (h3 * w3)];
                     [n; 4; 4 * (h4 * w4)]; [n; 4; 4 * (h5 * w5)]] 2)
    with (shape_cat (map (fun x => [n; 4; x]) (4 * (h0 * w0) :: boxes)) 2).
  change (shape_cat [[n; k; 4 * (h0 * w0)]; [n; k; 6 * (h1 * w1)];
                     [n; k; 6 * (h2 * w2)]; [n; k; 6 * (h3 * w3)];
                     [n; k; 4 * (h4 * w4)]; [n; k; 4 * (h5 * w5)]] 2)
    with (shape_cat (map (fun x => [n; k; x]) (4 * (h0 * w0) :: boxes)) 2).
  rewrite !shape_cat_axis2. cbn [rbind shape_of origin].
  reflexivity.
Qed.

End TracedFacts.

Section HeadClaims.
Import Torch.

(** Concatenating the reshaped outputs of a list of scales along axis 2. *)
Lemma cat_scales (n k : Z) (scales : list (Z * Z * (Z * Z))) :
  scales <> [] ->
  cat (map (fun '((nd, _), (hh, ww)) => [n; k; nd * (hh * ww)]) scales) 2 =
  Ok [n; k; num_boxes scales].
Proof.
  intros Hne. unfold num_boxes. cbn [cat ShapeSemantics].
  replace (map (fun '((nd, _), (hh, ww)) => [n; k; nd * (hh * ww)]) scales)
    with (map (fun x => [n; k; x])
              (map (fun '((nd, _), (hh, ww)) => nd * (hh * ww)) scales)).
  - set (boxes := map (fun '((nd, _), (hh, ww)) => nd * (hh * ww)) scales).
    assert (Hb : exists m ms, boxes = m :: ms).
    { unfold boxes. destruct scales as [| sc scales]; [contradiction |].
      cbn [map]. eauto. }
    destruct Hb as (m & ms & ->). apply shape_cat_axis2.
  - rewrite map_map. apply map_ext. intros [[? ?] [? ?]]. reflexivity.
Qed.

(** C7. On a standard backbone, [SSD300(num_classes=...)] has for each of
    the six scales exactly one loc convolution and one conf convolution,
    both 3x3 with padding 1 (so the spatial size is kept), with
    [nd * 4] and [nd * num_classes] output channels.  On feature maps
    of any spatial sizes, [bbox_view] reshapes the outputs of scale i
    to (N, 4, nd_i*H_i*W_i) and (N, num_classes, nd_i*H_i*W_i) and
    concatenates the scales along axis 2, in scale order.  The order is
    stated in the traced semantics, where a tensor keeps the expression
    that computed it: on six feature maps of origins [o_0 .. o_5], the
    locations are [cat([loc_0(o_0).view(N, 4, -1), ...,
    loc_5(o_5).view(N, 4, -1)], 2).contiguous()], head i applied to feature
    map i and the six views joined in that order, and likewise for the
    confidences. *)
Theorem SSD300_heads (h : heap) (cls : SSD300.class) (backbone : arg addr)
    (num_classes : Z) (weights : arg (option string))
    (e : SSDMobileNetV2FeatureExtractor.t) :
  objs h !! arg_or backbone (SSD300.default_backbone cls) = Some e ->
  is_backbone e ->
  1 <= num_classes ->
  exists self h',
    SSD300.__init__ cls backbone (Given num_classes) weights h = (Ok self, h') /\
    map arch (SSD300.loc self) =
      map (fun '((nd, oc), _) => Conv2d oc (nd * 4) 3 1 1 1 0%nat (Some 0%nat))
          ssd_scales /\
    map arch (SSD300.conf self) =
      map (fun '((nd, oc), _) =>
             Conv2d oc (nd * num_classes) 3 1 1 1 0%nat (Some 0%nat))
          ssd_scales /\
    length (SSD300.loc self) = 6%nat /\
    length (SSD300.conf self) = 6%nat /\
    (forall i l c nd oc hw training n hh ww,
       SSD300.loc self !! i = Some l ->
       SSD300.conf self !! i = Some c ->
       ssd_scales !! i = Some ((nd, oc), hw) ->
       1 <= hh -> 1 <= ww ->
       shape_call training l [n; oc; hh; ww] = Ok [n; nd * 4; hh; ww] /\
       shape_call training c [n; oc; hh; ww] =
         Ok [n; nd * num_classes; hh; ww]) /\
    (forall theta n sizes,
       1 <= n ->
       length sizes = 6%nat ->
       Forall (fun '(hh, ww) => 1 <= hh /\ 1 <= ww) sizes ->
       SSD300.bbox_view theta self (scale_feed n (resized sizes))
         (SSD300.loc self) (SSD300.conf self) =
       (locs <~ cat (map (fun '((nd, _), (hh, ww)) => [n; 4; nd * (hh * ww)])
                         (resized sizes)) 2 ;;
        confs <~ cat (map (fun '((nd, _), (hh, ww)) =>
                             [n; num_classes; nd * (hh * ww)])
                          (resized sizes)) 2 ;;
        Ok (locs, confs)) /\
       SSD300.bbox_view theta self (scale_feed n (resized sizes))
         (SSD300.loc self) (SSD300.conf self) =
       Ok ([n; 4; num_boxes (resized sizes)],
           [n; num_classes; num_boxes (resized sizes)])) /\
    (forall theta n sizes origins,
       1 <= n ->
       length sizes = 6%nat ->
       length origins = 6%nat ->
       Forall (fun '(hh, ww) => 1 <= hh /\ 1 <= ww) sizes ->
       SSD300.bbox_view theta self
         (zip_with Traced origins (scale_feed n (resized sizes)))
         (SSD300.loc self) (SSD300.conf self) =
       Ok (Traced
             (Contiguous
                (Cat (zip_with (fun l o => View (Apply l o) [n; 4; -1])
                               (SSD300.loc self) origins) 2))
             [n; 4; num_boxes (resized sizes)],
           Traced
             (Contiguous
                (Cat (zip_with (fun c o =>
                                  View (Apply c o) [n; num_classes; -1])
                               (SSD300.conf self) origins) 2))
             [n; num_classes; num_boxes (resized sizes)])).
Proof.
  intros He Hb Hnc.
  destruct (ssd300_init_model cls backbone (Given num_classes) weights h e
              He Hb ltac:(cbn; lia))
    as (self & h' & Hrun & Hm & _ & _ & Hk & _).
  cbn [arg_or] in Hk.
  exists self, h'. split; [exact Hrun |].
  destruct Hm as (e' & _ & _ & _ & Hloc & Hconf). rewrite Hk in Hconf.
  split; [exact Hloc |]. split; [exact Hconf |].
  split; [rewrite <- (length_map arch), Hloc; reflexivity |].
  split; [rewrite <- (length_map arch), Hconf; reflexivity |].
  split; [| split].
  - intros i l c nd oc hw training n hh ww Hl Hc Hs Hh Hw.
    apply lookup_map_arch in Hl, Hc. rewrite Hloc in Hl. rewrite Hconf in Hc.
    rewrite <- (shape_call_arch training l), <- (shape_call_arch training c).
    destruct i as [| [| [| [| [| [| i]]]]]]; try discriminate Hs;
      injection Hs as <- <- <-; injection Hl as <-; injection Hc as <-;
      (split; [apply (head_arch_shape training 4) |
               apply (head_arch_shape training num_classes)]; assumption).
  - intros theta n sizes Hn Hlen Hsz.
    destruct sizes as [| s0 [| s1 [| s2 [| s3 [| s4 [| s5 [| ? ?]]]]]]];
      try discriminate Hlen.
    assert (Hview :
      SSD300.bbox_view theta self
        (scale_feed n (resized [s0; s1; s2; s3; s4; s5]))
        (SSD300.loc self) (SSD300.conf self) =
      Ok ([n; 4; num_boxes (resized [s0; s1; s2; s3; s4; s5])],
          [n; num_classes; num_boxes (resized [s0; s1; s2; s3; s4; s5])])).
    { rewrite <- Hk.
      apply (bbox_view_scales theta self n
               (resized [s0; s1; s2; s3; s4; s5])).
      - exact Hn.
      - lia.
      - discriminate.
      - unfold resized. cbn [ssd_scales map fst zip zip_with].
        repeat match goal with
               | H : Forall _ (_ :: _) |- _ =>
                   apply Forall_cons in H as [? H]
               end.
        destruct s0, s1, s2, s3, s4, s5. repeat constructor; tauto.
      - rewrite Hloc. reflexivity.
      - rewrite Hk, Hconf. reflexivity. }
    split; [| exact Hview]. rewrite Hview.
    rewrite !cat_scales by (unfold resized; cbn; discriminate).
    reflexivity.
  - intros theta n sizes origins Hn Hlen Hlo Hsz. rewrite <- Hk.
    apply bbox_view_traced; try assumption; [lia |].
    rewrite Hk. exact Hconf.
Qed.

Lemma SSD300_heads_witness :
  exists self h',
    SSD300.__init__ imported_class Default (Given 3) Default imported_heap
      = (Ok self, h') /\
    length (SSD300.loc self) = 6%nat /\
    length (SSD300.conf self) = 6%nat /\
    SSD300.bbox_view (params (store h')) self (scale_feed 1 ssd_scales)
      (SSD300.loc self) (SSD300.conf self) =
    Ok ([1; 4; 8732], [1; 3; 8732]).
Proof.
  destruct (SSD300_heads imported_heap imported_class Default 3 Default
              (SSDMobileNetV2FeatureExtractor.Make true false 6
                 (match objs imported_heap !! 0%nat with
                  | Some e => SSDMobileNetV2FeatureExtractor.feature_extractor e
                  | None => Sequential []
                  end)
                 [32; 512; 512; 256; 256; 256]))
    as (self & h' & Hrun & _ & _ & Hl & Hc & _ & Hview & _).
  - vm_compute. reflexivity.
  - split; vm_compute; reflexivity.
  - lia.
  - exists self, h'. repeat split; try assumption.
    apply (Hview (params (store h')) 1
             [(38, 38); (19, 19); (10, 10); (5, 5); (3, 3); (1, 1)]).
    + lia.
    + reflexivity.
    + repeat constructor; lia.
Defined.

End HeadClaims.

(** ** The effect of [_init_weights] on the store *)

Section FrameFacts.
Import Torch.

Lemma stored_Sequential_cons (st : pstore) (m : module) (ms : list module) :
  stored st (Sequential (m :: ms)) <->
  stored st m /\ stored st (Sequential ms).
Proof. unfold stored. cbn [param_shapes flat_map]. apply Forall_app. Qed.

Lemma stored_Sequential_app (st : pstore) (ms1 ms2 : list module) :
  stored st (Sequential (ms1 ++ ms2)) <->
  stored st (Sequential ms1) /\ stored st (Sequential ms2).
Proof.
  unfold stored. cbn [param_shapes]. rewrite flat_map_app. apply Forall_app.
Qed.

Lemma stored_Sequential_elem (st : pstore) (ms : list module) (m : module) :
  stored st (Sequential ms) -> m ∈ ms -> stored st m.
Proof.
  induction ms as [| m' ms IH]; intros Hs Hin.
  - inversion Hin.
  - apply stored_Sequential_cons in Hs as [Hm Hms].
    apply elem_of_cons in Hin as [-> | Hin]; auto.
Qed.

(** In a stored module, the weight of a convolution has four dimensions;
    the bias of a convolution and the weight and bias of a batch norm have
    one. *)
Lemma stored_dims (st : pstore) (m : module) :
  stored st m ->
  (forall a, a ∈ conv_weights m ->
     exists p, params st !! a = Some p /\ dim p = 4) /\
  (forall a, a ∈ small_params m ->
     exists p, params st !! a = Some p /\ dim p = 1).
Proof.
  induction m using module_induction; intros Hs.
  - unfold stored in Hs. cbn [param_shapes] in Hs.
    apply Forall_cons in Hs as [[d Hw] Hb]. split.
    + intros a Ha. cbn in Ha. apply list_elem_of_singleton in Ha as ->.
      eexists. split; [exact Hw | reflexivity].
    + intros a Ha. destruct b as [b |]; cbn in Ha; [| inversion Ha].
      apply list_elem_of_singleton in Ha as ->.
      apply Forall_cons in Hb as [[d' Hb] _].
      eexists. split; [exact Hb | reflexivity].
  - unfold stored in Hs. cbn [param_shapes] in Hs.
    apply Forall_cons in Hs as [[d Hw] Hs].
    apply Forall_cons in Hs as [[d' Hb] _]. split.
    + intros a Ha. inversion Ha.
    + intros a Ha. cbn in Ha.
      apply elem_of_cons in Ha as [-> | Ha];
        [| apply list_elem_of_singleton in Ha as ->];
        eexists; (split; [eassumption | reflexivity]).
  - split; intros a Ha; inversion Ha.
  - split; intros a Ha; inversion Ha.
  - induction H as [| m ms Hm _ IH].
    + split; intros a Ha; inversion Ha.
    + apply stored_Sequential_cons in Hs as [Hsm Hsms].
      destruct (Hm Hsm) as [Hc1 Hs1]. destruct (IH Hsms) as [Hc2 Hs2].
      split; intros a Ha; cbn [conv_weights small_params flat_map] in Ha;
        apply elem_of_app in Ha as [Ha | Ha]; auto.
  - apply IHm, Hs.
Qed.

(** What changes under Xavier initialisation is among the addresses walked
    over, had more than one dimension, and now holds a Xavier draw. *)
Lemma xavier_applied_changed (ps : list addr) (st st' : pstore) (a : addr) :
  xavier_applied ps st st' ->
  params st' !! a <> params st !! a ->
  a ∈ ps /\
  exists p n, params st !! a = Some p /\ 1 < dim p /\
              params st' !! a = Some (Param (p_shape p) (XavierUniform n)).
Proof.
  intros [_ H] Hne. specialize (H a).
  destruct (params st !! a) as [p |]; [| contradiction].
  destruct (bool_decide (a ∈ ps) && (1 <? dim p)) eqn:Hc; [| contradiction].
  apply andb_true_iff in Hc as [Hin Hd].
  apply bool_decide_eq_true_1 in Hin. apply Z.ltb_lt in Hd.
  destruct H as [n Hn]. eauto 7.
Qed.

Lemma xavier_applied_small (ps : list addr) (st st' : pstore) (a : addr)
    (p : parameter) :
  xavier_applied ps st st' ->
  params st !! a = Some p -> dim p <= 1 ->
  params st' !! a = Some p.
Proof.
  intros [_ H] Hp Hd. specialize (H a). rewrite Hp in H.
  replace (1 <? dim p) with false in H by (symmetry; apply Z.ltb_ge; lia).
  rewrite andb_false_r in H. exact H.
Qed.

Lemma xavier_applied_big (ps : list addr) (st st' : pstore) (a : addr)
    (p : parameter) :
  xavier_applied ps st st' ->
  a ∈ ps -> params st !! a = Some p -> 1 < dim p ->
  exists n, params st' !! a = Some (Param (p_shape p) (XavierUniform n)).
Proof.
  intros [_ H] Hin Hp Hd. specialize (H a). rewrite Hp in H.
  rewrite bool_decide_eq_true_2 in H by exact Hin.
  replace (1 <? dim p) with true in H by (symmetry; apply Z.ltb_lt; lia).
  exact H.
Qed.

Lemma conv_weights_parameters (m : module) (a : addr) :
  a ∈ conv_weights m -> a ∈ parameters m.
Proof.
  induction m using module_induction; cbn; intros Ha; try (inversion Ha; fail).
  - apply list_elem_of_singleton in Ha as ->. apply elem_of_cons. auto.
  - induction H as [| m ms Hm _ IH]; [inversion Ha |].
    cbn [flat_map] in *. apply elem_of_app in Ha as [Ha | Ha];
      apply elem_of_app; auto.
  - auto.
Qed.

Lemma elem_of_flat_map_parameters (ms : list module) (m : module) (a : addr) :
  m ∈ ms -> a ∈ parameters m -> a ∈ flat_map parameters ms.
Proof.
  intros Hm Ha. apply list_elem_of_In, in_flat_map.
  exists m. split; apply list_elem_of_In; assumption.
Qed.

End FrameFacts.

Section FrameClaims.
Import Torch.

Lemma fresh_touched (st st1 : pstore) (blocks loc conf : list module) :
  fresh st st1 (Sequential blocks) ->
  fresh st st1 (Sequential loc) ->
  fresh st st1 (Sequential conf) ->
  Forall (fun a => (next st <= a < next st1)%nat)
    (flat_map parameters (blocks ++ loc ++ conf)).
Proof.
  unfold fresh. cbn [parameters]. intros H1 H2 H3.
  rewrite !flat_map_app, !Forall_app. auto.
Qed.

(** C9. [_init_weights], as [__init__] calls it, succeeds and writes a
    Xavier draw to the parameters of [feature_blocks], [loc] and [conf]
    that have more than one dimension, the weights of the convolutions, and
    to nothing else: the parameters of the backbone (which was built
    before) keep their contents, and so does every parameter with one
    dimension, the biases of the convolutions and the weights and biases
    of the batch norms.  It succeeds when there is a class or every channel
    count of the backbone is positive: with no class, the conf head of a
    scale with no channel has an empty weight whose fans are both 0, and
    [xavier_uniform_] divides by their sum. *)
Theorem SSD300_init_weights_frame (h : heap) (cls : SSD300.class)
    (backbone : arg addr) (num_classes : arg Z)
    (weights : arg (option string)) (e : SSDMobileNetV2FeatureExtractor.t) :
  objs h !! arg_or backbone (SSD300.default_backbone cls) = Some e ->
  Forall (fun n => 0 <= n) (SSDMobileNetV2FeatureExtractor.out_channels e) ->
  0 <= arg_or num_classes 81 ->
  0 < arg_or num_classes 81 \/
    Forall (fun n => 0 < n) (SSDMobileNetV2FeatureExtractor.out_channels e) ->
  Forall (fun a => (a < next (store h))%nat)
    (parameters (SSDMobileNetV2FeatureExtractor.feature_extractor e)) ->
  exists self h' st1,
    SSD300.__init__ cls backbone num_classes weights h = (Ok self, h') /\
    extends (store h) st1 /\
    SSD300._init_weights self st1 = (Ok tt, store h') /\
    (forall a,
       params (store h') !! a <> params st1 !! a ->
       a ∈ touched self /\
       exists p n,
         params st1 !! a = Some p /\ 1 < dim p /\
         params (store h') !! a = Some (Param (p_shape p) (XavierUniform n))) /\
    (forall a,
       a ∈ parameters (SSDMobileNetV2FeatureExtractor.feature_extractor e) ->
       params (store h') !! a = params st1 !! a /\
       params st1 !! a = params (store h) !! a) /\
    (forall a p,
       params st1 !! a = Some p -> dim p <= 1 ->
       params (store h') !! a = Some p) /\
    (forall layer,
       layer ∈ SSD300.feature_blocks self ++ SSD300.loc self ++ SSD300.conf self ->
       (forall a, a ∈ small_params layer ->
          exists p, params st1 !! a = Some p /\ dim p = 1 /\
                    params (store h') !! a = Some p) /\
       (forall a, a ∈ conv_weights layer ->
          exists s n, length s = 4%nat /\
                      params (store h') !! a = Some (Param s (XavierUniform n)))).
Proof.
  intros He Hoc Hnc Hfan Hold.
  destruct (ssd300_init_run cls backbone num_classes weights h e He Hoc Hnc
              Hfan)
    as (blocks & loc & conf & st1 & st' & Hrun & B1 & B2 & B3 & Hx & Hiw).
  cbv zeta in Hrun, Hx, Hiw.
  eexists _, _, st1. split; [exact Hrun |]. cbn [store].
  split; [exact (built_extends _ _ _ _ B1) |].
  split; [exact Hiw |].
  split; [intros a Ha; apply (xavier_applied_changed _ _ _ _ Hx Ha) |].
  split; [| split].
  - intros a Ha.
    assert (Hlt : (a < next (store h))%nat)
      by (rewrite Forall_forall in Hold; apply Hold, Ha).
    split.
    + apply (xavier_applied_frame _ _ _ _ Hx).
      unfold touched. cbn [SSD300.feature_blocks SSD300.loc SSD300.conf].
      destruct B1 as (_ & _ & F1 & _), B2 as (_ & _ & F2 & _),
               B3 as (_ & _ & F3 & _).
      pose proof (fresh_touched _ _ _ _ _ F1 F2 F3) as Hf.
      rewrite Forall_forall in Hf. intros Hin. specialize (Hf a Hin). lia.
    + destruct (built_extends _ _ _ _ B1) as [_ Hframe]. apply Hframe, Hlt.
  - intros a p Hp Hd. apply (xavier_applied_small _ _ _ _ _ Hx Hp Hd).
  - cbn [SSD300.feature_blocks SSD300.loc SSD300.conf].
    intros layer Hin.
    assert (Hst : stored st1 layer).
    { destruct B1 as (_ & _ & _ & S1), B2 as (_ & _ & _ & S2),
               B3 as (_ & _ & _ & S3).
      apply elem_of_app in Hin as [Hin | Hin];
        [| apply elem_of_app in Hin as [Hin | Hin]];
        eauto using stored_Sequential_elem. }
    destruct (stored_dims st1 layer Hst) as [Hconv Hsmall]. split.
    + intros a Ha. destruct (Hsmall a Ha) as (p & Hp & Hd).
      exists p. split; [exact Hp |]. split; [exact Hd |].
      apply (xavier_applied_small _ _ _ _ _ Hx Hp). lia.
    + intros a Ha. destruct (Hconv a Ha) as (p & Hp & Hd).
      destruct (xavier_applied_big _ _ _ a p Hx) as [n Hn]; try assumption.
      * unfold touched. cbn [SSD300.feature_blocks SSD300.loc SSD300.conf].
        apply (elem_of_flat_map_parameters _ layer); [exact Hin |].
        apply conv_weights_parameters, Ha.
      * lia.
      * exists (p_shape p), n. split; [| exact Hn].
        unfold dim in Hd. lia.
Qed.

Lemma SSD300_init_weights_frame_witness :
  exists self h' st1,
    SSD300.__init__ imported_class Default Default Default imported_heap
      = (Ok self, h') /\
    SSD300._init_weights self st1 = (Ok tt, store h') /\
    (forall a p,
       params st1 !! a = Some p -> dim p <= 1 ->
       params (store h') !! a = Some p).
Proof.
  destruct (SSD300_init_weights_frame imported_heap imported_class Default
              Default Default
              (SSDMobileNetV2FeatureExtractor.Make true false 6
                 (match objs imported_heap !! 0%nat with
                  | Some e => SSDMobileNetV2FeatureExtractor.feature_extractor e
                  | None => Sequential []
                  end)
                 [32; 512; 512; 256; 256; 256]))
    as (self & h' & st1 & Hrun & _ & Hiw & _ & _ & Hsmall & _).
  - vm_compute. reflexivity.
  - repeat constructor; lia.
  - cbn. lia.
  - left. cbn. lia.
  - apply (bool_decide_unpack _). vm_compute. exact I.
  - exists self, h', st1. auto.
Defined.

End FrameClaims.

(** ** The default backbone is one object *)

Section AliasFacts.
Import Torch.

(** [__init__] leaves the objects alone and writes nothing below the
    allocation pointer it starts from. *)
Lemma ssd300_init_frame (cls : SSD300.class) (backbone : arg addr)
    (num_classes : arg Z) (weights : arg (option string)) (h : heap)
    (e : SSDMobileNetV2FeatureExtractor.t) :
  objs h !! arg_or backbone (SSD300.default_backbone cls) = Some e ->
  Forall (fun n => 0 <= n) (SSDMobileNetV2FeatureExtractor.out_channels e) ->
  0 <= arg_or num_classes 81 ->
  0 < arg_or num_classes 81 \/
    Forall (fun n => 0 < n) (SSDMobileNetV2FeatureExtractor.out_channels e) ->
  exists self h',
    SSD300.__init__ cls backbone num_classes weights h = (Ok self, h') /\
    objs h' = objs h /\
    next_obj h' = next_obj h /\
    SSD300.feature_extractor self =
      arg_or backbone (SSD300.default_backbone cls) /\
    (next (store h) <= next (store h'))%nat /\
    (forall a, (a < next (store h))%nat ->
       params (store h') !! a = params (store h) !! a).
Proof.
  intros He Hoc Hnc Hfan.
  destruct (ssd300_init_run cls backbone num_classes weights h e He Hoc Hnc
              Hfan)
    as (blocks & loc & conf & st1 & st' & Hrun & B1 & B2 & B3 & Hx & _).
  cbv zeta in Hrun, Hx.
  eexists _, _. split; [exact Hrun |]. cbn.
  split; [reflexivity |]. split; [reflexivity |]. split; [reflexivity |].
  destruct (built_extends _ _ _ _ B1) as [Hle Hframe].
  destruct Hx as [Hn Hx']. split; [lia |].
  intros a Ha. rewrite <- Hframe by exact Ha.
  apply (xavier_applied_frame _ st1 st' a (conj Hn Hx')).
  unfold touched. cbn [SSD300.feature_blocks SSD300.loc SSD300.conf].
  destruct B1 as (_ & _ & F1 & _), B2 as (_ & _ & F2 & _),
           B3 as (_ & _ & F3 & _).
  pose proof (fresh_touched _ _ _ _ _ F1 F2 F3) as Hf.
  rewrite Forall_forall in Hf. intros Hin. specialize (Hf a Hin). lia.
Qed.

Lemma length_parameters_arch (m : module) :
  length (parameters (arch m)) = length (parameters m).
Proof.
  induction m using module_induction; try reflexivity.
  - cbn. destruct b; reflexivity.
  - cbn [arch parameters]. induction H as [| m ms Hm _ IH]; [reflexivity |].
    cbn [map flat_map]. rewrite !length_app, Hm, IH. reflexivity.
  - exact IHm.
Qed.

(** C10. Executing the class definition creates one feature extractor,
    the default value of [backbone].  Two detectors built without a
    backbone argument hold that same object: no extractor is created by
    [__init__], both read the same backbone parameters in every heap, and
    an update of a backbone parameter made through the first is read
    through the second. *)
Theorem SSD300_default_backbone_shared (h : heap) (num_classes1 : arg Z)
    (weights1 : arg (option string)) (num_classes2 : arg Z)
    (weights2 : arg (option string)) :
  0 <= arg_or num_classes1 81 ->
  0 <= arg_or num_classes2 81 ->
  exists cls h1 m1 h2 m2 h3 e,
    SSD300.class_def h = (Ok cls, h1) /\
    next_obj h1 = S (next_obj h) /\
    SSD300.__init__ cls Default num_classes1 weights1 h1 = (Ok m1, h2) /\
    SSD300.__init__ cls Default num_classes2 weights2 h2 = (Ok m2, h3) /\
    SSD300.feature_extractor m1 = SSD300.default_backbone cls /\
    SSD300.feature_extractor m2 = SSD300.default_backbone cls /\
    objs h3 = objs h1 /\
    objs h3 !! SSD300.default_backbone cls = Some e /\
    is_backbone e /\
    (forall h', backbone_parameters h' m1 = backbone_parameters h' m2) /\
    (forall i d,
       (i < length (parameters
                      (SSDMobileNetV2FeatureExtractor.feature_extractor e)))%nat ->
       exists h4 ps p,
         update_backbone m1 i d h3 = (Ok tt, h4) /\
         backbone_parameters h4 m2 = Ok ps /\
         ps !! i = Some (Some p) /\
         p_data p = d).
Proof.
  intros Hn1 Hn2.
  destruct (class_def_run h) as (fe & st1 & Hdef & B).
  set (e := SSDMobileNetV2FeatureExtractor.Make true false 6 fe
              [32; 512; 512; 256; 256; 256]) in *.
  set (h1 := Heap st1 (<[next_obj h := e]> (objs h)) (S (next_obj h))) in *.
  set (cls := SSD300.Class (next_obj h)) in *.
  assert (He1 : objs h1 !! arg_or Default (SSD300.default_backbone cls) = Some e)
    by apply lookup_insert_eq.
  assert (Hoc : Forall (fun n => 0 <= n)
                  (SSDMobileNetV2FeatureExtractor.out_channels e))
    by (cbn; repeat constructor; lia).
  assert (Hpos : Forall (fun n => 0 < n)
                   (SSDMobileNetV2FeatureExtractor.out_channels e))
    by (cbn; repeat constructor; lia).
  destruct (ssd300_init_frame cls Default num_classes1 weights1 h1 e He1 Hoc Hn1
              (or_intror Hpos))
    as (m1 & h2 & Hrun1 & Hobj1 & _ & Hfe1 & Hle1 & Hframe1).
  assert (He2 : objs h2 !! arg_or Default (SSD300.default_backbone cls) = Some e)
    by (rewrite Hobj1; exact He1).
  destruct (ssd300_init_frame cls Default num_classes2 weights2 h2 e He2 Hoc Hn2
              (or_intror Hpos))
    as (m2 & h3 & Hrun2 & Hobj2 & _ & Hfe2 & Hle2 & Hframe2).
  cbn [arg_or] in Hfe1, Hfe2.
  exists cls, h1, m1, h2, m2, h3, e.
  split; [exact Hdef |]. split; [reflexivity |].
  split; [exact Hrun1 |]. split; [exact Hrun2 |].
  split; [exact Hfe1 |]. split; [exact Hfe2 |].
  split; [congruence |].
  assert (He3 : objs h3 !! SSD300.default_backbone cls = Some e)
    by (rewrite Hobj2; exact He2).
  split; [exact He3 |].
  split; [split; [exact (proj1 B) | reflexivity] |]. split.
  - intros h'. unfold backbone_parameters. rewrite Hfe1, Hfe2. reflexivity.
  - intros i d Hi. cbn [SSDMobileNetV2FeatureExtractor.feature_extractor e] in Hi.
    destruct (lookup_lt_is_Some_2 (parameters fe) i Hi) as [a Ha].
    destruct B as (_ & _ & Hfresh & Hstored).
    assert (Hin : a ∈ parameters fe) by (eapply list_elem_of_lookup_2; eauto).
    assert (Hlt : (a < next st1)%nat).
    { unfold fresh in Hfresh. rewrite Forall_forall in Hfresh.
      specialize (Hfresh a Hin). lia. }
    assert (Hp : exists p, params (store h3) !! a = Some p).
    { apply stored_is_Some in Hstored. rewrite Forall_forall in Hstored.
      destruct (Hstored a Hin) as [p Hp]. exists p.
      rewrite Hframe2 by (cbn [store h1] in Hle1; lia).
      rewrite Hframe1 by exact Hlt. exact Hp. }
    destruct Hp as [p Hp].
    exists (Heap (write a (Param (p_shape p) d) (store h3)) (objs h3)
              (next_obj h3)).
    exists (map (fun x => params (write a (Param (p_shape p) d) (store h3)) !! x)
              (parameters fe)).
    exists (Param (p_shape p) d).
    split; [| split; [| split; [| reflexivity]]].
    + unfold update_backbone. rewrite Hfe1.
      rewrite (bind_Ok _ _ _ _ _ (get_object_run _ h3 e He3)).
      cbn [SSDMobileNetV2FeatureExtractor.feature_extractor e]. rewrite Ha.
      apply on_store_run, set_data_run, Hp.
    + unfold backbone_parameters, read_object. rewrite Hfe2. cbn [objs].
      rewrite He3. reflexivity.
    + rewrite list_lookup_fmap, Ha. cbn. f_equal. apply lookup_insert_eq.
Qed.

Lemma SSD300_default_backbone_shared_witness :
  exists cls h1 m1 h2 m2 h3 e,
    SSD300.class_def empty_heap = (Ok cls, h1) /\
    SSD300.__init__ cls Default Default Default h1 = (Ok m1, h2) /\
    SSD300.__init__ cls Default (Given 21) Default h2 = (Ok m2, h3) /\
    SSD300.feature_extractor m1 = SSD300.feature_extractor m2 /\
    objs h3 !! SSD300.default_backbone cls = Some e /\
    exists h4 ps p,
      update_backbone m1 0 (Assigned 7) h3 = (Ok tt, h4) /\
      backbone_parameters h4 m2 = Ok ps /\
      ps !! 0%nat = Some (Some p) /\
      p_data p = Assigned 7.
Proof.
  destruct (SSD300_default_backbone_shared empty_heap Default Default
              (Given 21) Default)
    as (cls & h1 & m1 & h2 & m2 & h3 & e & Hdef & _ & Hrun1 & Hrun2 & Hfe1 &
        Hfe2 & Hobjs & He & [Ha _] & _ & Hupd); [cbn; lia | cbn; lia |].
  exists cls, h1, m1, h2, m2, h3, e.
  repeat (split; [first [assumption | congruence] |]).
  apply Hupd.
  rewrite <- length_parameters_arch, Ha. vm_compute. lia.
Defined.

End AliasFacts.

(** ** [is_training] and [num_layers] are never read *)

Section FlagFacts.
Import Torch.

Lemma same_but_flags_refl (e : SSDMobileNetV2FeatureExtractor.t) :
  same_but_flags e e.
Proof. repeat split. Qed.

Lemma heap_sim_refl (h : heap) : heap_sim h h.
Proof.
  repeat split. intros a. destruct (objs h !! a); [| exact I].
  apply same_but_flags_refl.
Qed.

Lemma sim_ret {A} (R : A -> A -> Prop) (a1 a2 : A) :
  R a1 a2 -> sim R (ret a1) (ret a2).
Proof. intros H h1 h2 Hs. split; [exact H | exact Hs]. Qed.

Lemma sim_bind {A B} (R : A -> A -> Prop) (R' : B -> B -> Prop)
    (c1 c2 : M heap A) (k1 k2 : A -> M heap B) :
  sim R c1 c2 ->
  (forall a1 a2, R a1 a2 -> sim R' (k1 a1) (k2 a2)) ->
  sim R' (bind c1 k1) (bind c2 k2).
Proof.
  intros Hc Hk h1 h2 Hs. destruct (Hc h1 h2 Hs) as [Hr Hs'].
  unfold bind.
  destruct (c1 h1) as [[a1 | e1] h1'], (c2 h2) as [[a2 | e2] h2'];
    cbn [fst snd] in *; try contradiction.
  - apply (Hk a1 a2 Hr h1' h2' Hs').
  - split; assumption.
Qed.

(** A computation on the store alone cannot see the objects. *)
Lemma sim_on_store {A} (R : A -> A -> Prop) (c1 c2 : M pstore A) :
  (forall st, result_rel R (fst (c1 st)) (fst (c2 st)) /\
              snd (c1 st) = snd (c2 st)) ->
  sim R (on_store c1) (on_store c2).
Proof.
  intros Hc h1 h2 (Hst & Hn & Ho). unfold on_store. rewrite <- Hst.
  destruct (Hc (store h1)) as [Hr Hs].
  destruct (c1 (store h1)) as [r1 st1], (c2 (store h1)) as [r2 st2].
  cbn [fst snd] in *. subst st2. split; [exact Hr |].
  split; [reflexivity |]. split; assumption.
Qed.

Lemma result_rel_eq_refl {A} (r : result A) : result_rel eq r r.
Proof. destruct r; reflexivity. Qed.

Lemma sim_on_store_same {A} (c : M pstore A) : sim eq (on_store c) (on_store c).
Proof.
  apply sim_on_store. intros st. split; [apply result_rel_eq_refl | reflexivity].
Qed.

Lemma sim_get_object (a : addr) :
  sim same_but_flags (get_object a) (get_object a).
Proof.
  intros h1 h2 Hs. pose proof Hs as (_ & _ & Ho). specialize (Ho a).
  unfold get_object.
  destruct (objs h1 !! a), (objs h2 !! a); cbn; try contradiction; auto.
Qed.

Lemma sim_new_object (e1 e2 : SSDMobileNetV2FeatureExtractor.t) :
  same_but_flags e1 e2 -> sim eq (new_object e1) (new_object e2).
Proof.
  intros He h1 h2 (Hst & Hn & Ho). unfold new_object. cbn [fst snd].
  split; [exact Hn |]. split; [exact Hst |]. split; [cbn; congruence |].
  intros a. cbn [objs]. rewrite Hn.
  destruct (decide (a = next_obj h2)) as [-> | Hne].
  - rewrite !lookup_insert_eq. exact He.
  - rewrite !lookup_insert_ne by congruence. apply Ho.
Qed.

(** The constructor of the extractor stores its two arguments and does
    nothing else with them. *)
Lemma sim_new_extractor (is_training1 is_training2 : arg bool)
    (num_layers1 num_layers2 : arg Z) :
  sim eq (new_SSDMobileNetV2FeatureExtractor is_training1 num_layers1)
         (new_SSDMobileNetV2FeatureExtractor is_training2 num_layers2).
Proof.
  unfold new_SSDMobileNetV2FeatureExtractor.
  apply (sim_bind same_but_flags).
  - apply sim_on_store. intros st.
    unfold SSDMobileNetV2FeatureExtractor.__init__, bind.
    destruct (torchvision.mobilenet_v2 true st) as [[m | ex] st'];
      cbn; repeat split.
  - intros e1 e2 He. apply sim_new_object, He.
Qed.

(** [SSD300.__init__] reads [out_channels] of its backbone and nothing
    else. *)
Lemma sim_ssd300_init (cls : SSD300.class) (backbone : arg addr)
    (num_classes : arg Z) (weights : arg (option string)) :
  sim eq (SSD300.__init__ cls backbone num_classes weights)
         (SSD300.__init__ cls backbone num_classes weights).
Proof.
  unfold SSD300.__init__. cbv zeta.
  apply (sim_bind same_but_flags); [apply sim_get_object |].
  intros e1 e2 (_ & _ & Hoc). rewrite Hoc.
  apply (sim_bind eq); [apply sim_on_store_same |].
  intros blocks ? <-.
  apply (sim_bind same_but_flags); [apply sim_get_object |].
  intros e1' e2' (_ & _ & Hoc'). rewrite Hoc'.
  apply (sim_bind eq); [apply sim_on_store_same |].
  intros heads ? <-.
  apply (sim_bind eq); [apply sim_on_store_same |].
  intros u ? <-. apply sim_ret. reflexivity.
Qed.

Section Generic.
Context {T : Type} `{Framework T}.

(** The forward pass of the extractor reads [feature_extractor] and the
    [training] flag of the module. *)
Lemma extractor_forward_flags (theta : gmap addr parameter)
    (e1 e2 : SSDMobileNetV2FeatureExtractor.t) (x : T) :
  same_but_flags e1 e2 ->
  SSDMobileNetV2FeatureExtractor.forward theta e1 x =
  SSDMobileNetV2FeatureExtractor.forward theta e2 x.
Proof.
  intros (Ht & Hfe & _). unfold SSDMobileNetV2FeatureExtractor.forward.
  rewrite Ht, Hfe. reflexivity.
Qed.

Lemma ssd300_forward_sim (h1 h2 : heap) (self : SSD300.t) (x : T) :
  heap_sim h1 h2 ->
  SSD300.forward h1 self x = SSD300.forward h2 self x.
Proof.
  intros (Hst & _ & Ho).
  unfold SSD300.forward, SSD300.detection_feed, read_object.
  specialize (Ho (SSD300.feature_extractor self)). rewrite <- Hst.
  destruct (objs h1 !! SSD300.feature_extractor self) as [e1 |],
           (objs h2 !! SSD300.feature_extractor self) as [e2 |];
    try contradiction; [| reflexivity].
  cbn [rbind]. rewrite (extractor_forward_flags _ e1 e2 x Ho). reflexivity.
Qed.

End Generic.

End FlagFacts.

Section FlagClaims.
Import Torch.
Context {T : Type} `{Framework T}.

(** C8. [is_training] and [num_layers] are stored and never read.  Two
    extractors built from one heap with different values of them get the
    same address, the same kept layers (the same parameters), the same
    channel counts and the same forward function, for every tensor
    semantics.  The detectors built on them are the same value, leave the
    same parameter store and have the same forward function.  The number of
    scales is six whatever [num_layers] is. *)
Theorem SSD300_flags_unused (h : heap) (is_training1 is_training2 : arg bool)
    (num_layers1 num_layers2 : arg Z) (cls : SSD300.class)
    (num_classes : arg Z) (weights : arg (option string)) :
  0 <= arg_or num_classes 81 ->
  exists a h1 h2 e1 e2 m h1' h2',
    new_SSDMobileNetV2FeatureExtractor is_training1 num_layers1 h = (Ok a, h1) /\
    new_SSDMobileNetV2FeatureExtractor is_training2 num_layers2 h = (Ok a, h2) /\
    objs h1 !! a = Some e1 /\
    objs h2 !! a = Some e2 /\
    SSDMobileNetV2FeatureExtractor.is_training e1 = arg_or is_training1 false /\
    SSDMobileNetV2FeatureExtractor.is_training e2 = arg_or is_training2 false /\
    SSDMobileNetV2FeatureExtractor.num_layers e1 = arg_or num_layers1 6 /\
    SSDMobileNetV2FeatureExtractor.num_layers e2 = arg_or num_layers2 6 /\
    same_but_flags e1 e2 /\
    store h1 = store h2 /\
    (forall theta (x : T),
       SSDMobileNetV2FeatureExtractor.forward theta e1 x =
       SSDMobileNetV2FeatureExtractor.forward theta e2 x) /\
    SSD300.__init__ cls (Given a) num_classes weights h1 = (Ok m, h1') /\
    SSD300.__init__ cls (Given a) num_classes weights h2 = (Ok m, h2') /\
    store h1' = store h2' /\
    (forall x : T, SSD300.forward h1' m x = SSD300.forward h2' m x) /\
    length (SSDMobileNetV2FeatureExtractor.out_channels e1) = 6%nat /\
    length (SSD300.loc m) = 6%nat /\
    length (SSD300.conf m) = 6%nat.
Proof.
  intros Hnc.
  destruct (new_extractor_run is_training1 num_layers1 h)
    as (fe1 & st1 & Hrun1 & B1).
  destruct (new_extractor_run is_training2 num_layers2 h)
    as (fe2 & st2 & Hrun2 & B2).
  destruct (sim_new_extractor is_training1 is_training2 num_layers1
              num_layers2 h h (heap_sim_refl h)) as [_ Hsim].
  rewrite Hrun1, Hrun2 in Hsim. cbn [snd] in Hsim.
  set (a := next_obj h) in *.
  set (e1 := SSDMobileNetV2FeatureExtractor.Make true
               (arg_or is_training1 false) (arg_or num_layers1 6) fe1
               [32; 512; 512; 256; 256; 256]) in *.
  set (e2 := SSDMobileNetV2FeatureExtractor.Make true
               (arg_or is_training2 false) (arg_or num_layers2 6) fe2
               [32; 512; 512; 256; 256; 256]) in *.
  set (h1 := Heap st1 (<[a := e1]> (objs h)) (S a)) in *.
  set (h2 := Heap st2 (<[a := e2]> (objs h)) (S a)) in *.
  assert (He1 : objs h1 !! a = Some e1) by apply lookup_insert_eq.
  assert (He2 : objs h2 !! a = Some e2) by apply lookup_insert_eq.
  assert (Hflags : same_but_flags e1 e2).
  { destruct Hsim as (_ & _ & Ho). specialize (Ho a).
    rewrite He1, He2 in Ho. exact Ho. }
  assert (Hb1 : is_backbone e1) by (split; [exact (proj1 B1) | reflexivity]).
  destruct (ssd300_init_model cls (Given a) num_classes weights h1 e1 He1 Hb1
              Hnc)
    as (m & h1' & Hinit1 & Hm & _).
  destruct (sim_ssd300_init cls (Given a) num_classes weights h1 h2 Hsim)
    as [Hres Hsim'].
  rewrite Hinit1 in Hres, Hsim'. cbn [fst snd] in Hres, Hsim'.
  destruct (SSD300.__init__ cls (Given a) num_classes weights h2)
    as [[m2 | ex] h2'] eqn:Hinit2; cbn [fst snd] in Hres, Hsim';
    unfold result_rel in Hres; [| contradiction].
  subst m2.
  exists a, h1, h2, e1, e2, m, h1', h2'.
  repeat (split; [first [assumption | reflexivity] |]).
  split; [exact (proj1 Hsim) |].
  split; [intros theta x; apply extractor_forward_flags, Hflags |].
  repeat (split; [first [assumption | reflexivity] |]).
  split; [exact (proj1 Hsim') |].
  split; [intros x; apply ssd300_forward_sim, Hsim' |].
  split; [reflexivity |].
  destruct Hm as (e' & _ & _ & _ & Hloc & Hconf).
  split; [rewrite <- (length_map arch), Hloc |
          rewrite <- (length_map arch), Hconf]; reflexivity.
Qed.

End FlagClaims.

Lemma SSD300_flags_unused_witness :
  exists a h1 h2 e1 e2 m h1' h2',
    Torch.new_SSDMobileNetV2FeatureExtractor (Torch.Given true) (Torch.Given 3)
      Torch.empty_heap = (Ok a, h1) /\
    Torch.new_SSDMobileNetV2FeatureExtractor Torch.Default Torch.Default
      Torch.empty_heap = (Ok a, h2) /\
    Torch.objs h1 !! a = Some e1 /\
    Torch.objs h2 !! a = Some e2 /\
    Torch.SSDMobileNetV2FeatureExtractor.num_layers e1 = 3 /\
    Torch.SSDMobileNetV2FeatureExtractor.num_layers e2 = 6 /\
    Torch.SSD300.__init__ imported_class (Torch.Given a) Torch.Default
      Torch.Default h1 = (Ok m, h1') /\
    Torch.SSD300.__init__ imported_class (Torch.Given a) Torch.Default
      Torch.Default h2 = (Ok m, h2') /\
    (forall x : Torch.shape,
       Torch.SSD300.forward h1' m x = Torch.SSD300.forward h2' m x) /\
    length (Torch.SSD300.loc m) = 6%nat.
Proof.
  destruct (SSD300_flags_unused (T := Torch.shape) Torch.empty_heap
              (Torch.Given true) Torch.Default (Torch.Given 3) Torch.Default
              imported_class Torch.Default Torch.Default)
    as (a & h1 & h2 & e1 & e2 & m & h1' & h2' & H1 & H2 & He1 & He2 & _ & _ &
        Hn1 & Hn2 & _ & _ & _ & Hi1 & Hi2 & _ & Hf & _ & Hl & _);
    [cbn; lia |].
  exists a, h1, h2, e1, e2, m, h1', h2'. cbn [Torch.arg_or] in Hn1, Hn2.
  repeat (split; [assumption |]). assumption.
Defined.

(** ** Channel typing *)

Section ChannelFacts.
Import Torch.

Lemma channels_arch (m : module) : forall c, channels (arch m) c = channels m c.
Proof.
  induction m using module_induction; intros c0; try reflexivity.
  - cbn [arch channels]. revert c0.
    induction H as [| m ms Hm _ IH]; intros c0; [reflexivity |].
    cbn [map]. rewrite Hm. destruct (channels m c0); [apply IH | reflexivity].
  - cbn [arch channels]. rewrite IHm. reflexivity.
Qed.

(** Typing is sound: a well-typed module on a map with the expected
    channel count never raises a channel mismatch, and what it returns has
    the channel count typing predicts. *)
Lemma channels_sound (m : module) :
  forall c c' training n hh ww,
  channels m c = Some c' ->
  match shape_call training m [n; c; hh; ww] with
  | Ok y => exists hh' ww', y = [n; c'; hh'; ww']
  | Raise ex => forall a b, ex <> ChannelMismatch a b
  end.
Proof.
  induction m using module_induction; intros c0 c' training n hh ww.
  - cbn [channels shape_call]. unfold conv2d_shape.
    destruct (c0 =? cin) eqn:Hc; [| discriminate]. intros [= <-].
    cbn [negb]. unfold conv_out.
    destruct (s <=? 0); [cbn; discriminate |].
    destruct (hh + 2 * p <? k); [cbn; discriminate |].
    destruct (ww + 2 * p <? k); [cbn; discriminate |].
    cbn [rbind]. eauto.
  - cbn [channels shape_call]. unfold batch_norm2d_shape.
    destruct (c0 =? c) eqn:Hc; [| discriminate]. intros [= <-].
    destruct (training && _); [discriminate |].
    cbn [negb]. eauto.
  - cbn. intros [= <-]. eauto.
  - cbn. intros [= <-]. eauto.
  - cbn [channels shape_call]. revert c0 hh ww.
    induction H as [| m ms Hm _ IH]; intros c0 hh ww.
    + intros [= <-]. cbn. eauto.
    + destruct (channels m c0) as [c1 |] eqn:Hc1; [| discriminate].
      intros Hrest. cbn [rfold].
      specialize (Hm c0 c1 training n hh ww Hc1).
      destruct (shape_call training m [n; c0; hh; ww]) as [y | ex].
      * destruct Hm as (hh' & ww' & ->). cbn [rbind]. apply IH, Hrest.
      * exact Hm.
  - cbn [channels shape_call].
    destruct (channels m c0) as [c1 |] eqn:Hc1; [| discriminate].
    specialize (IHm c0 c1 training n hh ww Hc1).
    destruct (shape_call training m [n; c0; hh; ww]) as [y | ex];
      [| intros _; exact IHm].
    destruct IHm as (hh' & ww' & ->). cbn [rbind].
    destruct r.
    + destruct (c1 =? c0) eqn:Heq; [| discriminate]. intros [= <-].
      apply Z.eqb_eq in Heq. subst c1. unfold add_shape.
      case_bool_decide; [eauto | discriminate].
    + intros [= <-]. eauto.
Qed.

Lemma channels_block_arch (i a b c : Z) : channels (block_arch i a b c) a = Some b.
Proof. cbn. rewrite !Z.eqb_refl. reflexivity. Qed.

Lemma channels_head_arch (k nd oc : Z) :
  channels (head_arch k (nd, oc)) oc = Some (nd * k).
Proof. cbn. rewrite Z.eqb_refl. reflexivity. Qed.

(** The blocks of [_build_feature_layers] are chained along the channel
    counts they were built from: this is what zipping [input_size[:-1]]
    with [input_size[1:]] gives. *)
Lemma blocks_arch_chain (ocs : list Z) :
  forall consts j blocks,
  map arch blocks =
    map (fun '(i, (a, b, c)) => block_arch i a b c)
        (enumerate_from j (zip3 (removelast ocs) (tail ocs) consts)) ->
  chain_typed ocs blocks.
Proof.
  induction ocs as [| a ocs IH]; intros consts j blocks Hb.
  - destruct blocks; [exact I | discriminate Hb].
  - destruct ocs as [| b ocs'].
    + destruct blocks; [exact I | discriminate Hb].
    + change (removelast (a :: b :: ocs')) with (a :: removelast (b :: ocs'))
        in Hb.
      cbn [tail] in Hb.
      destruct consts as [| c consts].
      * destruct blocks; [exact I | discriminate Hb].
      * cbn [zip3 enumerate_from map] in Hb.
        destruct blocks as [| blk blocks]; [exact I |].
        cbn [map] in Hb. injection Hb as Hblk Hrest.
        cbn [chain_typed]. split.
        -- rewrite <- channels_arch, Hblk. apply channels_block_arch.
        -- apply (IH consts (j + 1)). exact Hrest.
Qed.

Lemma chain_typed_lookup (blocks : list module) :
  forall ocs i blk,
  chain_typed ocs blocks ->
  blocks !! i = Some blk ->
  exists a b, ocs !! i = Some a /\ ocs !! S i = Some b /\
              channels blk a = Some b.
Proof.
  induction blocks as [| blk0 blocks IH]; intros ocs i blk Hc Hi.
  - discriminate Hi.
  - destruct ocs as [| a [| b ocs']]; try contradiction.
    destruct Hc as [H0 Hc]. destruct i as [| i].
    + injection Hi as <-. exists a, b. auto.
    + cbn in Hi. destruct (IH (b :: ocs') i blk Hc Hi) as (a' & b' & ? & ? & ?).
      exists a', b'. auto.
Qed.

(** The heads of scale i accept the channel count i. *)
Lemma heads_arch_lookup (k : Z) (nds ocs : list Z) (ms : list module)
    (i : nat) (m : module) :
  map arch ms = heads_arch k nds ocs ->
  ms !! i = Some m ->
  exists nd oc, nds !! i = Some nd /\ ocs !! i = Some oc /\
                channels m oc = Some (nd * k).
Proof.
  intros Ha Hm.
  assert (Hl : heads_arch k nds ocs !! i = Some (arch m))
    by (rewrite <- Ha, list_lookup_fmap, Hm; reflexivity).
  unfold heads_arch in Hl.
  change (map (head_arch k) (zip nds ocs)) with (head_arch k <$> zip nds ocs)
    in Hl.
  rewrite list_lookup_fmap in Hl.
  destruct (zip nds ocs !! i) as [[nd oc] |] eqn:Hz; [| discriminate].
  cbn in Hl. injection Hl as Hl.
  apply lookup_zip_with_Some in Hz as (nd' & oc' & [= <- <-] & Hnd & Hoc).
  exists nd, oc. split; [exact Hnd |]. split; [exact Hoc |].
  rewrite <- channels_arch, <- Hl. apply channels_head_arch.
Qed.

End ChannelFacts.

Section MismatchFacts.
Import Torch.

Lemma no_mismatch_Ok {A} (a : A) : no_mismatch (Ok a).
Proof. intros ? ?. discriminate. Qed.

Lemma no_mismatch_rbind {A B} (r : result A) (k : A -> result B) :
  no_mismatch r -> (forall a, r = Ok a -> no_mismatch (k a)) ->
  no_mismatch (rbind r k).
Proof.
  intros Hr Hk. destruct r as [a | ex]; cbn [rbind].
  - apply Hk. reflexivity.
  - intros a b Heq. injection Heq as ->. apply (Hr a b). reflexivity.
Qed.

Lemma shape_view_no_mismatch (x : shape) (s : list Z) :
  no_mismatch (shape_view x s).
Proof.
  unfold shape_view, no_mismatch. intros a b.
  repeat match goal with
         | |- context [if ?c then _ else _] => destruct c
         | |- context [match ?c with O => _ | S _ => _ end] => destruct c
         end; discriminate.
Qed.

Lemma shape_cat_no_mismatch (xs : list shape) (d : Z) :
  no_mismatch (shape_cat xs d).
Proof.
  unfold shape_cat, no_mismatch. intros a b.
  destruct xs as [| x xs]; [discriminate |].
  repeat match goal with
         | |- context [if ?c then _ else _] => destruct c
         end; discriminate.
Qed.

(** A well-typed module on a map of the expected channel count. *)
Lemma call_typed (training : bool) (m : module) (c c' n hh ww : Z) :
  channels m c = Some c' ->
  no_mismatch (shape_call training m [n; c; hh; ww]) /\
  forall y, shape_call training m [n; c; hh; ww] = Ok y ->
            exists hh' ww', y = [n; c'; hh'; ww'].
Proof.
  intros Hc. pose proof (channels_sound m c c' training n hh ww Hc) as Hs.
  destruct (shape_call training m [n; c; hh; ww]) as [y | ex].
  - split; [apply no_mismatch_Ok |]. intros ? [= <-]. exact Hs.
  - split; [| discriminate]. intros a b [= ->]. apply (Hs a b). reflexivity.
Qed.

(** The loop of [forward] over chained blocks: no channel mismatch, and the
    feature maps have the channel counts of the chain. *)
Lemma feed_loop_typed (theta : gmap addr parameter) (training : bool)
    (n : Z) (blocks : list module) :
  forall ocs a hh ww feed0,
  chain_typed (a :: ocs) blocks ->
  match
    rfold
      (fun '(x, detection_feed) layer =>
         x <~ call theta training layer x ;;
         Ok (x, detection_feed ++ [x]))
      blocks ([n; a; hh; ww], feed0)
  with
  | Ok (_, feed) =>
      exists feed1,
        feed = feed0 ++ feed1 /\
        Forall2 (fun c s => exists hh' ww', s = [n; c; hh'; ww'])
                (take (length blocks) ocs) feed1
  | Raise ex => forall a b, ex <> ChannelMismatch a b
  end.
Proof.
  induction blocks as [| blk blocks IH]; intros ocs a hh ww feed0 Hc.
  - cbn. exists []. rewrite app_nil_r. split; [reflexivity | constructor].
  - destruct ocs as [| b ocs]; [contradiction |]. destruct Hc as [Hblk Hc].
    cbn [rfold call ShapeSemantics].
    destruct (call_typed training blk a b n hh ww Hblk) as [Hnm Hy].
    destruct (shape_call training blk [n; a; hh; ww]) as [y | ex].
    + destruct (Hy y eq_refl) as (hh' & ww' & ->). cbn [rbind].
      specialize (IH ocs b hh' ww' (feed0 ++ [[n; b; hh'; ww']]) Hc).
      cbn [call ShapeSemantics] in IH.
      destruct (rfold _ blocks _) as [[x feed] | ex]; [| exact IH].
      destruct IH as (feed1 & -> & Hf).
      exists ([n; b; hh'; ww'] :: feed1). rewrite <- app_assoc.
      split; [reflexivity |]. cbn [length take]. constructor; eauto.
    + cbn [rbind]. intros a' b' ->. apply (Hnm a' b'). reflexivity.
Qed.

(** Feature maps with the channel counts of a prefix of [ocs] meet heads
    built for [ocs]. *)
Lemma zip3_scale_ok (n k1 k2 : Z) (chs : list Z) (src : list shape) :
  Forall2 (fun c s => exists hh ww, s = [n; c; hh; ww]) chs src ->
  forall rest nds loc conf,
  map arch loc = heads_arch k1 nds (chs ++ rest) ->
  map arch conf = heads_arch k2 nds (chs ++ rest) ->
  Forall scale_ok (zip3 src loc conf).
Proof.
  induction 1 as [| c s chs src (hh & ww & ->) _ IH];
    intros rest nds loc conf Hloc Hconf; [constructor |].
  destruct nds as [| nd nds].
  - destruct loc; [constructor | discriminate Hloc].
  - unfold heads_arch in Hloc, Hconf. cbn [app zip zip_with map] in Hloc, Hconf.
    destruct loc as [| l loc]; [discriminate Hloc |].
    destruct conf as [| cf conf]; [discriminate Hconf |].
    cbn [map] in Hloc, Hconf.
    injection Hloc as Hl Hloc. injection Hconf as Hcf Hconf.
    cbn [zip3]. constructor.
    + exists n, c, hh, ww. split; [reflexivity |].
      rewrite <- (channels_arch l), <- (channels_arch cf), Hl, Hcf.
      rewrite !channels_head_arch. split; eexists; reflexivity.
    + apply (IH rest nds); assumption.
Qed.

Lemma shape0_no_mismatch (s : shape) : no_mismatch (SSD300.shape0 s).
Proof. unfold SSD300.shape0. cbn. destruct s; intros ? ?; discriminate. Qed.

Ltac solve_no_mismatch :=
  lazymatch goal with
  | |- no_mismatch (rbind _ _) =>
      apply no_mismatch_rbind; [solve_no_mismatch | intros ? _; solve_no_mismatch]
  | |- no_mismatch (Ok _) => apply no_mismatch_Ok
  | |- no_mismatch (shape_view _ _) => apply shape_view_no_mismatch
  | |- no_mismatch (shape_cat _ _) => apply shape_cat_no_mismatch
  | |- no_mismatch (SSD300.shape0 _) => apply shape0_no_mismatch
  | |- _ => assumption
  end.

Lemma bbox_no_mismatch (theta : gmap addr parameter) (self : SSD300.t)
    (src : list shape) (loc conf : list module) :
  Forall scale_ok (zip3 src loc conf) ->
  no_mismatch (SSD300.bbox_view theta self src loc conf).
Proof.
  intros Hok. unfold SSD300.bbox_view.
  apply no_mismatch_rbind.
  - induction Hok
      as [| [[s l] c] rest (n & ch & hh & ww & -> & [c1 H1] & [c2 H2]) _ IH].
    + apply no_mismatch_Ok.
    + cbn [rmap call view ShapeSemantics].
      destruct (call_typed (SSD300.training self) l ch c1 n hh ww H1)
        as [Hn1 _].
      destruct (call_typed (SSD300.training self) c ch c2 n hh ww H2)
        as [Hn2 _].
      cbn [call view ShapeSemantics] in IH.
      solve_no_mismatch.
  - intros ret _. destruct ret; [intros ? ?; discriminate |].
    cbn [cat ShapeSemantics]. solve_no_mismatch.
Qed.

End MismatchFacts.

Section ChannelClaims.
Import Torch.

(** C6. For a detector built on a backbone with channel counts
    [out_channels]: extra block i consumes [out_channels[i]] channels and
    produces [out_channels[i+1]]; [loc[i]] and [conf[i]] consume
    [out_channels[i]] (and produce [nd * 4] and [nd * num_classes]).
    Consuming and producing are meant as in [channels], which is sound for
    the shape semantics.  So, when the kept backbone layers turn [c0]
    channels into [out_channels[0]], no layer in [forward] is handed a
    channel count it does not expect: [forward] on an input with [c0]
    channels never raises a channel mismatch.  The detector is built when
    there is a class or every channel count is positive; with neither,
    [_init_weights] can divide by zero (see [SSD300_zero_fans]). *)
Theorem SSD300_channels (h : heap) (cls : SSD300.class) (backbone : arg addr)
    (num_classes : arg Z) (weights : arg (option string))
    (e : SSDMobileNetV2FeatureExtractor.t) (c0 c1 : Z) :
  objs h !! arg_or backbone (SSD300.default_backbone cls) = Some e ->
  Forall (fun n => 0 <= n) (SSDMobileNetV2FeatureExtractor.out_channels e) ->
  0 <= arg_or num_classes 81 ->
  0 < arg_or num_classes 81 \/
    Forall (fun n => 0 < n) (SSDMobileNetV2FeatureExtractor.out_channels e) ->
  channels (SSDMobileNetV2FeatureExtractor.feature_extractor e) c0 = Some c1 ->
  SSDMobileNetV2FeatureExtractor.out_channels e !! 0%nat = Some c1 ->
  exists self h',
    SSD300.__init__ cls backbone num_classes weights h = (Ok self, h') /\
    (forall i blk,
       SSD300.feature_blocks self !! i = Some blk ->
       exists a b,
         SSDMobileNetV2FeatureExtractor.out_channels e !! i = Some a /\
         SSDMobileNetV2FeatureExtractor.out_channels e !! S i = Some b /\
         channels blk a = Some b) /\
    (forall i l c,
       SSD300.loc self !! i = Some l ->
       SSD300.conf self !! i = Some c ->
       exists nd a,
         SSD300.num_defaults self !! i = Some nd /\
         SSDMobileNetV2FeatureExtractor.out_channels e !! i = Some a /\
         channels l a = Some (nd * 4) /\
         channels c a = Some (nd * SSD300.num_classes self)) /\
    (forall m c c' training n hh ww,
       channels m c = Some c' ->
       match shape_call training m [n; c; hh; ww] with
       | Ok y => exists hh' ww', y = [n; c'; hh'; ww']
       | Raise ex => forall a b, ex <> ChannelMismatch a b
       end) /\
    (forall n hh ww, no_mismatch (SSD300.forward h' self [n; c0; hh; ww])).
Proof.
  intros He Hoc Hnc Hfan Hfe H0.
  destruct (ssd300_init_run cls backbone num_classes weights h e He Hoc Hnc
              Hfan)
    as (blocks & loc & conf & st1 & st' & Hrun & B1 & B2 & B3 & _ & _).
  cbv zeta in Hrun.
  apply built_list_arch in B1, B2, B3.
  set (ocs := SSDMobileNetV2FeatureExtractor.out_channels e) in *.
  assert (Hchain : chain_typed ocs blocks)
    by (apply (blocks_arch_chain ocs [256; 256; 128; 128; 128] 0), B1).
  eexists _, _. split; [exact Hrun |].
  cbn [SSD300.feature_blocks SSD300.loc SSD300.conf SSD300.num_defaults
       SSD300.num_classes].
  split; [intros i blk Hi; apply (chain_typed_lookup blocks ocs i blk Hchain Hi) |].
  split.
  { intros i l c Hl Hc.
    destruct (heads_arch_lookup _ _ _ _ i l B2 Hl) as (nd & a & Hnd & Ha & Hcl).
    destruct (heads_arch_lookup _ _ _ _ i c B3 Hc) as (nd' & a' & Hnd' & Ha' & Hcc).
    rewrite Hnd in Hnd'. rewrite Ha in Ha'.
    injection Hnd' as <-. injection Ha' as <-.
    exists nd, a. auto. }
  split; [intros m c c' training n hh ww Hm; apply channels_sound, Hm |].
  intros n hh ww.
  unfold SSD300.forward, SSD300.detection_feed, read_object.
  cbn [objs store SSD300.feature_extractor SSD300.feature_blocks SSD300.loc
       SSD300.conf SSD300.training].
  rewrite He. cbn [rbind].
  unfold SSDMobileNetV2FeatureExtractor.forward. rewrite call_shape.
  destruct (call_typed (SSDMobileNetV2FeatureExtractor.training e) _ c0 c1 n
              hh ww Hfe) as [Hnm Hy].
  destruct (shape_call _ _ [n; c0; hh; ww]) as [y | ex];
    [| cbn [rbind]; intros a b [= ->]; apply (Hnm a b); reflexivity].
  destruct (Hy y eq_refl) as (hh1 & ww1 & ->). cbn [rbind].
  destruct ocs as [| c1' ocs'] eqn:Hocs; [discriminate H0 |].
  injection H0 as ->.
  pose proof (feed_loop_typed (params st') true n blocks ocs' c1 hh1 ww1
                [[n; c1; hh1; ww1]] Hchain) as Hloop.
  destruct (rfold _ blocks _) as [[x feed] | ex];
    [| cbn [rbind]; intros a b [= ->]; apply (Hloop a b); reflexivity].
  destruct Hloop as (feed1 & -> & Hfeed). cbn [rbind snd].
  apply bbox_no_mismatch.
  apply (zip3_scale_ok n 4 (arg_or num_classes 81)
           (c1 :: take (length blocks) ocs') ([n; c1; hh1; ww1] :: feed1))
    with (rest := drop (length blocks) ocs') (nds := [4; 6; 6; 6; 4; 4]).
  - constructor; [eauto | exact Hfeed].
  - cbn [app]. rewrite take_drop. exact B2.
  - cbn [app]. rewrite take_drop. exact B3.
Qed.

Lemma SSD300_channels_witness :
  exists self h',
    SSD300.__init__ imported_class Default Default Default imported_heap
      = (Ok self, h') /\
    (forall n hh ww, no_mismatch (SSD300.forward h' self [n; 3; hh; ww])).
Proof.
  destruct (SSD300_channels imported_heap imported_class Default
              Default Default
              (SSDMobileNetV2FeatureExtractor.Make true false 6
                 (match objs imported_heap !! 0%nat with
                  | Some e => SSDMobileNetV2FeatureExtractor.feature_extractor e
                  | None => Sequential []
                  end)
                 [32; 512; 512; 256; 256; 256]) 3 32)
    as (self & h' & Hrun & _ & _ & _ & Hfw).
  - vm_compute. reflexivity.
  - repeat constructor; lia.
  - cbn. lia.
  - left. cbn. lia.
  - vm_compute. reflexivity.
  - reflexivity.
  - exists self, h'. auto.
Defined.

(** Without a class and on a scale without a channel, the conf head has a
    weight of shape (0, 0, 3, 3): both fans are 0 and [xavier_uniform_]
    divides by their sum, so [__init__] raises. *)
Example SSD300_zero_fans :
  fst (SSD300.__init__ (SSD300.Class 0%nat) (Given 0%nat) (Given 0) Default
         (custom_backbone_heap [0])) =
  Raise (ZeroDivisionError "float division by zero").
Proof. vm_compute. reflexivity. Qed.

End ChannelClaims.

(** ** The default backbone meets every assumption made above *)

Section DefaultBackbone.
Import Torch.

(** From any heap, executing the class definition leaves a default
    backbone that is a standard feature extractor, whose parameters were
    all allocated, and whose kept layers turn 3 channels into 32. *)
Lemma class_def_backbone (h : heap) :
  exists cls h' e,
    SSD300.class_def h = (Ok cls, h') /\
    objs h' !! SSD300.default_backbone cls = Some e /\
    is_backbone e /\
    Forall (fun n => 0 <= n) (SSDMobileNetV2FeatureExtractor.out_channels e) /\
    Forall (fun a => (a < next (store h'))%nat)
      (parameters (SSDMobileNetV2FeatureExtractor.feature_extractor e)) /\
    channels (SSDMobileNetV2FeatureExtractor.feature_extractor e) 3 = Some 32 /\
    SSDMobileNetV2FeatureExtractor.out_channels e !! 0%nat = Some 32.
Proof.
  destruct (class_def_run h) as (fe & st' & Hrun & B).
  eexists _, _, _. split; [exact Hrun |].
  cbn [objs store SSD300.default_backbone].
  split; [apply lookup_insert_eq |].
  cbn [SSDMobileNetV2FeatureExtractor.out_channels
       SSDMobileNetV2FeatureExtractor.feature_extractor].
  destruct B as (Ha & _ & Hf & _).
  split; [split; [exact Ha | reflexivity] |].
  split; [repeat constructor; lia |].
  split; [apply (fresh_lt (store h)), Hf |].
  split; [| reflexivity].
  rewrite <- channels_arch, Ha. vm_compute. reflexivity.
Qed.

End DefaultBackbone.

(** * Further properties of [lrcnn.py] *)

Section KerasProperties.
Import Keras.

(** What a successful [MobileNetV2] call tells about the frame shape. *)
Lemma MobileNetV2_frame (fs : list Z) (top : bool) (pool : pooling)
    (w w' : world) (a : application) :
  MobileNetV2 fs top pool w = (Ok a, w') ->
  exists h wd, fs = [h; wd; 3] /\ 32 <= h /\ 32 <= wd.
Proof.
  unfold MobileNetV2.
  destruct fs as [| h [| wd [| c [| ? ?]]]]; try discriminate.
  destruct (top && _); [discriminate |].
  destruct (c =? 3) eqn:Hc; simpl; [| discriminate].
  destruct (Z.ltb_spec h 32); [discriminate |].
  destruct (Z.ltb_spec wd 32); [discriminate |].
  intros _. apply Z.eqb_eq in Hc. subst c. eauto.
Qed.

(** A successful [add] passed the check of the layer's constructor. *)
Lemma add_checked (m m' : sequential) (l : layer) (w w' : world) :
  add m l w = (Ok m', w') -> layer_check l = Ok tt.
Proof.
  unfold add. intros H. inv_bind H.
  unfold lift_result in Hc. destruct (layer_check l) as [[] |]; [reflexivity |].
  discriminate Hc.
Qed.

(** With a sequence length of at least 1, a frame shape (h, w, 3) of at
    least 32x32, at least one class and a dropout rate in [0, 1], the
    outcome for a string [weights] is
    decided by the string alone.  ['imagenet']: the ten-layer model is
    returned and only the ImageNet weights of the base network were
    fetched.  A path to a weights file that fits: the model is returned,
    after the ImageNet weights were fetched and then that file was loaded,
    once.  A path that holds no fitting file: [load_weights] raises and no
    model is returned; the ImageNet weights were fetched all the same. *)
Theorem LRMobileNetV2_string_weights (seq_length h wd classes : Z)
    (s : string) (dropout : Q) (w : world) :
  1 <= seq_length ->
  32 <= h -> 32 <= wd -> 1 <= classes ->
  Qle_bool 0 dropout = true -> Qle_bool dropout 1 = true ->
  (s = "imagenet"%string ->
   LRMobileNetV2 seq_length [h; wd; 3] classes (PyStr s) dropout w =
   (Ok (Sequential (lrcnn_layers seq_length [h; wd; 3] classes dropout)
          (Some [None; Some classes])),
    World (fits w) (log w ++ [FetchImagenet]))) /\
  (s <> "imagenet"%string -> fits w s = true ->
   LRMobileNetV2 seq_length [h; wd; 3] classes (PyStr s) dropout w =
   (Ok (Sequential (lrcnn_layers seq_length [h; wd; 3] classes dropout)
          (Some [None; Some classes])),
    World (fits w) (log w ++ [FetchImagenet; LoadWeights (PyStr s)]))) /\
  (s <> "imagenet"%string -> fits w s = false ->
   exists e,
     LRMobileNetV2 seq_length [h; wd; 3] classes (PyStr s) dropout w =
     (Raise e,
      World (fits w) (log w ++ [FetchImagenet; LoadWeights (PyStr s)]))).
Proof.
  intros Hs Hh Hw Hc Hd0 Hd1.
  assert (E : forall wts,
    LRMobileNetV2 seq_length [h; wd; 3] classes wts dropout w =
    bind (if bool_decide (wts <> imagenet)
          then load_weights
                 (Sequential (lrcnn_layers seq_length [h; wd; 3] classes dropout)
                    (Some [None; Some classes])) wts
          else ret tt)
         (fun _ => ret (Sequential
                          (lrcnn_layers seq_length [h; wd; 3] classes dropout)
                          (Some [None; Some classes])))
         (World (fits w) (log w ++ [FetchImagenet]))).
  { intros wts. unfold LRMobileNetV2, MobileNetV2.
    cbn [andb]. rewrite Z.eqb_refl. cbn [negb].
    replace (h <? 32) with false by (symmetry; apply Z.ltb_ge; lia).
    replace (wd <? 32) with false by (symmetry; apply Z.ltb_ge; lia).
    cbn [orb]. unfold bind at 1. unfold bind at 1. rewrite emit_run.
    cbn [ret].
    unfold add, layer_check, lift_result.
    rewrite Hd0, Hd1.
    replace (seq_length <=? 0) with false by (symmetry; apply Z.leb_gt; lia).
    replace (classes <? 0) with false by (symmetry; apply Z.ltb_ge; lia).
    cbn -[bool_decide load_weights].
    rewrite bool_decide_eq_true_2 by reflexivity.
    cbn -[bool_decide load_weights]. reflexivity. }
  rewrite E. clear E.
  split; [| split].
  - intros ->. rewrite bool_decide_eq_false_2
      by (intros Hn; apply Hn; reflexivity).
    reflexivity.
  - intros Hne Hf. rewrite bool_decide_eq_true_2
      by (unfold imagenet; intros [= Heq]; contradiction).
    unfold load_weights, bind, emit, modify, get, ret. cbn [fits log].
    rewrite Hf. rewrite <- app_assoc. reflexivity.
  - intros Hne Hf. rewrite bool_decide_eq_true_2
      by (unfold imagenet; intros [= Heq]; contradiction).
    unfold load_weights, bind, emit, modify, get, ret, raise. cbn [fits log].
    rewrite Hf. rewrite <- app_assoc. eexists. reflexivity.
Qed.

Lemma LRMobileNetV2_string_weights_witness :
  LRMobileNetV2 16 [224; 224; 3] 101 (PyStr "ucf101.h5") (1 # 2)
    (World (fun p => String.eqb p "ucf101.h5") []) =
  (Ok (Sequential (lrcnn_layers 16 [224; 224; 3] 101 (1 # 2))
         (Some [None; Some 101])),
   World (fun p => String.eqb p "ucf101.h5")
     [FetchImagenet; LoadWeights (PyStr "ucf101.h5")]).
Proof.
  apply (LRMobileNetV2_string_weights 16 224 224 101 "ucf101.h5" (1 # 2)
           (World (fun p => String.eqb p "ucf101.h5") []));
    try lia; try reflexivity.
  discriminate.
Defined.

(** Necessary conditions, for a frame shape that is a tuple of integers and
    [weights] that is [None] or a string.  [LRMobileNetV2] returns a model
    only for RGB frames of at least 32x32, whatever [weights] is: the base
    network is always built with its ImageNet weights, which fixes three
    channels.  A returned model also means that the sequence length is not
    negative, that [classes] is not negative, that the dropout rate is in
    [0, 1], that [weights] is not [None] and, when it is not ['imagenet'],
    that its file fits and was loaded after the ImageNet weights were
    fetched. *)
Theorem LRMobileNetV2_returns_only_if (seq_length : Z) (frame_shape : list Z)
    (classes : Z) (weights : weights_arg) (dropout : Q) (w w' : world)
    (m : sequential) :
  LRMobileNetV2 seq_length frame_shape classes weights dropout w = (Ok m, w') ->
  (exists h wd, frame_shape = [h; wd; 3] /\ 32 <= h /\ 32 <= wd) /\
  0 <= seq_length /\
  0 <= classes /\
  Qle_bool 0 dropout = true /\ Qle_bool dropout 1 = true /\
  weights <> PyNone /\
  (forall s, weights = PyStr s -> s <> "imagenet"%string -> fits w s = true) /\
  log w' = log w ++ FetchImagenet ::
             (if bool_decide (weights = imagenet) then []
              else [LoadWeights weights]).
Proof.
  unfold LRMobileNetV2. intros H.
  inv_bind H. pose proof (MobileNetV2_frame _ _ _ _ _ _ Hc) as Hfs.
  apply MobileNetV2_inv in Hc as (-> & _ & ->).
  split; [exact Hfs |].
  apply bind_Ok_inv in H as (m1 & s1 & Ha1 & H).
  pose proof (add_checked _ _ _ _ _ Ha1) as Hseq.
  apply add_inv in Ha1 as [_ ->].
  apply bind_Ok_inv in H as (m2 & s2 & Ha2 & H). apply add_inv in Ha2 as [_ ->].
  apply bind_Ok_inv in H as (m3 & s3 & Ha3 & H).
  pose proof (add_checked _ _ _ _ _ Ha3) as Hdrop.
  apply add_inv in Ha3 as [_ ->].
  repeat
    (let Hadd := fresh "Hadd" in
     apply bind_Ok_inv in H; destruct H as (? & ? & Hadd & H);
     first [ lazymatch type of Hadd with
             | add _ (Dense _ _ _) _ = _ =>
                 pose proof (add_checked _ _ _ _ _ Hadd) as Hdense
             end
           | idtac ];
     apply add_inv in Hadd as [_ ->]).
  inv_bind H. apply ret_inv in H as [_ <-].
  cbn [layer_check] in Hseq, Hdrop, Hdense.
  split.
  { destruct (Z.leb_spec seq_length 0); [discriminate Hseq | lia]. }
  split.
  { destruct (Z.ltb_spec classes 0); [discriminate Hdense | assumption]. }
  destruct (Qle_bool 0 dropout); [| discriminate Hdrop].
  destruct (Qle_bool dropout 1); [| discriminate Hdrop].
  split; [reflexivity |]. split; [reflexivity |].
  destruct weights as [| path].
  - rewrite bool_decide_eq_true_2 in Hc by (unfold imagenet; discriminate).
    unfold load_weights in Hc. inv_bind Hc. discriminate Hc.
  - split; [discriminate |].
    destruct (decide (path = "imagenet"%string)) as [-> | Hs].
    + rewrite bool_decide_eq_false_2 in Hc
        by (intros Hn; apply Hn; reflexivity).
      apply ret_inv in Hc as [_ <-].
      split; [intros s0 [= <-] Hne; contradiction |].
      rewrite bool_decide_eq_true_2 by reflexivity. reflexivity.
    + rewrite bool_decide_eq_true_2 in Hc
        by (unfold imagenet; intros [= Heq]; contradiction).
      unfold load_weights in Hc. inv_bind Hc. rewrite emit_run in Hc0.
      inversion Hc0; subst. clear Hc0.
      inv_bind Hc. unfold get in Hc0. inversion Hc0; subst. clear Hc0.
      cbn [fits] in Hc.
      destruct (fits w path) eqn:Hf; [| discriminate].
      apply ret_inv in Hc as [_ <-]. cbn [log].
      split; [intros s0 [= Heq] _; subst s0; exact Hf |].
      rewrite bool_decide_eq_false_2
        by (unfold imagenet; intros [= Heq]; contradiction).
      rewrite <- app_assoc. reflexivity.
Qed.

Lemma LRMobileNetV2_returns_only_if_witness :
  exists m w',
    LRMobileNetV2 16 [224; 224; 3] 101 (PyStr "ucf101.h5") (1 # 2)
      (World (fun p => String.eqb p "ucf101.h5") []) = (Ok m, w') /\
    log w' = [FetchImagenet; LoadWeights (PyStr "ucf101.h5")].
Proof.
  eexists _, _. split.
  - vm_compute. reflexivity.
  - eapply (LRMobileNetV2_returns_only_if 16 [224; 224; 3] 101
              (PyStr "ucf101.h5") (1 # 2)
              (World (fun p => String.eqb p "ucf101.h5") [])).
    vm_compute. reflexivity.
Defined.

End KerasProperties.

(** * Further properties of [model.py] *)

(** ** Images of other sizes *)

Section SizeFacts.
Import Torch.

Lemma half_pos (s : Z) : 1 <= s -> 1 <= half s.
Proof. unfold half. intros. div_lia. Qed.

(** The stride-2 convolutions of the network, in terms of [half]. *)
Lemma conv3x3_half (cin cout n h w : Z) :
  1 <= h -> 1 <= w ->
  conv2d_shape cin cout 3 2 1 [n; cin; h; w] = Ok [n; cout; half h; half w].
Proof. apply conv3x3_half_shape. Qed.

(** The kept part of MobileNetV2 on images of any size: three of its
    convolutions have stride 2, the others keep the size. *)
Lemma backbone_arch_spatial (training : bool) (n h w : Z) :
  training = false \/ 2 <= n ->
  1 <= h -> 1 <= w ->
  shape_call training backbone_arch [n; 3; h; w] =
  Ok [n; 32; half (half (half h)); half (half (half w))].
Proof.
  intros Hn Hh Hw.
  pose proof (half_pos h Hh) as Hh1. pose proof (half_pos w Hw) as Hw1.
  pose proof (half_pos _ Hh1) as Hh2. pose proof (half_pos _ Hw1) as Hw2.
  pose proof (half_pos _ Hh2) as Hh3. pose proof (half_pos _ Hw2) as Hw3.
  unfold backbone_arch. cbn [shape_call rfold].
  repeat
    (first [ rewrite conv3x3_half by assumption
           | rewrite conv1x1_shape by assumption
           | rewrite conv3x3_same_shape by assumption
           | rewrite batch_norm2d_shape_run by (apply batch_ok, Hn)
           | unfold add_shape; rewrite bool_decide_eq_true_2 by reflexivity ];
     cbn [rbind]).
  reflexivity.
Qed.

(** An unpadded 3x3 convolution refuses a map with a side below 3. *)
Lemma conv3x3_valid_small (cin cout n h w : Z) :
  h < 3 \/ w < 3 ->
  conv2d_shape cin cout 3 1 0 [n; cin; h; w] =
  Raise (RuntimeError "Kernel size can't be greater than actual input size").
Proof.
  intros Hs. unfold conv2d_shape, conv_out. rewrite Z.eqb_refl.
  cbn [negb Z.leb Z.compare].
  destruct (Z.ltb_spec (h + 2 * 0) 3) as [Hlt | Hge]; [reflexivity |].
  destruct (Z.ltb_spec (w + 2 * 0) 3) as [Hlt' | Hge']; [reflexivity | lia].
Qed.

Lemma block_arch_small (training : bool) (i a b c n h w : Z) :
  training = false \/ 2 <= n ->
  1 <= h -> 1 <= w -> 3 <= i -> h < 3 \/ w < 3 ->
  shape_call training (block_arch i a b c) [n; a; h; w] =
  Raise (RuntimeError "Kernel size can't be greater than actual input size").
Proof.
  intros Hn Hh Hw Hi Hs. unfold block_arch.
  cbn [shape_call rfold]. rewrite conv1x1_shape by assumption.
  cbn [rbind]. rewrite batch_norm2d_shape_run by (apply batch_ok, Hn).
  cbn [rbind].
  replace (i <? 3) with false by (symmetry; apply Z.ltb_ge; lia).
  rewrite conv3x3_valid_small by assumption. reflexivity.
Qed.

(** The loop of [forward] over the five standard blocks, on shapes: the
    first three blocks always run, each halving the map. *)
Lemma feed_loop_halving (theta : gmap addr parameter) (training : bool)
    (n h w : Z) :
  training = false \/ 2 <= n ->
  1 <= h -> 1 <= w ->
  rfold
    (fun '(x, detection_feed) layer =>
       x <~ call theta training layer x ;;
       Ok (x, detection_feed ++ [x]))
    (blocks_arch [32; 512; 512; 256; 256; 256])
    ([n; 32; h; w], [[n; 32; h; w]]) =
  rfold
    (fun '(x, detection_feed) layer =>
       x <~ call theta training layer x ;;
       Ok (x, detection_feed ++ [x]))
    [block_arch 3 256 256 128; block_arch 4 256 256 128]
    ([n; 256; half (half (half h)); half (half (half w))],
     [[n; 32; h; w]; [n; 512; half h; half w];
      [n; 512; half (half h); half (half w)];
      [n; 256; half (half (half h)); half (half (half w))]]).
Proof.
  intros Hn Hh Hw.
  pose proof (half_pos h Hh) as Hh1. pose proof (half_pos w Hw) as Hw1.
  pose proof (half_pos _ Hh1) as Hh2. pose proof (half_pos _ Hw1) as Hw2.
  unfold blocks_arch.
  cbn [removelast tail zip3 enumerate enumerate_from map].
  change (0 + 1) with 1. change (1 + 1) with 2. change (2 + 1) with 3.
  change (3 + 1) with 4.
  cbn [rfold]. rewrite !call_shape.
  rewrite (block_arch_shape _ 0 32 512 256 n h w) by (auto; lia).
  change (0 <? 3) with true. cbv iota. cbn [rbind app].
  rewrite !call_shape. fold (half h) (half w).
  rewrite (block_arch_shape _ 1 512 512 256 n) by (auto; lia).
  change (1 <? 3) with true. cbv iota. cbn [rbind app].
  rewrite !call_shape. fold (half (half h)) (half (half w)).
  rewrite (block_arch_shape _ 2 512 256 128 n) by (auto; lia).
  change (2 <? 3) with true. cbv iota. cbn [rbind app].
  fold (half (half (half h))) (half (half (half w))).
  reflexivity.
Qed.

Lemma feature_sizes_pos (s : Z) :
  257 <= s -> Forall (fun x => 1 <= x) (feature_sizes s).
Proof.
  intros Hs. unfold feature_sizes, half. cbv zeta.
  repeat constructor; div_lia.
Qed.

(** [detection_feed] up to the third extra block, on images of any
    size. *)
Lemma feed_prefix (h : heap) (self : SSD300.t) (n H W : Z) :
  ssd_model h self ->
  2 <= n \/ eval_mode h self ->
  1 <= H -> 1 <= W ->
  SSD300.detection_feed h self [n; 3; H; W] =
  (r <~ rfold
     (fun '(x, detection_feed) layer =>
        x <~ call (params (store h)) (SSD300.training self) layer x ;;
        Ok (x, detection_feed ++ [x]))
     [block_arch 3 256 256 128; block_arch 4 256 256 128]
     (let h0 := half (half (half H)) in
      let w0 := half (half (half W)) in
      ([n; 256; half (half (half h0)); half (half (half w0))],
       [[n; 32; h0; w0]; [n; 512; half h0; half w0];
        [n; 512; half (half h0); half (half w0)];
        [n; 256; half (half (half h0)); half (half (half w0))]])) ;;
   Ok (snd r)).
Proof.
  intros (e & He & [Harch _] & Hblocks & _) Hmode HH HW.
  unfold SSD300.detection_feed, read_object. rewrite He. cbn [rbind].
  unfold SSDMobileNetV2FeatureExtractor.forward. rewrite call_shape.
  rewrite <- shape_call_arch, Harch.
  rewrite backbone_arch_spatial; try assumption.
  - cbn [rbind]. rewrite feed_loop_arch, Hblocks.
    rewrite feed_loop_halving.
    + reflexivity.
    + destruct Hmode as [Hn | [Ht _]]; auto.
    + repeat apply half_pos; assumption.
    + repeat apply half_pos; assumption.
  - destruct Hmode as [Hn | [_ Ht]]; auto.
Qed.

(** The feature maps of a standard detector on images of 257x257 or more. *)
Lemma detection_feed_sizes (h : heap) (self : SSD300.t) (n H W : Z) :
  ssd_model h self ->
  2 <= n \/ eval_mode h self ->
  257 <= H -> 257 <= W ->
  SSD300.detection_feed h self [n; 3; H; W] =
  Ok (scale_feed n (feature_scales H W)).
Proof.
  intros Hm Hmode HH HW.
  rewrite feed_prefix by (assumption || lia). cbv zeta.
  assert (Htr : SSD300.training self = false \/ 2 <= n)
    by (destruct Hmode as [Hn | [Ht _]]; auto).
  set (h3 := half (half (half (half (half (half H)))))).
  set (w3 := half (half (half (half (half (half W)))))).
  assert (Hh3 : 5 <= h3) by (unfold h3, half; div_lia).
  assert (Hw3 : 5 <= w3) by (unfold w3, half; div_lia).
  cbn [rfold]. rewrite !call_shape.
  rewrite (block_arch_shape _ 3 256 256 128 n h3 w3) by (auto; lia).
  change (3 <? 3) with false. cbv iota. cbn [rbind app]. rewrite !call_shape.
  rewrite (block_arch_shape _ 4 256 256 128 n) by (auto; lia).
  change (4 <? 3) with false. cbv iota. cbn [rbind app snd].
  reflexivity.
Qed.

(** On a smaller image the unpadded 3x3 convolution of block 3 or 4 meets a
    map smaller than its kernel. *)
Lemma detection_feed_small (h : heap) (self : SSD300.t) (n H W : Z) :
  ssd_model h self ->
  2 <= n \/ eval_mode h self ->
  1 <= H -> 1 <= W -> H <= 256 \/ W <= 256 ->
  SSD300.detection_feed h self [n; 3; H; W] =
  Raise (RuntimeError "Kernel size can't be greater than actual input size").
Proof.
  intros Hm Hmode HH HW Hs.
  rewrite feed_prefix by (assumption || lia). cbv zeta.
  assert (Htr : SSD300.training self = false \/ 2 <= n)
    by (destruct Hmode as [Hn | [Ht _]]; auto).
  set (h3 := half (half (half (half (half (half H)))))).
  set (w3 := half (half (half (half (half (half W)))))).
  assert (Hh3 : 1 <= h3) by (unfold h3, half; div_lia).
  assert (Hw3 : 1 <= w3) by (unfold w3, half; div_lia).
  assert (Hs3 : h3 <= 4 \/ w3 <= 4)
    by (unfold h3, w3, half; destruct Hs; [left | right]; div_lia).
  cbn [rfold]. rewrite !call_shape.
  destruct (Z_lt_le_dec h3 3) as [Hlt | Hge];
    [rewrite block_arch_small by (auto; lia); reflexivity |].
  destruct (Z_lt_le_dec w3 3) as [Hlt' | Hge'];
    [rewrite block_arch_small by (auto; lia); reflexivity |].
  rewrite (block_arch_shape _ 3 256 256 128 n h3 w3) by (auto; lia).
  change (3 <? 3) with false. cbv iota. cbn [rbind app]. rewrite !call_shape.
  rewrite block_arch_small by (auto; lia). reflexivity.
Qed.

(** The forward pass of a standard detector on images of 257x257 or
    more. *)
Lemma forward_sizes (h : heap) (self : SSD300.t) (n H W : Z) :
  ssd_model h self ->
  1 <= SSD300.num_classes self ->
  1 <= n ->
  2 <= n \/ eval_mode h self ->
  257 <= H -> 257 <= W ->
  SSD300.forward h self [n; 3; H; W] =
  Ok ([n; 4; num_boxes (feature_scales H W)],
      [n; SSD300.num_classes self; num_boxes (feature_scales H W)]).
Proof.
  intros Hm Hk Hn Hmode HH HW. unfold SSD300.forward.
  rewrite (detection_feed_sizes h self n H W Hm Hmode HH HW). cbn [rbind].
  destruct Hm as (e & _ & _ & _ & Hloc & Hconf).
  pose proof (feature_sizes_pos H HH) as PH.
  pose proof (feature_sizes_pos W HW) as PW.
  rewrite (bbox_view_scales _ self n (feature_scales H W)); try assumption.
  - reflexivity.
  - discriminate.
  - unfold feature_scales, resized, feature_sizes in *. cbv zeta in *.
    cbn [ssd_scales map fst zip zip_with].
    repeat match goal with
           | H : Forall _ (_ :: _) |- _ => apply Forall_cons in H as [? H]
           end.
    repeat constructor; assumption.
Qed.

(** Halving three times, rounding up each time, is dividing by 8 rounding
    up. *)
Lemma half3 (s : Z) : half (half (half s)) = (s + 7) / 8.
Proof. unfold half. div_lia. Qed.

(** [eval] leaves a standard detector and its backbone in evaluation mode. *)
Lemma ssd300_eval_mode (h : heap) (self : SSD300.t) :
  ssd_model h self ->
  exists self' h',
    SSD300.eval self h = (Ok self', h') /\
    ssd_model h' self' /\
    eval_mode h' self' /\
    SSD300.num_classes self' = SSD300.num_classes self.
Proof.
  intros (e & He & [Harch Hoc] & Hbl & Hloc & Hconf).
  unfold SSD300.eval, SSD300.train.
  rewrite (bind_Ok _ _ _ _ _ (get_object_run _ h e He)).
  unfold bind, set_object, modify, ret.
  eexists _, _. split; [reflexivity |].
  split; [| split; [| reflexivity]].
  - eexists. cbn. split; [apply lookup_insert_eq |].
    split; [split; assumption | auto].
  - split; [reflexivity |]. cbn. intros e'.
    rewrite lookup_insert_eq. intros [= <-]. reflexivity.
Qed.

End SizeFacts.

Section SizeProperties.
Import Torch.

(** The feature extractor has stride 8.  Whatever [is_training] and
    [num_layers] are, the extractor that [__init__] sets up maps a batch of
    two or more images of any height H and width W to 32 channels of
    height ceil(H / 8) and width ceil(W / 8).  The output is 38 high, as
    the comment in [__init__] wants it, exactly for 297 <= H <= 304. *)
Theorem SSDMobileNetV2FeatureExtractor_output_size (is_training : arg bool)
    (num_layers : arg Z) (st : pstore) :
  exists self st',
    SSDMobileNetV2FeatureExtractor.__init__ is_training num_layers st =
      (Ok self, st') /\
    (forall n H W, 2 <= n -> 1 <= H -> 1 <= W ->
       SSDMobileNetV2FeatureExtractor.forward (params st') self [n; 3; H; W] =
       Ok [n; 32; (H + 7) / 8; (W + 7) / 8]) /\
    (forall H, (H + 7) / 8 = 38 <-> 297 <= H <= 304).
Proof.
  destruct (extractor_init_run is_training num_layers st)
    as (fe & st' & Hrun & Ha & _).
  eexists _, st'. split; [exact Hrun |]. split.
  - intros n H W Hn HH HW.
    unfold SSDMobileNetV2FeatureExtractor.forward.
    cbn [SSDMobileNetV2FeatureExtractor.training
         SSDMobileNetV2FeatureExtractor.feature_extractor].
    rewrite call_shape, <- shape_call_arch, Ha.
    rewrite backbone_arch_spatial by auto. rewrite !half3. reflexivity.
  - intros H. div_lia.
Qed.

(** [input_shape] is stored and never checked.  On a standard backbone the
    detector accepts every image of 257x257 or more: the forward pass
    returns locs of shape (N, 4, B) and confs of shape (N, num_classes, B),
    where B is the number of default boxes of the six feature maps of an
    H x W image.  This holds for N >= 2, and after [eval()] for N >= 1.  For
    300x300 the feature maps have sizes 38, 19, 10, 5, 3, 1; for 512x512
    they have sizes 64, 32, 16, 8, 6, 4, and B is 24656. *)
Theorem SSD300_forward_any_size (h : heap) (cls : SSD300.class)
    (backbone : arg addr) (num_classes : Z) (weights : arg (option string))
    (e : SSDMobileNetV2FeatureExtractor.t) :
  objs h !! arg_or backbone (SSD300.default_backbone cls) = Some e ->
  is_backbone e ->
  1 <= num_classes ->
  exists self h',
    SSD300.__init__ cls backbone (Given num_classes) weights h = (Ok self, h') /\
    SSD300.input_shape self = [3; 300; 300] /\
    (forall n H W, 2 <= n -> 257 <= H -> 257 <= W ->
       SSD300.forward h' self [n; 3; H; W] =
       Ok ([n; 4; num_boxes (feature_scales H W)],
           [n; num_classes; num_boxes (feature_scales H W)])) /\
    (exists self' h'',
       SSD300.eval self h' = (Ok self', h'') /\
       forall n H W, 1 <= n -> 257 <= H -> 257 <= W ->
         SSD300.forward h'' self' [n; 3; H; W] =
         Ok ([n; 4; num_boxes (feature_scales H W)],
             [n; num_classes; num_boxes (feature_scales H W)])) /\
    feature_sizes 300 = [38; 19; 10; 5; 3; 1] /\
    feature_sizes 512 = [64; 32; 16; 8; 6; 4] /\
    num_boxes (feature_scales 512 512) = 24656.
Proof.
  intros He Hb Hnc.
  destruct (ssd300_init_run cls backbone (Given num_classes) weights h e He)
    as (blocks & loc & conf & st1 & st' & Hrun & B1 & B2 & B3 & _ & _);
    [destruct Hb as [_ ->]; repeat constructor; lia | cbn; lia
    | left; cbn; lia |].
  cbv zeta in Hrun. cbn [arg_or] in *.
  eexists _, _. split; [exact Hrun |]. split; [reflexivity |].
  match type of Hrun with _ = (Ok ?s, ?h1) => set (self := s) in *; set (h' := h1) in * end.
  assert (Hm : ssd_model h' self).
  { pose proof Hb as [_ Hoc]. rewrite Hoc in B1, B2, B3.
    exists e. cbn. split; [exact He |]. split; [exact Hb |].
    split; [exact (built_list_arch _ _ _ _ B1) |].
    split; [exact (built_list_arch _ _ _ _ B2) |
            exact (built_list_arch _ _ _ _ B3)]. }
  split; [| split; [| repeat split; reflexivity]].
  - intros n H W Hn HH HW.
    apply (forward_sizes h' self n H W Hm); auto; cbn; lia.
  - destruct (ssd300_eval_mode h' self Hm)
      as (self' & h'' & Heval & Hm' & Hmode & Hk').
    exists self', h''. split; [exact Heval |].
    intros n H W Hn HH HW.
    change num_classes with (SSD300.num_classes self). rewrite <- Hk'.
    apply (forward_sizes h'' self' n H W Hm'); auto. rewrite Hk'. cbn. lia.
Qed.

Lemma SSD300_forward_any_size_witness :
  exists self h',
    SSD300.__init__ imported_class Default (Given 21) Default imported_heap
      = (Ok self, h') /\
    forall n, 2 <= n ->
      SSD300.forward h' self [n; 3; 512; 512] =
      Ok ([n; 4; 24656], [n; 21; 24656]).
Proof.
  edestruct (SSD300_forward_any_size imported_heap imported_class Default 21
              Default)
    as (self & h' & Hrun & _ & Hfwd & _ & _ & _ & Hb).
  - vm_compute. reflexivity.
  - split; vm_compute; reflexivity.
  - lia.
  - exists self, h'. split; [exact Hrun |]. intros n Hn.
    rewrite <- Hb. apply Hfwd; lia.
Defined.

(** An image with a side of 256 or less is refused: the last two extra
    blocks use unpadded 3x3 convolutions, and one of them meets a feature
    map with a side below 3.  So is the usual 224x224 input of MobileNetV2.
    (For N >= 2; after [eval()] for every N.) *)
Theorem SSD300_forward_small_input (h : heap) (cls : SSD300.class)
    (backbone : arg addr) (num_classes : arg Z)
    (weights : arg (option string)) (e : SSDMobileNetV2FeatureExtractor.t) :
  objs h !! arg_or backbone (SSD300.default_backbone cls) = Some e ->
  is_backbone e ->
  0 <= arg_or num_classes 81 ->
  exists self h',
    SSD300.__init__ cls backbone num_classes weights h = (Ok self, h') /\
    (forall n H W, 2 <= n -> 1 <= H -> 1 <= W -> H <= 256 \/ W <= 256 ->
       SSD300.forward h' self [n; 3; H; W] =
       Raise (RuntimeError "Kernel size can't be greater than actual input size")) /\
    (exists self' h'',
       SSD300.eval self h' = (Ok self', h'') /\
       forall n H W, 1 <= H -> 1 <= W -> H <= 256 \/ W <= 256 ->
         SSD300.forward h'' self' [n; 3; H; W] =
         Raise (RuntimeError "Kernel size can't be greater than actual input size")).
Proof.
  intros He Hb Hnc.
  destruct (ssd300_init_model cls backbone num_classes weights h e He Hb Hnc)
    as (self & h' & Hrun & Hm & _).
  exists self, h'. split; [exact Hrun |]. split.
  - intros n H W Hn HH HW Hs. unfold SSD300.forward.
    rewrite (detection_feed_small h' self n H W) by auto. reflexivity.
  - destruct (ssd300_eval_mode h' self Hm)
      as (self' & h'' & Heval & Hm' & Hmode & _).
    exists self', h''. split; [exact Heval |].
    intros n H W HH HW Hs. unfold SSD300.forward.
    rewrite (detection_feed_small h'' self' n H W) by auto. reflexivity.
Qed.

Lemma SSD300_forward_small_input_witness :
  exists self h',
    SSD300.__init__ imported_class Default Default Default imported_heap
      = (Ok self, h') /\
    SSD300.forward h' self [8; 3; 224; 224] =
    Raise (RuntimeError "Kernel size can't be greater than actual input size").
Proof.
  edestruct (SSD300_forward_small_input imported_heap imported_class Default
              Default Default)
    as (self & h' & Hrun & Hfwd & _).
  - vm_compute. reflexivity.
  - split; vm_compute; reflexivity.
  - cbn. lia.
  - exists self, h'. split; [exact Hrun |]. apply Hfwd; lia.
Defined.

End SizeProperties.

Section ChannelProperties.
Import Torch.

(** The first convolution of the backbone wants three channels. *)
Lemma backbone_arch_channels (training : bool) (n c h w : Z) :
  c <> 3 ->
  shape_call training backbone_arch [n; c; h; w] = Raise (ChannelMismatch 3 c).
Proof.
  intros Hc. unfold backbone_arch. cbn [shape_call rfold].
  unfold conv2d_shape at 1.
  replace (c =? 3) with false by (symmetry; apply Z.eqb_neq; exact Hc).
  reflexivity.
Qed.

(** An input that does not have three channels is refused by the first
    layer of the backbone, whatever its batch size and spatial size and in
    either mode: grayscale images are not accepted. *)
Theorem SSD300_forward_wrong_channels (h : heap) (cls : SSD300.class)
    (backbone : arg addr) (num_classes : arg Z)
    (weights : arg (option string)) (e : SSDMobileNetV2FeatureExtractor.t) :
  objs h !! arg_or backbone (SSD300.default_backbone cls) = Some e ->
  is_backbone e ->
  0 <= arg_or num_classes 81 ->
  exists self h',
    SSD300.__init__ cls backbone num_classes weights h = (Ok self, h') /\
    (forall n c H W, c <> 3 ->
       SSD300.forward h' self [n; c; H; W] = Raise (ChannelMismatch 3 c)) /\
    (exists self' h'',
       SSD300.eval self h' = (Ok self', h'') /\
       forall n c H W, c <> 3 ->
         SSD300.forward h'' self' [n; c; H; W] = Raise (ChannelMismatch 3 c)).
Proof.
  intros He Hb Hnc.
  destruct (ssd300_init_model cls backbone num_classes weights h e He Hb Hnc)
    as (self & h' & Hrun & Hm & _).
  assert (Hfwd : forall h0 self0, ssd_model h0 self0 ->
            forall n c H W, c <> 3 ->
            SSD300.forward h0 self0 [n; c; H; W] = Raise (ChannelMismatch 3 c)).
  { intros h0 self0 (e0 & He0 & [Harch _] & _) n c H W Hc.
    unfold SSD300.forward, SSD300.detection_feed, read_object.
    rewrite He0. cbn [rbind].
    unfold SSDMobileNetV2FeatureExtractor.forward.
    rewrite call_shape, <- shape_call_arch, Harch.
    rewrite backbone_arch_channels by exact Hc. reflexivity. }
  exists self, h'. split; [exact Hrun |]. split; [apply Hfwd, Hm |].
  destruct (ssd300_eval_model h' self Hm) as (self' & h'' & Heval & Hm' & _).
  exists self', h''. split; [exact Heval | apply Hfwd, Hm'].
Qed.

Lemma SSD300_forward_wrong_channels_witness :
  exists self h',
    SSD300.__init__ imported_class Default Default Default imported_heap
      = (Ok self, h') /\
    SSD300.forward h' self [8; 1; 300; 300] = Raise (ChannelMismatch 3 1).
Proof.
  edestruct (SSD300_forward_wrong_channels imported_heap imported_class
               Default Default Default)
    as (self & h' & Hrun & Hfwd & _).
  - vm_compute. reflexivity.
  - split; vm_compute; reflexivity.
  - cbn. lia.
  - exists self, h'. split; [exact Hrun |]. apply Hfwd. lia.
Defined.

End ChannelProperties.

(** ** What the constructors load *)

Section Preservation.
Import Torch.
Context {S X : Type} (proj : S -> X) (R : X -> X -> Prop).
Hypothesis R_refl : forall st, R st st.
Hypothesis R_trans : forall st1 st2 st3, R st1 st2 -> R st2 st3 -> R st1 st3.

Lemma preserves_ret {A} (a : A) : preserves proj R (ret a).
Proof. intros s. apply R_refl. Qed.

Lemma preserves_raise {A} (e : exn) : preserves proj R (@raise S A e).
Proof. intros s. apply R_refl. Qed.

Lemma preserves_bind {A B} (c : M S A) (k : A -> M S B) :
  preserves proj R c -> (forall a, preserves proj R (k a)) ->
  preserves proj R (bind c k).
Proof.
  intros Hc Hk s. unfold bind. specialize (Hc s).
  destruct (c s) as [[a | e] s1]; cbn [snd] in *; [| exact Hc].
  apply (R_trans _ (proj s1)); [exact Hc | apply Hk].
Qed.

Lemma preserves_foldM {A B} (f : B -> A -> M S B) (l : list A) :
  (forall b a, preserves proj R (f b a)) ->
  forall b, preserves proj R (foldM f l b).
Proof.
  intros Hf. induction l as [| a l IH]; intros b; cbn [foldM].
  - apply preserves_ret.
  - apply preserves_bind; [apply Hf | exact IH].
Qed.

Lemma preserves_sequence {A} (cs : list (M S A)) :
  Forall (preserves proj R) cs -> preserves proj R (nn.sequence cs).
Proof.
  induction 1 as [| c cs Hc _ IH]; cbn [nn.sequence].
  - apply preserves_ret.
  - apply preserves_bind; [exact Hc |]. intros a.
    apply preserves_bind; [exact IH |]. intros l. apply preserves_ret.
Qed.

End Preservation.

Section NoCheckpoint.
Import Torch.

Lemma ncl_refl (st : pstore) : no_checkpoint_loaded st st.
Proof. intros a p H. left. exact H. Qed.

Lemma ncl_trans (st1 st2 st3 : pstore) :
  no_checkpoint_loaded st1 st2 -> no_checkpoint_loaded st2 st3 ->
  no_checkpoint_loaded st1 st3.
Proof.
  intros H12 H23 a p H. destruct (H23 a p H) as [H2 | Hd]; [| right; exact Hd].
  apply (H12 a p H2).
Qed.

Lemma ln_ret {A} (a : A) : loads_nothing (ret a).
Proof. apply preserves_ret, ncl_refl. Qed.

Lemma ln_bind {A B} (c : M pstore A) (k : A -> M pstore B) :
  loads_nothing c -> (forall a, loads_nothing (k a)) -> loads_nothing (bind c k).
Proof. apply preserves_bind, ncl_trans. Qed.

Lemma ln_raise {A} (e : exn) : loads_nothing (@raise pstore A e).
Proof. apply preserves_raise, ncl_refl. Qed.

Lemma ln_draw : loads_nothing draw.
Proof. intros st a p H. left. exact H. Qed.

Lemma ln_get_param (a : addr) : loads_nothing (get_param a).
Proof.
  intros st. unfold get_param.
  destruct (params st !! a); apply ncl_refl.
Qed.

Lemma ln_new_parameter (s : shape) (d : data) :
  is_checkpoint d = false -> loads_nothing (new_parameter s d).
Proof.
  intros Hd st. unfold new_parameter.
  destruct (forallb _ s); [| apply ncl_refl].
  intros a p. cbn. destruct (decide (a = next st)) as [-> | Hne].
  - rewrite lookup_insert_eq. intros [= <-]. right. exact Hd.
  - rewrite lookup_insert_ne by congruence. auto.
Qed.

Lemma ln_set_data (a : addr) (d : data) :
  is_checkpoint d = false -> loads_nothing (set_data a d).
Proof.
  intros Hd st. unfold set_data, bind, get_param.
  destruct (params st !! a) as [p0 |]; [| apply ncl_refl].
  intros b p. cbn. destruct (decide (b = a)) as [-> | Hne].
  - rewrite lookup_insert_eq. intros [= <-]. right. exact Hd.
  - rewrite lookup_insert_ne by congruence. auto.
Qed.

Lemma ln_Conv2d (cin cout k s p g : Z) (bias : bool) :
  loads_nothing (nn.Conv2d cin cout k s p g bias).
Proof.
  unfold nn.Conv2d.
  destruct (g <=? 0); [apply ln_raise |].
  destruct (negb (cin mod g =? 0)); [apply ln_raise |].
  destruct (negb (cout mod g =? 0)); [apply ln_raise |].
  apply ln_bind; [apply ln_draw |]. intros n.
  apply ln_bind; [apply ln_new_parameter; reflexivity |]. intros w.
  apply ln_bind; [| intros b; apply ln_ret].
  destruct bias; [| apply ln_ret].
  apply ln_bind; [apply ln_draw |]. intros n'.
  apply ln_bind; [apply ln_new_parameter; reflexivity |]. intros b.
  apply ln_ret.
Qed.

Lemma ln_BatchNorm2d (c : Z) : loads_nothing (nn.BatchNorm2d c).
Proof.
  unfold nn.BatchNorm2d.
  apply ln_bind; [apply ln_new_parameter; reflexivity |]. intros w.
  apply ln_bind; [apply ln_new_parameter; reflexivity |]. intros b.
  apply ln_ret.
Qed.

Lemma ln_Sequential (cs : list (M pstore module)) :
  Forall loads_nothing cs -> loads_nothing (nn.Sequential cs).
Proof.
  intros H. unfold nn.Sequential.
  apply ln_bind; [| intros ms; apply ln_ret].
  apply preserves_sequence; [apply ncl_refl | apply ncl_trans | exact H].
Qed.

Lemma ln_feature_block (i a b c : Z) :
  loads_nothing (SSD300.feature_block i a b c).
Proof.
  unfold SSD300.feature_block.
  destruct (i <? 3); apply ln_Sequential;
    repeat (first [apply List.Forall_nil | apply List.Forall_cons]);
    first [apply ln_Conv2d | apply ln_BatchNorm2d | apply ln_ret].
Qed.

Lemma ln_build_feature_layers (ocs : list Z) :
  loads_nothing (SSD300._build_feature_layers ocs).
Proof.
  unfold SSD300._build_feature_layers.
  apply preserves_foldM; [apply ncl_refl | apply ncl_trans |].
  intros blocks [i [[a b] c]].
  apply ln_bind; [apply ln_feature_block | intros m; apply ln_ret].
Qed.

Lemma ln_build_heads (nds ocs : list Z) (k : Z) :
  loads_nothing (SSD300.build_heads nds ocs k).
Proof.
  unfold SSD300.build_heads.
  apply preserves_foldM; [apply ncl_refl | apply ncl_trans |].
  intros [loc conf] [nd oc].
  apply ln_bind; [apply ln_Conv2d |]. intros l.
  apply ln_bind; [apply ln_Conv2d |]. intros c. apply ln_ret.
Qed.

Lemma ln_init_weights (self : SSD300.t) :
  loads_nothing (SSD300._init_weights self).
Proof.
  unfold SSD300._init_weights.
  apply preserves_foldM; [apply ncl_refl | apply ncl_trans |].
  intros [] layer.
  apply preserves_foldM; [apply ncl_refl | apply ncl_trans |].
  intros [] param.
  apply ln_bind; [apply ln_get_param |]. intros p.
  destruct (1 <? dim p); [| apply ln_ret].
  unfold SSD300.xavier_uniform_.
  apply ln_bind; [apply ln_get_param |]. intros q.
  apply ln_bind; [intros st; apply ncl_refl |]. intros fans.
  destruct (fst fans + snd fans =? 0); [apply ln_raise |].
  apply ln_bind; [apply ln_draw |]. intros n.
  apply ln_set_data. reflexivity.
Qed.

Lemma preserves_on_store {A} (R : pstore -> pstore -> Prop) (c : M pstore A) :
  preserves (fun st => st) R c -> preserves store R (on_store c).
Proof.
  intros H h. unfold on_store. specialize (H (store h)).
  destruct (c (store h)) as [r st']. exact H.
Qed.

Lemma preserves_get_object (R : pstore -> pstore -> Prop) (a : addr) :
  (forall st, R st st) -> preserves store R (get_object a).
Proof.
  intros Hr h. unfold get_object. destruct (objs h !! a); apply Hr.
Qed.

(** [__init__] only builds layers and runs the Xavier initialisation. *)
Lemma init_loads_nothing (cls : SSD300.class) (backbone : arg addr)
    (num_classes : arg Z) (weights : arg (option string)) :
  preserves store no_checkpoint_loaded
    (SSD300.__init__ cls backbone num_classes weights).
Proof.
  unfold SSD300.__init__. cbv zeta.
  apply preserves_bind; [apply ncl_trans | |].
  { apply preserves_get_object, ncl_refl. }
  intros fe.
  apply preserves_bind; [apply ncl_trans | |].
  { apply preserves_on_store, ln_build_feature_layers. }
  intros blocks.
  apply preserves_bind; [apply ncl_trans | |].
  { apply preserves_get_object, ncl_refl. }
  intros fe'.
  apply preserves_bind; [apply ncl_trans | |].
  { apply preserves_on_store, ln_build_heads. }
  intros heads.
  apply preserves_bind; [apply ncl_trans | |].
  { apply preserves_on_store, ln_init_weights. }
  intros []. apply preserves_ret, ncl_refl.
Qed.

(** The objects of the heap are not touched by [__init__], whether it
    returns or raises. *)
Lemma init_objs (cls : SSD300.class) (backbone : arg addr)
    (num_classes : arg Z) (weights : arg (option string)) :
  preserves objs eq (SSD300.__init__ cls backbone num_classes weights).
Proof.
  assert (Hget : forall a, preserves objs eq (get_object a)).
  { intros a h. unfold get_object. destruct (objs h !! a); reflexivity. }
  assert (Hon : forall A (c : M pstore A), preserves objs eq (on_store c)).
  { intros A c h. unfold on_store. destruct (c (store h)). reflexivity. }
  assert (Htr : forall x y z : gmap addr SSDMobileNetV2FeatureExtractor.t,
            x = y -> y = z -> x = z) by (intros; congruence).
  unfold SSD300.__init__. cbv zeta.
  repeat (apply (preserves_bind _ _ Htr); [first [apply Hget | apply Hon] |];
          intros ?).
  apply preserves_ret. reflexivity.
Qed.

(** [SSD300.__init__] loads no weights.  The [weights] argument has no
    effect on the run.  Whether the run returns or raises, it creates no
    feature extractor, and every parameter of the store it leaves is as it
    was before the call or holds something that was not read from a
    checkpoint (a fresh draw or a constant). *)
Theorem SSD300_init_loads_no_weights (cls : SSD300.class)
    (backbone : arg addr) (num_classes : arg Z)
    (weights weights' : arg (option string)) (h : heap) :
  SSD300.__init__ cls backbone num_classes weights h =
    SSD300.__init__ cls backbone num_classes weights' h /\
  objs (snd (SSD300.__init__ cls backbone num_classes weights h)) = objs h /\
  forall a p,
    params (store (snd (SSD300.__init__ cls backbone num_classes weights h)))
      !! a = Some p ->
    params (store h) !! a = Some p \/ is_checkpoint (p_data p) = false.
Proof.
  split; [reflexivity |].
  split; [symmetry; apply (init_objs cls backbone num_classes weights h) |].
  apply (init_loads_nothing cls backbone num_classes weights h).
Qed.

End NoCheckpoint.

Section Pretrained.
Import Torch.

(** Loading the checkpoint leaves checkpoint data in every parameter it is
    given, and in every parameter that held some before. *)
Lemma load_state_dict_data (ps : list addr) :
  forall i st st',
  torchvision.load_state_dict i ps st = (Ok tt, st') ->
  (forall a, a ∈ ps -> from_checkpoint st' a) /\
  (forall a, from_checkpoint st a -> from_checkpoint st' a).
Proof.
  induction ps as [| a ps IH]; intros i st st' Hrun.
  - cbn in Hrun. apply ret_inv in Hrun as [_ <-]. split; [| auto].
    intros a Ha. inversion Ha.
  - cbn [torchvision.load_state_dict] in Hrun. inv_bind Hrun.
    unfold set_data in Hc. inv_bind Hc.
    unfold get_param in Hc0.
    destruct (params st !! a) as [p |] eqn:Hp; [| discriminate Hc0].
    injection Hc0 as <- <-. unfold modify in Hc. injection Hc as Hs. subst s.
    apply IH in Hrun as [Hin Hkeep].
    assert (Hw : forall b, from_checkpoint st b ->
                   from_checkpoint (write a (Param (p_shape p) (Checkpoint i)) st) b).
    { intros b (sh & j & Hb). unfold from_checkpoint. cbn.
      destruct (decide (b = a)) as [-> | Hne].
      - rewrite lookup_insert_eq. eauto.
      - rewrite lookup_insert_ne by congruence. eauto. }
    split.
    + intros b Hb. apply elem_of_cons in Hb as [-> | Hb]; [| auto].
      apply Hkeep. unfold from_checkpoint. cbn. rewrite lookup_insert_eq. eauto.
    + intros b Hb. apply Hkeep, Hw, Hb.
Qed.

Lemma mobilenet_v2_pretrained (st st' : pstore) (m : module) :
  torchvision.mobilenet_v2 true st = (Ok m, st') ->
  forall a, a ∈ parameters m -> from_checkpoint st' a.
Proof.
  unfold torchvision.mobilenet_v2. intros H.
  inv_bind H. inv_bind H. inv_bind H. inv_bind H.
  apply ret_inv in H as [<- <-].
  destruct a2. apply (load_state_dict_data _ _ _ _ Hc2).
Qed.

Lemma parameters_take (n : nat) (ms : list module) (a : addr) :
  a ∈ flat_map parameters (take n ms) -> a ∈ flat_map parameters ms.
Proof.
  rewrite !list_elem_of_In, !in_flat_map.
  intros (m & Hm & Ha). exists m. split; [| exact Ha].
  apply list_elem_of_In. apply list_elem_of_In in Hm.
  apply (subseteq_take n ms m Hm).
Qed.

Lemma extractor_init_pretrained (is_training : arg bool) (num_layers : arg Z)
    (st st' : pstore) (self : SSDMobileNetV2FeatureExtractor.t) :
  SSDMobileNetV2FeatureExtractor.__init__ is_training num_layers st =
    (Ok self, st') ->
  forall a,
    a ∈ parameters (SSDMobileNetV2FeatureExtractor.feature_extractor self) ->
    from_checkpoint st' a.
Proof.
  unfold SSDMobileNetV2FeatureExtractor.__init__. intros H.
  apply bind_Ok_inv in H as (m & st1 & Hm & H).
  apply ret_inv in H as [<- <-].
  cbn [SSDMobileNetV2FeatureExtractor.feature_extractor parameters].
  intros b Hin. apply parameters_take in Hin.
  apply (mobilenet_v2_pretrained _ _ _ Hm).
  destruct m as [| | | | ms | r c]; cbn [children] in Hin.
  - inversion Hin.
  - inversion Hin.
  - inversion Hin.
  - inversion Hin.
  - exact Hin.
  - cbn [flat_map] in Hin. rewrite app_nil_r in Hin. exact Hin.
Qed.

(** The feature extractor is always pretrained.  Whatever [is_training]
    and [num_layers] are, [__init__] returns.  It builds the torchvision
    MobileNetV2 features with [pretrained=True], a sequence of nineteen
    children, and the extractor it returns is the sequence of the first
    seven of them, in their order (the architecture [backbone_arch]).  The
    extractor has parameters, every one of them holds data read from the
    pretrained checkpoint, and the module is in training mode, also with
    [is_training=False]. *)
Theorem SSDMobileNetV2FeatureExtractor_pretrained (is_training : arg bool)
    (num_layers : arg Z) (st : pstore) :
  exists features self st',
    torchvision.mobilenet_v2 true st = (Ok features, st') /\
    SSDMobileNetV2FeatureExtractor.__init__ is_training num_layers st =
      (Ok self, st') /\
    length (children features) = 19%nat /\
    SSDMobileNetV2FeatureExtractor.feature_extractor self =
      Sequential (take 7 (children features)) /\
    arch (SSDMobileNetV2FeatureExtractor.feature_extractor self) =
      backbone_arch /\
    length (children (SSDMobileNetV2FeatureExtractor.feature_extractor self))
      = 7%nat /\
    parameters (SSDMobileNetV2FeatureExtractor.feature_extractor self) <> [] /\
    (forall a,
       a ∈ parameters (SSDMobileNetV2FeatureExtractor.feature_extractor self) ->
       exists s i, params st' !! a = Some (Param s (Checkpoint i))) /\
    SSDMobileNetV2FeatureExtractor.training self = true.
Proof.
  destruct (constructs_mobilenet_v2 st) as (m & st' & Hm & B).
  assert (Hrun : SSDMobileNetV2FeatureExtractor.__init__ is_training
                   num_layers st =
                 (Ok (SSDMobileNetV2FeatureExtractor.Make true
                        (arg_or is_training false) (arg_or num_layers 6)
                        (Sequential (take 7 (children m)))
                        [32; 512; 512; 256; 256; 256]), st')).
  { unfold SSDMobileNetV2FeatureExtractor.__init__.
    rewrite (bind_Ok _ _ _ _ _ Hm). reflexivity. }
  destruct B as [Ha _].
  destruct m as [| | | | ms |]; try discriminate Ha.
  cbn [children] in *.
  unfold mobilenet_arch in Ha. cbn [arch] in Ha. injection Ha as Ha.
  assert (Hb : arch (Sequential (take 7 ms)) = backbone_arch).
  { cbn [arch]. rewrite <- firstn_map, Ha. reflexivity. }
  eexists _, _, st'. split; [exact Hm |]. split; [exact Hrun |].
  cbn [SSDMobileNetV2FeatureExtractor.feature_extractor
       SSDMobileNetV2FeatureExtractor.training children].
  split; [rewrite <- (length_map arch), Ha; reflexivity |].
  split; [reflexivity |].
  split; [exact Hb |].
  split; [| split; [| split; [| reflexivity]]].
  - rewrite <- (length_map arch).
    cbn [arch] in Hb. injection Hb as Hb. rewrite Hb. reflexivity.
  - intros Hnil. apply (f_equal (@length addr)) in Hnil.
    rewrite <- length_parameters_arch, Hb in Hnil. discriminate Hnil.
  - apply (extractor_init_pretrained _ _ _ _ _ Hrun).
Qed.

End Pretrained.

(** ** Sharing between detectors *)

Section SharingProperties.
Import Torch.

(** The mode of the default backbone is shared too.  With two detectors
    built without a backbone argument, [eval()] on the first puts the
    backbone of the second in evaluation mode, while the second detector
    itself, its extra blocks and its heads stay in training mode.  No
    parameter is written. *)
Theorem SSD300_eval_reaches_shared_backbone (h : heap) (num_classes1 : arg Z)
    (weights1 : arg (option string)) (num_classes2 : arg Z)
    (weights2 : arg (option string)) :
  0 <= arg_or num_classes1 81 ->
  0 <= arg_or num_classes2 81 ->
  exists cls h1 m1 h2 m2 h3 m1' h4 e e',
    SSD300.class_def h = (Ok cls, h1) /\
    SSD300.__init__ cls Default num_classes1 weights1 h1 = (Ok m1, h2) /\
    SSD300.__init__ cls Default num_classes2 weights2 h2 = (Ok m2, h3) /\
    read_object h3 (SSD300.feature_extractor m2) = Ok e /\
    SSDMobileNetV2FeatureExtractor.training e = true /\
    SSD300.eval m1 h3 = (Ok m1', h4) /\
    SSD300.training m1' = false /\
    SSD300.training m2 = true /\
    read_object h4 (SSD300.feature_extractor m2) = Ok e' /\
    SSDMobileNetV2FeatureExtractor.training e' = false /\
    SSDMobileNetV2FeatureExtractor.feature_extractor e' =
      SSDMobileNetV2FeatureExtractor.feature_extractor e /\
    store h4 = store h3.
Proof.
  intros Hn1 Hn2.
  destruct (class_def_run h) as (fe & st1 & Hdef & B).
  set (e := SSDMobileNetV2FeatureExtractor.Make true false 6 fe
              [32; 512; 512; 256; 256; 256]) in *.
  set (h1 := Heap st1 (<[next_obj h := e]> (objs h)) (S (next_obj h))) in *.
  set (cls := SSD300.Class (next_obj h)) in *.
  assert (He1 : objs h1 !! arg_or Default (SSD300.default_backbone cls) = Some e)
    by apply lookup_insert_eq.
  assert (Hoc : Forall (fun n => 0 <= n)
                  (SSDMobileNetV2FeatureExtractor.out_channels e))
    by (cbn; repeat constructor; lia).
  destruct (ssd300_init_model cls Default num_classes1 weights1 h1 e He1)
    as (m1 & h2 & Hrun1 & _ & Hobj1 & _ & _ & Hfe1);
    [split; [exact (proj1 B) | reflexivity] | exact Hn1 |].
  assert (He2 : objs h2 !! arg_or Default (SSD300.default_backbone cls) = Some e)
    by (rewrite Hobj1; exact He1).
  destruct (ssd300_init_model cls Default num_classes2 weights2 h2 e He2)
    as (m2 & h3 & Hrun2 & _ & Hobj2 & Htr2 & _ & Hfe2);
    [split; [exact (proj1 B) | reflexivity] | exact Hn2 |].
  cbn [arg_or] in Hfe1, Hfe2, He2.
  assert (He3 : objs h3 !! SSD300.default_backbone cls = Some e)
    by (rewrite Hobj2; exact He2).
  eexists cls, h1, m1, h2, m2, h3, _, _, e, _.
  split; [exact Hdef |]. split; [exact Hrun1 |]. split; [exact Hrun2 |].
  split; [unfold read_object; rewrite Hfe2, He3; reflexivity |].
  split; [reflexivity |].
  split.
  { unfold SSD300.eval, SSD300.train. rewrite Hfe1.
    rewrite (bind_Ok _ _ _ _ _ (get_object_run _ h3 e He3)).
    unfold bind, set_object, modify, ret. reflexivity. }
  split; [reflexivity |]. split; [exact Htr2 |].
  split; [unfold read_object; cbn [objs]; rewrite Hfe2, lookup_insert_eq;
          reflexivity |].
  repeat split.
Qed.

Lemma SSD300_eval_reaches_shared_backbone_witness :
  exists cls h1 m1 h2 m2 h3 m1' h4 e',
    SSD300.class_def empty_heap = (Ok cls, h1) /\
    SSD300.__init__ cls Default Default Default h1 = (Ok m1, h2) /\
    SSD300.__init__ cls Default (Given 21) Default h2 = (Ok m2, h3) /\
    SSD300.eval m1 h3 = (Ok m1', h4) /\
    SSD300.training m2 = true /\
    read_object h4 (SSD300.feature_extractor m2) = Ok e' /\
    SSDMobileNetV2FeatureExtractor.training e' = false.
Proof.
  destruct (SSD300_eval_reaches_shared_backbone empty_heap Default Default
              (Given 21) Default)
    as (cls & h1 & m1 & h2 & m2 & h3 & m1' & h4 & e & e' & H1 & H2 & H3 & _ &
        _ & H4 & _ & H5 & H6 & H7 & _).
  - cbn. lia.
  - cbn. lia.
  - exists cls, h1, m1, h2, m2, h3, m1', h4, e'. auto 10.
Defined.

(** [SSD300.__init__] writes only to parameters it allocates itself.  On
    a backbone with non-negative channel counts, with a class or with
    positive channel counts only, it returns, creates no
    object, leaves every parameter that existed before the call as it was
    (the backbone and every detector built earlier), and the parameters
    [_init_weights] walks over were all allocated during the call. *)
Theorem SSD300_init_writes_only_fresh (cls : SSD300.class)
    (backbone : arg addr) (num_classes : arg Z)
    (weights : arg (option string)) (h : heap)
    (e : SSDMobileNetV2FeatureExtractor.t) :
  objs h !! arg_or backbone (SSD300.default_backbone cls) = Some e ->
  Forall (fun n => 0 <= n) (SSDMobileNetV2FeatureExtractor.out_channels e) ->
  0 <= arg_or num_classes 81 ->
  0 < arg_or num_classes 81 \/
    Forall (fun n => 0 < n) (SSDMobileNetV2FeatureExtractor.out_channels e) ->
  exists self h',
    SSD300.__init__ cls backbone num_classes weights h = (Ok self, h') /\
    objs h' = objs h /\
    (forall a, (a < next (store h))%nat ->
       params (store h') !! a = params (store h) !! a) /\
    Forall (fun a => (next (store h) <= a < next (store h'))%nat)
      (touched self).
Proof.
  intros He Hoc Hnc Hfan.
  destruct (ssd300_init_run cls backbone num_classes weights h e He Hoc Hnc
              Hfan)
    as (blocks & loc & conf & st1 & st' & Hrun & B1 & B2 & B3 & Hx & _).
  cbv zeta in Hrun, Hx.
  eexists _, _. split; [exact Hrun |]. cbn [objs store].
  split; [reflexivity |].
  destruct B1 as (_ & [Hle Hframe] & F1 & _), B2 as (_ & _ & F2 & _),
           B3 as (_ & _ & F3 & _).
  pose proof (fresh_touched _ _ _ _ _ F1 F2 F3) as Hf.
  destruct Hx as [Hn Hx']. split.
  - intros a Ha. rewrite <- Hframe by exact Ha.
    apply (xavier_applied_frame _ st1 st' a (conj Hn Hx')).
    unfold touched. cbn [SSD300.feature_blocks SSD300.loc SSD300.conf].
    rewrite Forall_forall in Hf. intros Hin. specialize (Hf a Hin). lia.
  - unfold touched. cbn [SSD300.feature_blocks SSD300.loc SSD300.conf].
    rewrite Hn. exact Hf.
Qed.

Lemma SSD300_init_writes_only_fresh_witness :
  exists self h',
    SSD300.__init__ imported_class Default Default Default imported_heap
      = (Ok self, h') /\
    objs h' = objs imported_heap /\
    forall a, (a < next (store imported_heap))%nat ->
      params (store h') !! a = params (store imported_heap) !! a.
Proof.
  edestruct (SSD300_init_writes_only_fresh imported_class Default Default
               Default imported_heap)
    as (self & h' & Hrun & Hobjs & Hframe & _).
  - vm_compute. reflexivity.
  - vm_compute. repeat constructor; discriminate.
  - cbn. lia.
  - left. cbn. lia.
  - exists self, h'. auto.
Defined.

(** Detectors that are each given a feature extractor of their own share
    nothing: the two backbones are different objects, they have no
    parameter in common, and an update of a backbone parameter made
    through the first detector leaves what the second reads as it was. *)
Theorem SSD300_explicit_backbones_separate (h : heap) (cls : SSD300.class)
    (num_classes1 : arg Z) (weights1 : arg (option string))
    (num_classes2 : arg Z) (weights2 : arg (option string)) :
  0 <= arg_or num_classes1 81 ->
  0 <= arg_or num_classes2 81 ->
  exists b1 h1 m1 h2 b2 h3 m2 h4 e1 e2,
    new_SSDMobileNetV2FeatureExtractor Default Default h = (Ok b1, h1) /\
    SSD300.__init__ cls (Given b1) num_classes1 weights1 h1 = (Ok m1, h2) /\
    new_SSDMobileNetV2FeatureExtractor Default Default h2 = (Ok b2, h3) /\
    SSD300.__init__ cls (Given b2) num_classes2 weights2 h3 = (Ok m2, h4) /\
    SSD300.feature_extractor m1 <> SSD300.feature_extractor m2 /\
    objs h4 !! SSD300.feature_extractor m1 = Some e1 /\
    objs h4 !! SSD300.feature_extractor m2 = Some e2 /\
    (forall a,
       a ∈ parameters (SSDMobileNetV2FeatureExtractor.feature_extractor e1) ->
       a ∉ parameters (SSDMobileNetV2FeatureExtractor.feature_extractor e2)) /\
    (forall i d,
       (i < length (parameters
                      (SSDMobileNetV2FeatureExtractor.feature_extractor e1)))%nat ->
       exists h5,
         update_backbone m1 i d h4 = (Ok tt, h5) /\
         backbone_parameters h5 m2 = backbone_parameters h4 m2).
Proof.
  intros Hn1 Hn2.
  destruct (new_extractor_run Default Default h) as (fe1 & st1 & Hnew1 & B1).
  cbn [arg_or] in Hnew1.
  set (e1 := SSDMobileNetV2FeatureExtractor.Make true false 6 fe1
               [32; 512; 512; 256; 256; 256]) in *.
  set (h1 := Heap st1 (<[next_obj h := e1]> (objs h)) (S (next_obj h))) in *.
  assert (Hoc1 : Forall (fun n => 0 <= n)
                   (SSDMobileNetV2FeatureExtractor.out_channels e1))
    by (cbn; repeat constructor; lia).
  destruct (ssd300_init_frame cls (Given (next_obj h)) num_classes1 weights1
              h1 e1)
    as (m1 & h2 & Hrun1 & Hobj1 & Hnobj1 & Hfe1 & Hle1 & Hframe1);
    [apply lookup_insert_eq | exact Hoc1 | exact Hn1
    | right; cbn; repeat constructor; lia |].
  cbn [arg_or] in Hfe1.
  destruct (new_extractor_run Default Default h2) as (fe2 & st3 & Hnew2 & B2).
  cbn [arg_or] in Hnew2. rewrite Hnobj1, Hobj1 in Hnew2. cbn [next_obj h1] in Hnew2.
  set (e2 := SSDMobileNetV2FeatureExtractor.Make true false 6 fe2
               [32; 512; 512; 256; 256; 256]) in *.
  set (h3 := Heap st3 (<[S (next_obj h) := e2]> (objs h1))
               (S (S (next_obj h)))) in *.
  assert (Hoc2 : Forall (fun n => 0 <= n)
                   (SSDMobileNetV2FeatureExtractor.out_channels e2))
    by (cbn; repeat constructor; lia).
  destruct (ssd300_init_frame cls (Given (S (next_obj h))) num_classes2
              weights2 h3 e2)
    as (m2 & h4 & Hrun2 & Hobj2 & _ & Hfe2 & Hle2 & Hframe2);
    [apply lookup_insert_eq | exact Hoc2 | exact Hn2
    | right; cbn; repeat constructor; lia |].
  cbn [arg_or] in Hfe2.
  assert (He1 : objs h4 !! SSD300.feature_extractor m1 = Some e1).
  { rewrite Hfe1, Hobj2. cbn [objs h3 h1].
    rewrite lookup_insert_ne by lia. apply lookup_insert_eq. }
  assert (He2 : objs h4 !! SSD300.feature_extractor m2 = Some e2)
    by (rewrite Hfe2, Hobj2; apply lookup_insert_eq).
  destruct B1 as (_ & _ & Hfresh1 & Hstored1).
  destruct B2 as (_ & E2 & Hfresh2 & _).
  unfold fresh in Hfresh1, Hfresh2. rewrite Forall_forall in Hfresh1, Hfresh2.
  cbn [store h1 h3] in Hfresh1, Hfresh2, Hle1, Hframe1, Hle2, Hframe2, E2.
  assert (Hsep : forall a, a ∈ parameters fe1 -> a ∉ parameters fe2).
  { intros a Ha1 Ha2. specialize (Hfresh1 a Ha1). specialize (Hfresh2 a Ha2).
    lia. }
  exists (next_obj h), h1, m1, h2, (S (next_obj h)), h3, m2, h4, e1, e2.
  split; [exact Hnew1 |]. split; [exact Hrun1 |]. split; [exact Hnew2 |].
  split; [exact Hrun2 |].
  split; [rewrite Hfe1, Hfe2; lia |]. split; [exact He1 |].
  split; [exact He2 |].
  split; [exact Hsep |].
  intros i d Hi. cbn [SSDMobileNetV2FeatureExtractor.feature_extractor e1] in Hi.
  destruct (lookup_lt_is_Some_2 (parameters fe1) i Hi) as [a Ha].
  assert (Hin : a ∈ parameters fe1) by (eapply list_elem_of_lookup_2; eauto).
  assert (Hlt : (a < next st1)%nat) by (specialize (Hfresh1 a Hin); lia).
  assert (Hp : exists p, params (store h4) !! a = Some p).
  { apply stored_is_Some in Hstored1. rewrite Forall_forall in Hstored1.
    destruct (Hstored1 a Hin) as [p Hp]. exists p.
    rewrite Hframe2 by (destruct E2 as [E2 _]; lia).
    destruct E2 as [_ E2]. rewrite E2 by lia.
    rewrite Hframe1 by exact Hlt. exact Hp. }
  destruct Hp as [p Hp].
  exists (Heap (write a (Param (p_shape p) d) (store h4)) (objs h4)
            (next_obj h4)).
  split.
  - unfold update_backbone.
    rewrite (bind_Ok _ _ _ _ _ (get_object_run _ h4 e1 He1)).
    cbn [SSDMobileNetV2FeatureExtractor.feature_extractor e1]. rewrite Ha.
    apply on_store_run, set_data_run, Hp.
  - unfold backbone_parameters, read_object. cbn [objs store].
    rewrite He2. cbn [rbind]. f_equal.
    apply map_ext_in. intros b Hb. cbn [write params].
    apply lookup_insert_ne. intros <-.
    apply (Hsep a Hin). apply list_elem_of_In. exact Hb.
Qed.

Lemma SSD300_explicit_backbones_separate_witness :
  exists b1 h1 m1 h2 b2 h3 m2 h4,
    new_SSDMobileNetV2FeatureExtractor Default Default empty_heap
      = (Ok b1, h1) /\
    SSD300.__init__ (SSD300.Class 0%nat) (Given b1) Default Default h1
      = (Ok m1, h2) /\
    new_SSDMobileNetV2FeatureExtractor Default Default h2 = (Ok b2, h3) /\
    SSD300.__init__ (SSD300.Class 0%nat) (Given b2) Default Default h3
      = (Ok m2, h4) /\
    SSD300.feature_extractor m1 <> SSD300.feature_extractor m2.
Proof.
  destruct (SSD300_explicit_backbones_separate empty_heap (SSD300.Class 0%nat)
              Default Default Default Default)
    as (b1 & h1 & m1 & h2 & b2 & h3 & m2 & h4 & e1 & e2 & H1 & H2 & H3 & H4 &
        H5 & _).
  - cbn. lia.
  - cbn. lia.
  - exists b1, h1, m1, h2, b2, h3, m2, h4. auto 10.
Defined.

End SharingProperties.

(** ** Backbones with other channel lists *)

Section ZipProperties.
Import Torch.

Lemma zip3_take {A B C} (la : list A) :
  forall (lb : list B) (lc : list C),
  zip3 la lb lc =
  zip3 (take (length la `min` (length lb `min` length lc)) la)
       (take (length la `min` (length lb `min` length lc)) lb)
       (take (length la `min` (length lb `min` length lc)) lc).
Proof.
  induction la as [| a la IH]; intros lb lc; [reflexivity |].
  destruct lb as [| b lb]; [reflexivity |].
  destruct lc as [| c lc]; [reflexivity |].
  cbn [length Nat.min take zip3]. rewrite <- IH. reflexivity.
Qed.

Lemma zip3_nil_iff {A B C} (la : list A) (lb : list B) (lc : list C) :
  zip3 la lb lc = [] <-> la = [] \/ lb = [] \/ lc = [].
Proof.
  destruct la, lb, lc; cbn; split; intros H; auto; try discriminate;
    destruct H as [H | [H | H]]; discriminate.
Qed.

(** [bbox_view] pairs the feature maps with the heads by [zip]: what is
    past the shortest of the three lists is ignored, and with nothing to
    pair the unpacking of the result fails.  This holds for every tensor
    semantics. *)
Theorem SSD300_bbox_view_zip {T} `{Framework T}
    (theta : gmap addr parameter) (self : SSD300.t) (src : list T)
    (loc conf : list module) :
  SSD300.bbox_view theta self src loc conf =
    SSD300.bbox_view theta self
      (take (length src `min` (length loc `min` length conf)) src)
      (take (length src `min` (length loc `min` length conf)) loc)
      (take (length src `min` (length loc `min` length conf)) conf) /\
  (src = [] \/ loc = [] \/ conf = [] ->
   SSD300.bbox_view theta self src loc conf =
   Raise (ValueError "not enough values to unpack (expected 2, got 0)")).
Proof.
  split.
  - unfold SSD300.bbox_view. rewrite <- zip3_take. reflexivity.
  - intros Hnil. apply zip3_nil_iff in Hnil.
    unfold SSD300.bbox_view. rewrite Hnil. reflexivity.
Qed.

End ZipProperties.

Section BackboneProperties.
Import Torch.

Lemma blocks_arch_length (ocs : list Z) :
  length (blocks_arch ocs) = (Nat.pred (length ocs) `min` 5)%nat.
Proof.
  unfold blocks_arch. rewrite length_map.
  destruct ocs as [| a [| b [| c [| d [| e [| f [| g l]]]]]]]; reflexivity.
Qed.

Lemma heads_arch_length (k : Z) (ocs : list Z) :
  length (heads_arch k [4; 6; 6; 6; 4; 4] ocs) = (length ocs `min` 6)%nat.
Proof.
  unfold heads_arch. rewrite length_map.
  destruct ocs as [| a [| b [| c [| d [| e [| f [| g l]]]]]]]; reflexivity.
Qed.

Lemma blocks_arch_take (ocs : list Z) :
  blocks_arch (take 6 ocs) = blocks_arch ocs.
Proof.
  destruct ocs as [| a [| b [| c [| d [| e [| f [| g l]]]]]]]; reflexivity.
Qed.

Lemma heads_arch_take (k : Z) (ocs : list Z) :
  heads_arch k [4; 6; 6; 6; 4; 4] (take 6 ocs) =
  heads_arch k [4; 6; 6; 6; 4; 4] ocs.
Proof.
  destruct ocs as [| a [| b [| c [| d [| e [| f [| g l]]]]]]]; reflexivity.
Qed.

(** The number of layers follows the backbone's [out_channels], up to the
    bounds of the two hard-coded lists it is zipped with: when [__init__]
    returns (non-negative channel counts, and a class or positive channel
    counts only), there are min(len - 1, 5) extra blocks and min(len, 6)
    loc and conf heads, and the channel counts past the sixth play no
    part. *)
Theorem SSD300_layers_follow_out_channels (cls : SSD300.class)
    (backbone : arg addr) (num_classes : arg Z)
    (weights : arg (option string)) (h : heap)
    (e : SSDMobileNetV2FeatureExtractor.t) :
  objs h !! arg_or backbone (SSD300.default_backbone cls) = Some e ->
  Forall (fun n => 0 <= n) (SSDMobileNetV2FeatureExtractor.out_channels e) ->
  0 <= arg_or num_classes 81 ->
  0 < arg_or num_classes 81 \/
    Forall (fun n => 0 < n) (SSDMobileNetV2FeatureExtractor.out_channels e) ->
  exists self h',
    SSD300.__init__ cls backbone num_classes weights h = (Ok self, h') /\
    length (SSD300.feature_blocks self) =
      (Nat.pred (length (SSDMobileNetV2FeatureExtractor.out_channels e))
       `min` 5)%nat /\
    length (SSD300.loc self) =
      (length (SSDMobileNetV2FeatureExtractor.out_channels e) `min` 6)%nat /\
    length (SSD300.conf self) =
      (length (SSDMobileNetV2FeatureExtractor.out_channels e) `min` 6)%nat /\
    map arch (SSD300.feature_blocks self) =
      blocks_arch (take 6 (SSDMobileNetV2FeatureExtractor.out_channels e)) /\
    map arch (SSD300.loc self) =
      heads_arch 4 [4; 6; 6; 6; 4; 4]
        (take 6 (SSDMobileNetV2FeatureExtractor.out_channels e)) /\
    map arch (SSD300.conf self) =
      heads_arch (arg_or num_classes 81) [4; 6; 6; 6; 4; 4]
        (take 6 (SSDMobileNetV2FeatureExtractor.out_channels e)).
Proof.
  intros He Hoc Hnc Hfan.
  destruct (ssd300_init_run cls backbone num_classes weights h e He Hoc Hnc
              Hfan)
    as (blocks & loc & conf & st1 & st' & Hrun & B1 & B2 & B3 & _ & _).
  cbv zeta in Hrun.
  eexists _, _. split; [exact Hrun |].
  cbn [SSD300.feature_blocks SSD300.loc SSD300.conf].
  apply built_list_arch in B1, B2, B3.
  rewrite <- (length_map arch blocks), <- (length_map arch loc),
    <- (length_map arch conf), B1, B2, B3.
  rewrite blocks_arch_length, !heads_arch_length, blocks_arch_take,
    !heads_arch_take.
  repeat split.
Qed.

Lemma SSD300_layers_follow_out_channels_witness :
  exists self h',
    SSD300.__init__ (SSD300.Class 0%nat) (Given 0%nat) Default Default
      (custom_backbone_heap [8; 16; 24; 32; 40; 48; 56; 64]) = (Ok self, h') /\
    length (SSD300.feature_blocks self) = 5%nat /\
    length (SSD300.loc self) = 6%nat /\
    length (SSD300.conf self) = 6%nat.
Proof.
  edestruct (SSD300_layers_follow_out_channels (SSD300.Class 0%nat)
               (Given 0%nat) Default Default
               (custom_backbone_heap [8; 16; 24; 32; 40; 48; 56; 64]))
    as (self & h' & Hrun & H1 & H2 & H3 & _).
  - apply lookup_insert_eq.
  - cbn. repeat constructor; lia.
  - cbn. lia.
  - left. cbn. lia.
  - exists self, h'. auto.
Defined.

(** A backbone with no channel counts: the detector is built without any
    extra block or head and without touching the heap, and its forward
    pass never returns.  When the backbone itself returns, [bbox_view] has
    nothing to unpack. *)
Theorem SSD300_no_scales (cls : SSD300.class) (backbone : arg addr)
    (num_classes : arg Z) (weights : arg (option string)) (h : heap)
    (e : SSDMobileNetV2FeatureExtractor.t) :
  objs h !! arg_or backbone (SSD300.default_backbone cls) = Some e ->
  SSDMobileNetV2FeatureExtractor.out_channels e = [] ->
  exists self,
    SSD300.__init__ cls backbone num_classes weights h = (Ok self, h) /\
    SSD300.feature_blocks self = [] /\
    SSD300.loc self = [] /\
    SSD300.conf self = [] /\
    forall T (F : Framework T) (x : T),
      SSD300.forward h self x =
      (y <~ SSDMobileNetV2FeatureExtractor.forward (params (store h)) e x ;;
       Raise (ValueError "not enough values to unpack (expected 2, got 0)")).
Proof.
  intros He Hoc.
  eexists. split.
  - destruct h as [st os n]. cbn [objs] in He.
    unfold SSD300.__init__. cbv zeta.
    rewrite (bind_Ok _ _ _ _ _ (get_object_run _ (Heap st os n) e He)).
    rewrite Hoc.
    rewrite (bind_Ok _ _ _ _ _
               (on_store_run (SSD300._build_feature_layers []) (Heap st os n)
                  (Ok []) st eq_refl)).
    cbn [objs next_obj].
    rewrite (bind_Ok _ _ _ _ _ (get_object_run _ (Heap st os n) e He)).
    rewrite Hoc.
    rewrite (bind_Ok _ _ _ _ _
               (on_store_run (SSD300.build_heads [4; 6; 6; 6; 4; 4] [] _)
                  (Heap st os n) (Ok ([], [])) st eq_refl)).
    cbn [objs next_obj fst snd].
    match goal with
    | |- context [SSD300._init_weights ?s0] =>
        rewrite (bind_Ok _ _ _ _ _
                   (on_store_run (SSD300._init_weights s0)
                      (Heap st os n) (Ok tt) st eq_refl))
    end.
    reflexivity.
  - cbn [SSD300.feature_blocks SSD300.loc SSD300.conf].
    repeat split.
    intros T F x. unfold SSD300.forward, SSD300.detection_feed, read_object.
    cbn [SSD300.feature_extractor SSD300.feature_blocks SSD300.loc SSD300.conf].
    rewrite He. cbn [rbind].
    destruct (SSDMobileNetV2FeatureExtractor.forward (params (store h)) e x)
      as [y | err]; reflexivity.
Qed.

Lemma SSD300_no_scales_witness :
  exists self,
    SSD300.__init__ (SSD300.Class 0%nat) (Given 0%nat) Default Default
      (custom_backbone_heap []) = (Ok self, custom_backbone_heap []) /\
    SSD300.forward (custom_backbone_heap []) self [2; 3; 300; 300] =
    Raise (ValueError "not enough values to unpack (expected 2, got 0)").
Proof.
  edestruct (SSD300_no_scales (SSD300.Class 0%nat) (Given 0%nat) Default
               Default (custom_backbone_heap []))
    as (self & Hrun & _ & _ & _ & Hfwd).
  - apply lookup_insert_eq.
  - reflexivity.
  - exists self. split; [exact Hrun |]. rewrite Hfwd. reflexivity.
Defined.

(** A convolution with a negative number of output channels cannot
    allocate its weight. *)
Lemma Conv2d_negative (cin cout k s p : Z) (bias : bool) (st : pstore) :
  cout < 0 ->
  nn.Conv2d cin cout k s p 1 bias st =
  (Raise (RuntimeError "Trying to create tensor with negative dimension"),
   tick st).
Proof.
  intros Hneg. unfold nn.Conv2d.
  change (1 <=? 0) with false. cbv iota. rewrite !Z.mod_1_r.
  change (negb (0 =? 0)) with false. cbv iota.
  unfold bind at 1. unfold draw at 1.
  unfold bind at 1. unfold new_parameter. cbn [forallb].
  replace (0 <=? cout) with false by (symmetry; apply Z.leb_gt; exact Hneg).
  reflexivity.
Qed.

(** A negative [num_classes] is refused when the first conf head is
    created, with the error of a tensor of negative size; no detector is
    returned and no object is created. *)
Theorem SSD300_negative_num_classes (cls : SSD300.class)
    (backbone : arg addr) (num_classes : Z) (weights : arg (option string))
    (h : heap) (e : SSDMobileNetV2FeatureExtractor.t) :
  objs h !! arg_or backbone (SSD300.default_backbone cls) = Some e ->
  is_backbone e ->
  num_classes < 0 ->
  exists h',
    SSD300.__init__ cls backbone (Given num_classes) weights h =
    (Raise (RuntimeError "Trying to create tensor with negative dimension"),
     h') /\
    objs h' = objs h.
Proof.
  intros He [_ Hoc] Hneg.
  destruct (constructs_build_feature_layers
              (SSDMobileNetV2FeatureExtractor.out_channels e)
              ltac:(rewrite Hoc; repeat constructor; lia) (store h))
    as (blocks & sta & Hrun1 & _).
  destruct (constructs_head 4 4 32 ltac:(lia) ltac:(lia) ltac:(lia) sta)
    as (l & stb & Hrun2 & _).
  eexists. split.
  - unfold SSD300.__init__. cbv zeta.
    rewrite (bind_Ok _ _ _ _ _ (get_object_run _ h e He)).
    rewrite (bind_Ok _ _ _ _ _ (on_store_run _ h _ _ Hrun1)).
    rewrite (bind_Ok _ _ _ _ _
               (get_object_run _ (Heap sta (objs h) (next_obj h)) e He)).
    apply bind_Raise. apply on_store_run. cbn [store arg_or].
    rewrite Hoc. unfold SSD300.build_heads. cbn [zip zip_with foldM].
    apply bind_Raise. cbv beta iota.
    rewrite (bind_Ok _ _ _ _ _ Hrun2).
    apply bind_Raise. apply Conv2d_negative. lia.
  - reflexivity.
Qed.

Lemma SSD300_negative_num_classes_witness :
  exists h',
    SSD300.__init__ imported_class Default (Given (-1)) Default imported_heap =
    (Raise (RuntimeError "Trying to create tensor with negative dimension"),
     h').
Proof.
  edestruct (SSD300_negative_num_classes imported_class Default (-1) Default
               imported_heap) as (h' & Hrun & _).
  - vm_compute. reflexivity.
  - split; vm_compute; reflexivity.
  - lia.
  - exists h'. exact Hrun.
Defined.

End BackboneProperties.
